(** * RSA signature provider (providers/implementations/signature/rsa_sig.c)

    A shallow embedding of the signature-context state machine of the RSA
    signature provider: the context structure [PROV_RSA_CTX], the digest
    binding, the PSS salt-length resolver, the sign / verify /
    verify-recover transforms, the message (update / final / one-shot)
    life cycle, duplication and teardown, the fixed "sigalg" wrappers, and
    the setting and reading of context parameters.

    The build modelled is the default one (FIPS_MODULE undefined), in which
    the [OSSL_FIPS_IND_*] macros expand to nothing.

    Conventions.
    - C integers are [Z]; conversions between [int], [unsigned int] and
      [size_t] are written out where the source has them.
    - Heap objects the context points to (the RSA key with its reference
      count, the running digest context, the staged signature, the
      temporary buffer) live in typed stores of the [world]; a pointer is
      an [option positive], [None] being NULL.
    - The error queue ([ERR_raise]) is a list in the [world], newest first.
    - What C leaves undefined (a NULL or dangling dereference, a double
      free, a write past a buffer) is recorded as a [fault] in the
      [world]; nothing is claimed about what an execution that records
      one returns or leaves.
    - The collaborators that are not part of this source file (digest
      engine, RSA primitives, parameter marshalling) are the fields of the
      classes [Externals] and [ParamWriters]; the theorems hold for all of
      them, and the worked examples are evaluated on the instances
      [Toy.externals] and [Toy.writers]. *)

From Stdlib Require Import ZArith Lia Bool.
From stdpp Require Import base option list gmap strings pretty.

Open Scope Z_scope.

(** ** Constants of the public headers *)

Module Const.

(* <openssl/rsa.h> *)
Definition RSA_PKCS1_PADDING : Z := 1.
Definition RSA_NO_PADDING : Z := 3.
Definition RSA_PKCS1_OAEP_PADDING : Z := 4.
Definition RSA_X931_PADDING : Z := 5.
Definition RSA_PKCS1_PSS_PADDING : Z := 6.

Definition RSA_PSS_SALTLEN_DIGEST : Z := -1.
Definition RSA_PSS_SALTLEN_AUTO : Z := -2.
Definition RSA_PSS_SALTLEN_MAX : Z := -3.
Definition RSA_PSS_SALTLEN_AUTO_DIGEST_MAX : Z := -4.

Definition RSA_FLAG_TYPE_RSA : Z := 0x0000.
Definition RSA_FLAG_TYPE_RSASSAPSS : Z := 0x1000.

(* <openssl/evp.h> *)
Definition EVP_PKEY_OP_SIGN : Z := 16.
Definition EVP_PKEY_OP_VERIFY : Z := 32.
Definition EVP_PKEY_OP_VERIFYRECOVER : Z := 64.
Definition EVP_PKEY_OP_SIGNMSG : Z := 16384.
Definition EVP_PKEY_OP_VERIFYMSG : Z := 32768.

(* <openssl/obj_mac.h>, "internal/sizes.h" *)
Definition NID_undef : Z := 0.
Definition OSSL_MAX_NAME_SIZE : Z := 50.
Definition OSSL_MAX_PROPQUERY_SIZE : Z := 256.

(* <openssl/core_names.h> *)
Definition OSSL_DIGEST_NAME_SHA1 : string := "SHA1".
Definition OSSL_DIGEST_NAME_MDC2 : string := "MDC2".
Definition RSA_DEFAULT_DIGEST_NAME : string := OSSL_DIGEST_NAME_SHA1.
Definition OSSL_SIGNATURE_PARAM_DIGEST : string := "digest".
Definition OSSL_SIGNATURE_PARAM_PROPERTIES : string := "properties".
Definition OSSL_SIGNATURE_PARAM_PAD_MODE : string := "pad-mode".
Definition OSSL_SIGNATURE_PARAM_PSS_SALTLEN : string := "saltlen".
Definition OSSL_SIGNATURE_PARAM_MGF1_DIGEST : string := "mgf1-digest".
Definition OSSL_SIGNATURE_PARAM_MGF1_PROPERTIES : string := "mgf1-properties".
Definition OSSL_SIGNATURE_PARAM_SIGNATURE : string := "signature".
Definition OSSL_PKEY_RSA_PAD_MODE_NONE : string := "none".
Definition OSSL_PKEY_RSA_PAD_MODE_PKCSV15 : string := "pkcs1".
Definition OSSL_PKEY_RSA_PAD_MODE_X931 : string := "x931".
Definition OSSL_PKEY_RSA_PAD_MODE_PSS : string := "pss".
Definition OSSL_PKEY_RSA_PSS_SALT_LEN_DIGEST : string := "digest".
Definition OSSL_PKEY_RSA_PSS_SALT_LEN_MAX : string := "max".
Definition OSSL_PKEY_RSA_PSS_SALT_LEN_AUTO : string := "auto".
Definition OSSL_PKEY_RSA_PSS_SALT_LEN_AUTO_DIGEST_MAX : string := "auto-digestmax".

End Const.
Import Const.

(** ** C integer conversions *)

Definition int_of (z : Z) : Z := (z + 2 ^ 31) mod 2 ^ 32 - 2 ^ 31.
Definition uint_of (z : Z) : Z := z mod 2 ^ 32.
Definition size_t_of (z : Z) : Z := z mod 2 ^ 64.
Definition uchar_of (z : Z) : Z := z mod 256.

(** ** The error queue *)

Inductive err_lib := ERR_LIB_PROV | ERR_LIB_RSA.

Inductive err_reason :=
  | PROV_R_INVALID_PADDING_MODE
  | PROV_R_INVALID_X931_DIGEST
  | PROV_R_DIGEST_NOT_ALLOWED
  | PROV_R_XOF_DIGESTS_NOT_ALLOWED
  | PROV_R_INVALID_SALT_LENGTH
  | PROV_R_INVALID_DIGEST
  | PROV_R_INVALID_KEY
  | PROV_R_PSS_SALTLEN_TOO_SMALL
  | PROV_R_NO_KEY_SET
  | PROV_R_OPERATION_NOT_SUPPORTED_FOR_THIS_KEYTYPE
  | PROV_R_INVALID_SIGNATURE_SIZE
  | PROV_R_INVALID_DIGEST_LENGTH
  | PROV_R_KEY_SIZE_TOO_SMALL
  | PROV_R_UPDATE_CALL_OUT_OF_ORDER
  | PROV_R_FINAL_CALL_OUT_OF_ORDER
  | PROV_R_ONESHOT_CALL_OUT_OF_ORDER
  | PROV_R_ALGORITHM_MISMATCH
  | PROV_R_OUTPUT_BUFFER_TOO_SMALL
  | PROV_R_ILLEGAL_OR_UNSUPPORTED_PADDING_MODE
  | PROV_R_NOT_SUPPORTED
  | PROV_R_INVALID_MGF1_MD
  | ERR_R_INTERNAL_ERROR
  | ERR_R_PROV_LIB
  | ERR_R_RSA_LIB.

(** The arguments an [ERR_raise_data] call formats into its message. *)
Inductive err_arg := EInt (z : Z) | EStr (s : string).

Record err := mk_err { e_lib : err_lib; e_reason : err_reason; e_data : list err_arg }.

(** What C leaves undefined, recorded instead of modelled. *)
Inductive fault :=
  | NullDeref
  | UseAfterFree (p : positive)
  | DoubleFree (p : positive)
  | BufferOverflow (p : positive).

(** ** Parameter arrays *)

(** One [OSSL_PARAM]: its key and, by [data_type], its [data]. A string or
    octet string whose [data] pointer is NULL carries [None]; an octet
    string also carries its [data_size]. *)
Inductive param_data :=
  | PARAM_INTEGER (z : Z)
  | PARAM_UTF8_STRING (s : option string)
  | PARAM_OCTET_STRING (b : option (list Z)) (data_size : Z)
  | PARAM_OTHER.

Record OSSL_PARAM := mk_param { p_key : string; p_data : param_data }.

(** [OSSL_PARAM_locate_const]: the first entry with the key. *)
Fixpoint OSSL_PARAM_locate_const (params : list OSSL_PARAM) (k : string) : option OSSL_PARAM :=
  match params with
  | [] => None
  | p :: rest => if String.eqb (p_key p) k then Some p else OSSL_PARAM_locate_const rest k
  end.

(** [ossl_param_is_empty]: a NULL array or one that starts with the end marker. *)
Definition ossl_param_is_empty (params : list OSSL_PARAM) : bool :=
  match params with [] => true | _ => false end.

(** ** The key object *)

(** Modelled from the spec: the key collaborator (crypto/rsa, not part of
    this source file) exposes the modulus byte size, the modulus bit
    length, a type tag and, for an RSA-PSS key, the embedded hash, MGF1
    hash and minimum salt length; [pss_unrestricted] is
    [ossl_rsa_pss_params_30_is_unrestricted]. *)
Record RSA_PSS_PARAMS_30 := mk_pss30 {
  pss_unrestricted : bool;
  pss_hashalg : Z;
  pss_maskgenhashalg : Z;
  pss_saltlen : Z
}.

Record RSA := mk_RSA {
  RSA_size : Z;
  RSA_bits : Z;
  RSA_type_flags : Z;          (* RSA_test_flags(rsa, RSA_FLAG_TYPE_MASK) *)
  ossl_rsa_get0_pss_params_30 : RSA_PSS_PARAMS_30;
  RSA_material : Z             (* the key itself, opaque here *)
}.

(** A key in the store, with its reference count. *)
Record RSA_obj := mk_RSA_obj { obj_key : RSA; obj_references : nat }.

Definition null_RSA : RSA := mk_RSA 0 0 0 (mk_pss30 true 0 0 0) 0.

(** A destination buffer handed to a transform: absent, the caller's, or
    the context's own temporary buffer. *)
Inductive out_buffer := OUT_NULL | OUT_CALLER | OUT_TBUF.

Definition out_is_null (o : out_buffer) : bool :=
  match o with OUT_NULL => true | _ => false end.

(** ** The collaborators *)

Class Externals := {
  (* digest engine *)
  EVP_MD : Type;
  EVP_MD_CTX : Type;
  EVP_MD_fetch : string -> option string -> option EVP_MD;
  EVP_MD_get_size : option EVP_MD -> Z;
  EVP_MD_is_a : option EVP_MD -> string -> bool;
  EVP_MD_xof : EVP_MD -> bool;
  ossl_digest_rsa_sign_get_md_nid : EVP_MD -> Z;
  (* the contents of a context just returned by EVP_MD_CTX_new *)
  EVP_MD_CTX_fresh : EVP_MD_CTX;
  (* each returns its result code and the context object afterwards *)
  EVP_DigestInit_ex2 : EVP_MD_CTX -> option EVP_MD -> list OSSL_PARAM -> Z * EVP_MD_CTX;
  EVP_DigestUpdate : EVP_MD_CTX -> list Z -> Z * EVP_MD_CTX;
  (* result code and the digest bytes (their number is *isize) *)
  EVP_DigestFinal_ex : EVP_MD_CTX -> (Z * list Z) * EVP_MD_CTX;
  (* destination object, source object *)
  EVP_MD_CTX_copy_ex : EVP_MD_CTX -> EVP_MD_CTX -> Z * EVP_MD_CTX;
  EVP_MD_up_ref : EVP_MD -> Z;
  (* crypto/rsa *)
  RSA_X931_hash_id : Z -> Z;
  ossl_rsa_oaeppss_nid2name : Z -> option string;
  ossl_rsa_key_op_get_protect : RSA -> Z -> option Z;
  (* flen, from, key, padding: result code and the bytes written to [to] *)
  RSA_private_encrypt : Z -> list Z -> RSA -> Z -> Z * list Z;
  RSA_public_decrypt : Z -> list Z -> RSA -> Z -> Z * list Z;
  (* type, m, m_len, key: result code, signature bytes, *siglen *)
  RSA_sign : Z -> list Z -> Z -> RSA -> Z * list Z * Z;
  RSA_sign_ASN1_OCTET_STRING : Z -> list Z -> Z -> RSA -> Z * list Z * Z;
  (* type, m, m_len, sigbuf, siglen, key *)
  RSA_verify : Z -> list Z -> Z -> list Z -> Z -> RSA -> Z;
  (* type, sigbuf, siglen, key (m = NULL): result code, recovered bytes, *prm_len *)
  ossl_rsa_verify : Z -> list Z -> Z -> RSA -> Z * list Z * Z;
  (* key, EM before, mHash, Hash, mgf1Hash, *sLen, entropy:
     result code, EM afterwards, *sLen afterwards *)
  ossl_rsa_padding_add_PKCS1_PSS_mgf1 :
    RSA -> list Z -> list Z -> option EVP_MD -> option EVP_MD -> Z -> Z -> Z * list Z * Z;
  (* key, mHash, Hash, mgf1Hash, EM, *sLen: result code, *sLen afterwards *)
  ossl_rsa_verify_PKCS1_PSS_mgf1 :
    RSA -> list Z -> option EVP_MD -> option EVP_MD -> list Z -> Z -> Z * Z;
  (* crypto/params.c *)
  OSSL_PARAM_get_int : OSSL_PARAM -> option Z;
  (* parameter, size of the destination array *)
  OSSL_PARAM_get_utf8_string : OSSL_PARAM -> Z -> option string;
  (* with *val = NULL and max_len = 0: what is stored to *used_len, if
     anything, and the bytes to copy into a new block if the call gets
     as far as allocating it *)
  OSSL_PARAM_get_octet_string : OSSL_PARAM -> option Z * option (list Z);
  (* libc *)
  atoi : string -> Z
}.

Section Provider.

Context `{Ext : Externals}.

(** ** The signature context *)

#[local] Set Primitive Projections.

(** [PROV_RSA_CTX], field by field ([libctx], an opaque handle that is
    never written after creation, is left out). *)
Record PROV_RSA_CTX := mk_ctx {
  propq : option string;
  rsa : option positive;
  operation : Z;
  flag_sigalg : bool;
  flag_allow_md : bool;
  mgf1_md_set : bool;
  flag_allow_update : bool;
  flag_allow_final : bool;
  flag_allow_oneshot : bool;
  md : option EVP_MD;
  mdctx : option positive;
  mdnid : Z;
  mdname : string;
  pad_mode : Z;
  mgf1_md : option EVP_MD;
  mgf1_mdnid : Z;
  mgf1_mdname : string;
  saltlen : Z;
  min_saltlen : Z;
  sig : option positive;
  siglen : Z;
  tbuf : option positive
}.

(** Everything outside the context structure. *)
Record world := mk_world {
  w_running : bool;                     (* ossl_prov_is_running() *)
  w_keys : gmap positive RSA_obj;       (* live RSA objects *)
  w_bufs : gmap positive (list Z);      (* live OPENSSL_malloc blocks *)
  w_mdctxs : gmap positive EVP_MD_CTX;  (* live EVP_MD_CTX objects *)
  w_alloc : list bool;                  (* whether the next allocations succeed *)
  w_junk : list Z;                      (* what a fresh block happens to hold *)
  w_entropy : Z;                        (* state of the random generator *)
  w_errs : list err;                    (* the error queue, newest first *)
  w_faults : list fault
}.

#[local] Unset Primitive Projections.

Definition set_propq (v : option string) (c : PROV_RSA_CTX) : PROV_RSA_CTX :=
  let '(mk_ctx f1 f2 f3 f4 f5 f6 f7 f8 f9 f10 f11 f12 f13 f14 f15 f16 f17 f18 f19 f20 f21 f22) := c in
  mk_ctx v f2 f3 f4 f5 f6 f7 f8 f9 f10 f11 f12 f13 f14 f15 f16 f17 f18 f19 f20 f21 f22.
Definition set_rsa (v : option positive) (c : PROV_RSA_CTX) : PROV_RSA_CTX :=
  let '(mk_ctx f1 f2 f3 f4 f5 f6 f7 f8 f9 f10 f11 f12 f13 f14 f15 f16 f17 f18 f19 f20 f21 f22) := c in
  mk_ctx f1 v f3 f4 f5 f6 f7 f8 f9 f10 f11 f12 f13 f14 f15 f16 f17 f18 f19 f20 f21 f22.
Definition set_operation (v : Z) (c : PROV_RSA_CTX) : PROV_RSA_CTX :=
  let '(mk_ctx f1 f2 f3 f4 f5 f6 f7 f8 f9 f10 f11 f12 f13 f14 f15 f16 f17 f18 f19 f20 f21 f22) := c in
  mk_ctx f1 f2 v f4 f5 f6 f7 f8 f9 f10 f11 f12 f13 f14 f15 f16 f17 f18 f19 f20 f21 f22.
Definition set_flag_sigalg (v : bool) (c : PROV_RSA_CTX) : PROV_RSA_CTX :=
  let '(mk_ctx f1 f2 f3 f4 f5 f6 f7 f8 f9 f10 f11 f12 f13 f14 f15 f16 f17 f18 f19 f20 f21 f22) := c in
  mk_ctx f1 f2 f3 v f5 f6 f7 f8 f9 f10 f11 f12 f13 f14 f15 f16 f17 f18 f19 f20 f21 f22.
Definition set_flag_allow_md (v : bool) (c : PROV_RSA_CTX) : PROV_RSA_CTX :=
  let '(mk_ctx f1 f2 f3 f4 f5 f6 f7 f8 f9 f10 f11 f12 f13 f14 f15 f16 f17 f18 f19 f20 f21 f22) := c in
  mk_ctx f1 f2 f3 f4 v f6 f7 f8 f9 f10 f11 f12 f13 f14 f15 f16 f17 f18 f19 f20 f21 f22.
Definition set_mgf1_md_set (v : bool) (c : PROV_RSA_CTX) : PROV_RSA_CTX :=
  let '(mk_ctx f1 f2 f3 f4 f5 f6 f7 f8 f9 f10 f11 f12 f13 f14 f15 f16 f17 f18 f19 f20 f21 f22) := c in
  mk_ctx f1 f2 f3 f4 f5 v f7 f8 f9 f10 f11 f12 f13 f14 f15 f16 f17 f18 f19 f20 f21 f22.
Definition set_flag_allow_update (v : bool) (c : PROV_RSA_CTX) : PROV_RSA_CTX :=
  let '(mk_ctx f1 f2 f3 f4 f5 f6 f7 f8 f9 f10 f11 f12 f13 f14 f15 f16 f17 f18 f19 f20 f21 f22) := c in
  mk_ctx f1 f2 f3 f4 f5 f6 v f8 f9 f10 f11 f12 f13 f14 f15 f16 f17 f18 f19 f20 f21 f22.
Definition set_flag_allow_final (v : bool) (c : PROV_RSA_CTX) : PROV_RSA_CTX :=
  let '(mk_ctx f1 f2 f3 f4 f5 f6 f7 f8 f9 f10 f11 f12 f13 f14 f15 f16 f17 f18 f19 f20 f21 f22) := c in
  mk_ctx f1 f2 f3 f4 f5 f6 f7 v f9 f10 f11 f12 f13 f14 f15 f16 f17 f18 f19 f20 f21 f22.
Definition set_flag_allow_oneshot (v : bool) (c : PROV_RSA_CTX) : PROV_RSA_CTX :=
  let '(mk_ctx f1 f2 f3 f4 f5 f6 f7 f8 f9 f10 f11 f12 f13 f14 f15 f16 f17 f18 f19 f20 f21 f22) := c in
  mk_ctx f1 f2 f3 f4 f5 f6 f7 f8 v f10 f11 f12 f13 f14 f15 f16 f17 f18 f19 f20 f21 f22.
Definition set_md (v : option EVP_MD) (c : PROV_RSA_CTX) : PROV_RSA_CTX :=
  let '(mk_ctx f1 f2 f3 f4 f5 f6 f7 f8 f9 f10 f11 f12 f13 f14 f15 f16 f17 f18 f19 f20 f21 f22) := c in
  mk_ctx f1 f2 f3 f4 f5 f6 f7 f8 f9 v f11 f12 f13 f14 f15 f16 f17 f18 f19 f20 f21 f22.
Definition set_mdctx (v : option positive) (c : PROV_RSA_CTX) : PROV_RSA_CTX :=
  let '(mk_ctx f1 f2 f3 f4 f5 f6 f7 f8 f9 f10 f11 f12 f13 f14 f15 f16 f17 f18 f19 f20 f21 f22) := c in
  mk_ctx f1 f2 f3 f4 f5 f6 f7 f8 f9 f10 v f12 f13 f14 f15 f16 f17 f18 f19 f20 f21 f22.
Definition set_mdnid (v : Z) (c : PROV_RSA_CTX) : PROV_RSA_CTX :=
  let '(mk_ctx f1 f2 f3 f4 f5 f6 f7 f8 f9 f10 f11 f12 f13 f14 f15 f16 f17 f18 f19 f20 f21 f22) := c in
  mk_ctx f1 f2 f3 f4 f5 f6 f7 f8 f9 f10 f11 v f13 f14 f15 f16 f17 f18 f19 f20 f21 f22.
Definition set_mdname (v : string) (c : PROV_RSA_CTX) : PROV_RSA_CTX :=
  let '(mk_ctx f1 f2 f3 f4 f5 f6 f7 f8 f9 f10 f11 f12 f13 f14 f15 f16 f17 f18 f19 f20 f21 f22) := c in
  mk_ctx f1 f2 f3 f4 f5 f6 f7 f8 f9 f10 f11 f12 v f14 f15 f16 f17 f18 f19 f20 f21 f22.
Definition set_pad_mode (v : Z) (c : PROV_RSA_CTX) : PROV_RSA_CTX :=
  let '(mk_ctx f1 f2 f3 f4 f5 f6 f7 f8 f9 f10 f11 f12 f13 f14 f15 f16 f17 f18 f19 f20 f21 f22) := c in
  mk_ctx f1 f2 f3 f4 f5 f6 f7 f8 f9 f10 f11 f12 f13 v f15 f16 f17 f18 f19 f20 f21 f22.
Definition set_mgf1_md (v : option EVP_MD) (c : PROV_RSA_CTX) : PROV_RSA_CTX :=
  let '(mk_ctx f1 f2 f3 f4 f5 f6 f7 f8 f9 f10 f11 f12 f13 f14 f15 f16 f17 f18 f19 f20 f21 f22) := c in
  mk_ctx f1 f2 f3 f4 f5 f6 f7 f8 f9 f10 f11 f12 f13 f14 v f16 f17 f18 f19 f20 f21 f22.
Definition set_mgf1_mdnid (v : Z) (c : PROV_RSA_CTX) : PROV_RSA_CTX :=
  let '(mk_ctx f1 f2 f3 f4 f5 f6 f7 f8 f9 f10 f11 f12 f13 f14 f15 f16 f17 f18 f19 f20 f21 f22) := c in
  mk_ctx f1 f2 f3 f4 f5 f6 f7 f8 f9 f10 f11 f12 f13 f14 f15 v f17 f18 f19 f20 f21 f22.
Definition set_mgf1_mdname (v : string) (c : PROV_RSA_CTX) : PROV_RSA_CTX :=
  let '(mk_ctx f1 f2 f3 f4 f5 f6 f7 f8 f9 f10 f11 f12 f13 f14 f15 f16 f17 f18 f19 f20 f21 f22) := c in
  mk_ctx f1 f2 f3 f4 f5 f6 f7 f8 f9 f10 f11 f12 f13 f14 f15 f16 v f18 f19 f20 f21 f22.
Definition set_saltlen (v : Z) (c : PROV_RSA_CTX) : PROV_RSA_CTX :=
  let '(mk_ctx f1 f2 f3 f4 f5 f6 f7 f8 f9 f10 f11 f12 f13 f14 f15 f16 f17 f18 f19 f20 f21 f22) := c in
  mk_ctx f1 f2 f3 f4 f5 f6 f7 f8 f9 f10 f11 f12 f13 f14 f15 f16 f17 v f19 f20 f21 f22.
Definition set_min_saltlen (v : Z) (c : PROV_RSA_CTX) : PROV_RSA_CTX :=
  let '(mk_ctx f1 f2 f3 f4 f5 f6 f7 f8 f9 f10 f11 f12 f13 f14 f15 f16 f17 f18 f19 f20 f21 f22) := c in
  mk_ctx f1 f2 f3 f4 f5 f6 f7 f8 f9 f10 f11 f12 f13 f14 f15 f16 f17 f18 v f20 f21 f22.
Definition set_sig (v : option positive) (c : PROV_RSA_CTX) : PROV_RSA_CTX :=
  let '(mk_ctx f1 f2 f3 f4 f5 f6 f7 f8 f9 f10 f11 f12 f13 f14 f15 f16 f17 f18 f19 f20 f21 f22) := c in
  mk_ctx f1 f2 f3 f4 f5 f6 f7 f8 f9 f10 f11 f12 f13 f14 f15 f16 f17 f18 f19 v f21 f22.
Definition set_siglen (v : Z) (c : PROV_RSA_CTX) : PROV_RSA_CTX :=
  let '(mk_ctx f1 f2 f3 f4 f5 f6 f7 f8 f9 f10 f11 f12 f13 f14 f15 f16 f17 f18 f19 f20 f21 f22) := c in
  mk_ctx f1 f2 f3 f4 f5 f6 f7 f8 f9 f10 f11 f12 f13 f14 f15 f16 f17 f18 f19 f20 v f22.
Definition set_tbuf (v : option positive) (c : PROV_RSA_CTX) : PROV_RSA_CTX :=
  let '(mk_ctx f1 f2 f3 f4 f5 f6 f7 f8 f9 f10 f11 f12 f13 f14 f15 f16 f17 f18 f19 f20 f21 f22) := c in
  mk_ctx f1 f2 f3 f4 f5 f6 f7 f8 f9 f10 f11 f12 f13 f14 f15 f16 f17 f18 f19 f20 f21 v.

Definition set_w_keys (v : gmap positive RSA_obj) (w : world) : world :=
  let '(mk_world g1 g2 g3 g4 g5 g6 g7 g8 g9) := w in mk_world g1 v g3 g4 g5 g6 g7 g8 g9.
Definition set_w_bufs (v : gmap positive (list Z)) (w : world) : world :=
  let '(mk_world g1 g2 g3 g4 g5 g6 g7 g8 g9) := w in mk_world g1 g2 v g4 g5 g6 g7 g8 g9.
Definition set_w_mdctxs (v : gmap positive EVP_MD_CTX) (w : world) : world :=
  let '(mk_world g1 g2 g3 g4 g5 g6 g7 g8 g9) := w in mk_world g1 g2 g3 v g5 g6 g7 g8 g9.
Definition set_w_alloc (v : list bool) (w : world) : world :=
  let '(mk_world g1 g2 g3 g4 g5 g6 g7 g8 g9) := w in mk_world g1 g2 g3 g4 v g6 g7 g8 g9.
Definition set_w_entropy (v : Z) (w : world) : world :=
  let '(mk_world g1 g2 g3 g4 g5 g6 g7 g8 g9) := w in mk_world g1 g2 g3 g4 g5 g6 v g8 g9.
Definition set_w_errs (v : list err) (w : world) : world :=
  let '(mk_world g1 g2 g3 g4 g5 g6 g7 g8 g9) := w in mk_world g1 g2 g3 g4 g5 g6 g7 v g9.
Definition set_w_faults (v : list fault) (w : world) : world :=
  let '(mk_world g1 g2 g3 g4 g5 g6 g7 g8 g9) := w in mk_world g1 g2 g3 g4 g5 g6 g7 g8 v.

(** ** The monad of a call on a context *)

(** A C function of the file that takes the context pointer: it reads and
    writes the context structure and the world, and returns a value. The
    entry points check the pointer against NULL first and return 0 without
    doing anything; what follows is the rest of each function. *)
Definition M (A : Type) : Type := PROV_RSA_CTX -> world -> A * PROV_RSA_CTX * world.

Definition ret {A} (a : A) : M A := fun c w => (a, c, w).
Definition bind {A B} (m : M A) (k : A -> M B) : M B :=
  fun c w => let '(a, c', w') := m c w in k a c' w'.

Notation "'let*' p ':=' m 'in' k" := (bind m (fun p => k))
  (at level 10, p pattern, m at level 100, k at level 200, only parsing).
Notation "m '>>' k" := (bind m (fun _ => k))
  (at level 65, right associativity, only parsing).

Definition get_ctx : M PROV_RSA_CTX := fun c w => (c, c, w).
Definition modify_ctx (f : PROV_RSA_CTX -> PROV_RSA_CTX) : M unit := fun c w => (tt, f c, w).
Definition get_world : M world := fun c w => (w, c, w).
Definition modify_world (f : world -> world) : M unit := fun c w => (tt, c, f w).

Definition ossl_prov_is_running : M bool := fun c w => (w_running w, c, w).

Definition ERR_raise_data (l : err_lib) (r : err_reason) (args : list err_arg) : M unit :=
  modify_world (fun w => set_w_errs (mk_err l r args :: w_errs w) w).
Definition ERR_raise (l : err_lib) (r : err_reason) : M unit := ERR_raise_data l r [].

Definition raise_fault (f : fault) : M unit :=
  modify_world (fun w => set_w_faults (f :: w_faults w) w).

(** The outcome of the next allocation. *)
Definition alloc_succeeds : M bool :=
  fun c w => match w_alloc w with
             | [] => (true, c, w)
             | b :: rest => (b, c, set_w_alloc rest w)
             end.

(** [OPENSSL_malloc(n)]: a fresh block of [n] bytes of unspecified content;
    NULL for a request of no bytes. *)
Definition OPENSSL_malloc (n : Z) : M (option positive) :=
  if n <=? 0 then ret None else
  let* ok := alloc_succeeds in
  if ok then
    let* w := get_world in
    let p := fresh (dom (w_bufs w)) in
    modify_world (set_w_bufs (<[p := resize (Z.to_nat n) 0 (w_junk w)]> (w_bufs w))) >>
    ret (Some p)
  else ret None.

(** [OPENSSL_free(p)]. *)
Definition OPENSSL_free (p : option positive) : M unit :=
  match p with
  | None => ret tt
  | Some q =>
      let* w := get_world in
      match w_bufs w !! q with
      | Some _ => modify_world (set_w_bufs (delete q (w_bufs w)))
      | None => raise_fault (DoubleFree q)
      end
  end.

(** Reading a block through a pointer. *)
Definition read_buf (p : option positive) : M (list Z) :=
  match p with
  | None => raise_fault NullDeref >> ret []
  | Some q =>
      let* w := get_world in
      match w_bufs w !! q with
      | Some b => ret b
      | None => raise_fault (UseAfterFree q) >> ret []
      end
  end.

(** [bytes] laid over [old] from offset [off]; the block keeps its size. *)
Definition overlay (off : nat) (bytes old : list Z) : list Z :=
  take (length old) (take off old ++ bytes ++ drop (off + length bytes) old).

(** Writing [bytes] into a block from offset [off]. *)
Definition write_buf (p : option positive) (off : nat) (bytes : list Z) : M unit :=
  match p with
  | None => raise_fault NullDeref
  | Some q =>
      let* w := get_world in
      match w_bufs w !! q with
      | Some old =>
          (if (length old <? off + length bytes)%nat
           then raise_fault (BufferOverflow q) else ret tt) >>
          modify_world (fun w => set_w_bufs (<[q := overlay off bytes old]> (w_bufs w)) w)
      | None => raise_fault (UseAfterFree q)
      end
  end.

(** Reading the byte at index [i] of a block. *)
Definition read_byte (p : option positive) (i : Z) : M Z :=
  let* b := read_buf p in
  match b !! Z.to_nat i with
  | Some x => ret x
  | None =>
      (match p with Some q => raise_fault (BufferOverflow q) | None => ret tt end) >> ret 0
  end.

(** [OPENSSL_cleanse(p, n)]. *)
Definition OPENSSL_cleanse (p : option positive) (n : Z) : M unit :=
  write_buf p 0 (replicate (Z.to_nat n) 0).

(** [EVP_MD_CTX_new], [EVP_MD_CTX_free]. *)
Definition EVP_MD_CTX_new : M (option positive) :=
  let* ok := alloc_succeeds in
  if ok then
    let* w := get_world in
    let p := fresh (dom (w_mdctxs w)) in
    modify_world (set_w_mdctxs (<[p := EVP_MD_CTX_fresh]> (w_mdctxs w))) >>
    ret (Some p)
  else ret None.

Definition EVP_MD_CTX_free (p : option positive) : M unit :=
  match p with
  | None => ret tt
  | Some q =>
      let* w := get_world in
      match w_mdctxs w !! q with
      | Some _ => modify_world (set_w_mdctxs (delete q (w_mdctxs w)))
      | None => raise_fault (DoubleFree q)
      end
  end.

(** A digest-context operation applied through a pointer: the object is
    replaced by what the operation leaves, the result code is returned. *)
Definition on_mdctx {A} (p : option positive) (dflt : A)
    (f : EVP_MD_CTX -> A * EVP_MD_CTX) : M A :=
  match p with
  | None => raise_fault NullDeref >> ret dflt
  | Some q =>
      let* w := get_world in
      match w_mdctxs w !! q with
      | Some o =>
          let '(a, o') := f o in
          modify_world (set_w_mdctxs (<[q := o']> (w_mdctxs w))) >> ret a
      | None => raise_fault (UseAfterFree q) >> ret dflt
      end
  end.

(** [RSA_up_ref], [RSA_free]. *)
Definition RSA_up_ref (p : option positive) : M Z :=
  match p with
  | None => raise_fault NullDeref >> ret 0
  | Some q =>
      let* w := get_world in
      match w_keys w !! q with
      | Some o =>
          modify_world (set_w_keys
            (<[q := mk_RSA_obj (obj_key o) (S (obj_references o))]> (w_keys w))) >>
          ret 1
      | None => raise_fault (UseAfterFree q) >> ret 0
      end
  end.

Definition RSA_free (p : option positive) : M unit :=
  match p with
  | None => ret tt
  | Some q =>
      let* w := get_world in
      match w_keys w !! q with
      | Some o =>
          match obj_references o with
          | S (S n) =>
              modify_world (set_w_keys (<[q := mk_RSA_obj (obj_key o) (S n)]> (w_keys w)))
          | _ => modify_world (set_w_keys (delete q (w_keys w)))
          end
      | None => raise_fault (DoubleFree q)
      end
  end.

(** The key object behind [prsactx->rsa]. *)
Definition the_key (p : option positive) : M RSA :=
  match p with
  | None => raise_fault NullDeref >> ret null_RSA
  | Some q =>
      let* w := get_world in
      match w_keys w !! q with
      | Some o => ret (obj_key o)
      | None => raise_fault (UseAfterFree q) >> ret null_RSA
      end
  end.

Definition ctx_key : M RSA := let* c := get_ctx in the_key (rsa c).

(** ** Digest size, padding compatibility, parameter restrictions *)

(** [rsa_pss_restricted]: true if PSS parameters are restricted. *)
Definition rsa_pss_restricted (c : PROV_RSA_CTX) : bool := negb (min_saltlen c =? -1).

Definition rsa_get_md_size (c : PROV_RSA_CTX) : Z :=
  match md c with
  | Some _ =>
      let md_size := EVP_MD_get_size (md c) in
      if md_size <=? 0 then 0 else md_size
  | None => 0
  end.

Definition name_differs (bound : option EVP_MD) (name : option string) : bool :=
  match name with
  | Some n => negb (EVP_MD_is_a bound n)
  | None => false
  end.

Definition rsa_check_padding (mdname mgf1_mdname : option string) (mdnid : Z) : M Z :=
  let* c := get_ctx in
  if pad_mode c =? RSA_NO_PADDING then
    if bool_decide (mdname <> None) || negb (mdnid =? NID_undef) then
      ERR_raise ERR_LIB_PROV PROV_R_INVALID_PADDING_MODE >> ret 0
    else ret 1
  else if pad_mode c =? RSA_X931_PADDING then
    if RSA_X931_hash_id mdnid =? -1 then
      ERR_raise ERR_LIB_PROV PROV_R_INVALID_X931_DIGEST >> ret 0
    else ret 1
  else if pad_mode c =? RSA_PKCS1_PSS_PADDING then
    if rsa_pss_restricted c
       && (name_differs (md c) mdname || name_differs (mgf1_md c) mgf1_mdname) then
      ERR_raise ERR_LIB_PROV PROV_R_DIGEST_NOT_ALLOWED >> ret 0
    else ret 1
  else ret 1.

Definition rsa_check_parameters (min_saltlen' : Z) : M Z :=
  let* c := get_ctx in
  if pad_mode c =? RSA_PKCS1_PSS_PADDING then
    let* k := ctx_key in
    (* See if minimum salt length exceeds maximum possible *)
    let max_saltlen := RSA_size k - EVP_MD_get_size (md c) in
    let max_saltlen :=
      if Z.land (RSA_bits k) 0x7 =? 1 then max_saltlen - 1 else max_saltlen in
    if (min_saltlen' <? 0) || (max_saltlen <? min_saltlen') then
      ERR_raise ERR_LIB_PROV PROV_R_INVALID_SALT_LENGTH >> ret 0
    else
      modify_ctx (set_min_saltlen min_saltlen') >> ret 1
  else ret 1.

(** ** Creation *)

(** The structure [OPENSSL_zalloc] returns. *)
Definition zeroed_ctx : PROV_RSA_CTX :=
  mk_ctx None None 0 false false false false false false None None 0 ""
         0 None 0 "" 0 0 None 0 None.

(** [rsa_newctx]: the new context, or [None] for NULL. Its two allocations
    (the structure, the copy of the property query) may fail. *)
Definition rsa_newctx (propq' : option string) (w : world) : option PROV_RSA_CTX * world :=
  if negb (w_running w) then (None, w)
  else
    let '(ok1, _, w1) := alloc_succeeds zeroed_ctx w in
    if negb ok1 then (None, w1)
    else
      let '(ok2, w2) :=
        match propq' with
        | Some _ => let '(ok, _, w2) := alloc_succeeds zeroed_ctx w1 in (ok, w2)
        | None => (true, w1)
        end in
      if negb ok2 then (None, w2)
      else
        (Some (mk_ctx propq' None 0 false true false false false false None None 0 ""
                      0 None 0 "" RSA_PSS_SALTLEN_AUTO_DIGEST_MAX (-1) None 0 None),
         w2).

(** ** The PSS salt-length resolver *)

(** Lines 257-295 of [rsa_pss_compute_saltlen]: the symbolic request turned
    into a number. [None] when the function has already raised an error
    and returns -1. *)
Definition pss_saltlen_candidate : M (option Z) :=
  let* c := get_ctx in
  let saltlen0 := saltlen c in
  let saltlenMax0 := -1 in
  let resolve (saltlen1 saltlenMax : Z) : M (option Z) :=
    if (saltlen1 =? RSA_PSS_SALTLEN_MAX) || (saltlen1 =? RSA_PSS_SALTLEN_AUTO) then
      let mdsize := EVP_MD_get_size (md c) in
      if mdsize <=? 0 then
        ERR_raise ERR_LIB_PROV PROV_R_INVALID_DIGEST >> ret None
      else
        let* k := ctx_key in
        let rsasize := RSA_size k in
        if (rsasize <=? 2) || (rsasize - 2 <? mdsize) then
          ERR_raise ERR_LIB_PROV PROV_R_INVALID_KEY >> ret None
        else
          let saltlen2 := rsasize - mdsize - 2 in
          let saltlen3 := if Z.land (RSA_bits k) 0x7 =? 1 then saltlen2 - 1 else saltlen2 in
          let saltlen4 :=
            if (0 <=? saltlenMax) && (saltlenMax <? saltlen3) then saltlenMax else saltlen3 in
          ret (Some saltlen4)
    else ret (Some saltlen1) in
  if saltlen0 =? RSA_PSS_SALTLEN_DIGEST then
    let saltlen1 := EVP_MD_get_size (md c) in
    if saltlen1 <=? 0 then
      ERR_raise ERR_LIB_PROV PROV_R_INVALID_DIGEST >> ret None
    else resolve saltlen1 saltlenMax0
  else if saltlen0 =? RSA_PSS_SALTLEN_AUTO_DIGEST_MAX then
    let saltlenMax := EVP_MD_get_size (md c) in
    if saltlenMax <=? 0 then
      ERR_raise ERR_LIB_PROV PROV_R_INVALID_DIGEST >> ret None
    else resolve RSA_PSS_SALTLEN_MAX saltlenMax
  else resolve saltlen0 saltlenMax0.

(** Lines 296-305: the range check on the number. *)
Definition pss_saltlen_range_check (saltlen' : Z) : M Z :=
  let* c := get_ctx in
  if saltlen' <? 0 then
    ERR_raise ERR_LIB_PROV ERR_R_INTERNAL_ERROR >> ret (-1)
  else if saltlen' <? min_saltlen c then
    ERR_raise_data ERR_LIB_PROV PROV_R_PSS_SALTLEN_TOO_SMALL
      [EInt (min_saltlen c); EInt saltlen'] >> ret (-1)
  else ret saltlen'.

Definition rsa_pss_compute_saltlen : M Z :=
  let* s := pss_saltlen_candidate in
  match s with
  | None => ret (-1)
  | Some saltlen' => pss_saltlen_range_check saltlen'
  end.


(** ** Binding a digest *)

(** [OPENSSL_strlcpy(dst, src, size)]: what [dst] holds afterwards and the
    value returned, the length of [src]. *)
Definition OPENSSL_strlcpy (src : string) (size : Z) : string * Z :=
  (String.substring 0 (Z.to_nat (size - 1)) src, Z.of_nat (String.length src)).

Definition or_default (props dflt : option string) : option string :=
  match props with Some _ => props | None => dflt end.

Definition rsa_setup_md (mdname' : option string) (mdprops : option string) : M Z :=
  let* c := get_ctx in
  let mdprops := or_default mdprops (propq c) in
  match mdname' with
  | None => ret 1
  | Some name =>
      let mdname_len := Z.of_nat (String.length name) in
      match EVP_MD_fetch name mdprops with
      | None =>
          ERR_raise_data ERR_LIB_PROV PROV_R_INVALID_DIGEST [EStr name] >> ret 0
      | Some md' =>
          let md_nid := ossl_digest_rsa_sign_get_md_nid md' in
          if md_nid =? NID_undef then
            ERR_raise_data ERR_LIB_PROV PROV_R_DIGEST_NOT_ALLOWED [EStr name] >> ret 0
          else if EVP_MD_xof md' then
            (* XOF digests are not allowed except for RSA PSS; not supported
               with RSA PSS (yet), so just fail *)
            ERR_raise ERR_LIB_PROV PROV_R_XOF_DIGESTS_NOT_ALLOWED >> ret 0
          else
            let* ok := rsa_check_padding (Some name) None md_nid in
            if ok =? 0 then ret 0
            else if OSSL_MAX_NAME_SIZE <=? mdname_len then
              ERR_raise_data ERR_LIB_PROV PROV_R_INVALID_DIGEST [EStr name] >> ret 0
            else if negb (flag_allow_md c) then
              if negb (String.eqb (mdname c) "") && negb (EVP_MD_is_a (Some md') (mdname c)) then
                ERR_raise_data ERR_LIB_PROV PROV_R_DIGEST_NOT_ALLOWED
                  [EStr name; EStr (mdname c)] >> ret 0
              else ret 1      (* EVP_MD_free(md); return 1 *)
            else
              let bind_mgf1 : M bool :=
                if negb (mgf1_md_set c) then
                  if EVP_MD_up_ref md' =? 0 then ret false
                  else
                    modify_ctx (set_mgf1_md (Some md')) >>
                    modify_ctx (set_mgf1_mdnid md_nid) >>
                    modify_ctx (set_mgf1_mdname
                                  (fst (OPENSSL_strlcpy name OSSL_MAX_NAME_SIZE))) >>
                    ret true
                else ret true in
              let* ok := bind_mgf1 in
              if negb ok then ret 0
              else
                EVP_MD_CTX_free (mdctx c) >>
                modify_ctx (set_mdctx None) >>
                modify_ctx (set_md (Some md')) >>
                modify_ctx (set_mdnid md_nid) >>
                modify_ctx (set_mdname (fst (OPENSSL_strlcpy name OSSL_MAX_NAME_SIZE))) >>
                ret 1
      end
  end.

Definition rsa_setup_mgf1_md (mdname' : string) (mdprops : option string) : M Z :=
  let* c := get_ctx in
  let mdprops := or_default mdprops (propq c) in
  match EVP_MD_fetch mdname' mdprops with
  | None =>
      ERR_raise_data ERR_LIB_PROV PROV_R_INVALID_DIGEST [EStr mdname'] >> ret 0
  | Some md' =>
      (* The default for mgf1 is SHA1 - so allow SHA1 *)
      let mdnid' := ossl_digest_rsa_sign_get_md_nid md' in
      if mdnid' <=? 0 then
        ERR_raise_data ERR_LIB_PROV PROV_R_DIGEST_NOT_ALLOWED [EStr mdname'] >> ret 0
      else
        let* ok := rsa_check_padding None (Some mdname') mdnid' in
        if ok =? 0 then ret 0
        else
          let '(copied, len) := OPENSSL_strlcpy mdname' OSSL_MAX_NAME_SIZE in
          modify_ctx (set_mgf1_mdname copied) >>
          if OSSL_MAX_NAME_SIZE <=? len then
            ERR_raise_data ERR_LIB_PROV PROV_R_INVALID_DIGEST [EStr mdname'] >> ret 0
          else
            modify_ctx (set_mgf1_md (Some md')) >>
            modify_ctx (set_mgf1_mdnid mdnid') >>
            modify_ctx (set_mgf1_md_set true) >>
            ret 1
  end.

(** ** Initialisation *)

Definition rsa_signverify_init (vrsa : option positive)
    (set_ctx_params : list OSSL_PARAM -> M Z)
    (params : list OSSL_PARAM) (operation' : Z) : M Z :=
  let* running := ossl_prov_is_running in
  if negb running then ret 0 else
  let* c := get_ctx in
  if bool_decide (vrsa = None) && bool_decide (rsa c = None) then
    ERR_raise ERR_LIB_PROV PROV_R_NO_KEY_SET >> ret 0
  else
  let take_key : M bool :=
    match vrsa with
    | Some _ =>
        let* r := RSA_up_ref vrsa in
        if r =? 0 then ret false
        else RSA_free (rsa c) >> modify_ctx (set_rsa vrsa) >> ret true
    | None => ret true
    end in
  let* ok := take_key in
  if negb ok then ret 0 else
  let* k := ctx_key in
  match ossl_rsa_key_op_get_protect k operation' with
  | None => ret 0
  | Some protect =>
      modify_ctx (set_operation operation') >>
      modify_ctx (set_flag_allow_update true) >>
      modify_ctx (set_flag_allow_final true) >>
      modify_ctx (set_flag_allow_oneshot true) >>
      (* Maximize up to digest length for sign, auto for verify *)
      modify_ctx (set_saltlen RSA_PSS_SALTLEN_AUTO_DIGEST_MAX) >>
      modify_ctx (set_min_saltlen (-1)) >>
      let finish : M Z :=
        let* r := set_ctx_params params in
        if r =? 0 then ret 0 else ret 1 in
      if RSA_type_flags k =? RSA_FLAG_TYPE_RSA then
        modify_ctx (set_pad_mode RSA_PKCS1_PADDING) >> finish
      else if RSA_type_flags k =? RSA_FLAG_TYPE_RSASSAPSS then
        modify_ctx (set_pad_mode RSA_PKCS1_PSS_PADDING) >>
        let pss := ossl_rsa_get0_pss_params_30 k in
        if negb (pss_unrestricted pss) then
          let md_nid := pss_hashalg pss in
          let mgf1md_nid := pss_maskgenhashalg pss in
          let min_saltlen' := pss_saltlen pss in
          match ossl_rsa_oaeppss_nid2name md_nid, ossl_rsa_oaeppss_nid2name mgf1md_nid with
          | None, _ =>
              ERR_raise_data ERR_LIB_PROV PROV_R_INVALID_DIGEST [] >> ret 0
          | Some _, None =>
              ERR_raise_data ERR_LIB_PROV PROV_R_INVALID_DIGEST [] >> ret 0
          | Some mdname', Some mgf1mdname =>
              let '(copied, len) := OPENSSL_strlcpy mdname' OSSL_MAX_NAME_SIZE in
              modify_ctx (set_mdname copied) >>
              if OSSL_MAX_NAME_SIZE <=? len then
                ERR_raise_data ERR_LIB_PROV PROV_R_INVALID_DIGEST [] >> ret 0
              else
              let '(copied1, len1) := OPENSSL_strlcpy mgf1mdname OSSL_MAX_NAME_SIZE in
              modify_ctx (set_mgf1_mdname copied1) >>
              if OSSL_MAX_NAME_SIZE <=? len1 then
                ERR_raise_data ERR_LIB_PROV PROV_R_INVALID_DIGEST [] >> ret 0
              else
              modify_ctx (set_saltlen min_saltlen') >>
              (* call rsa_setup_mgf1_md before rsa_setup_md to avoid duplication *)
              let* c1 := get_ctx in
              let* r1 := rsa_setup_mgf1_md mgf1mdname (propq c1) in
              if r1 =? 0 then ret 0 else
              let* r2 := rsa_setup_md (Some mdname') (propq c1) in
              if r2 =? 0 then ret 0 else
              let* r3 := rsa_check_parameters min_saltlen' in
              if r3 =? 0 then ret 0 else
              finish
          end
        else finish
      else
        ERR_raise ERR_LIB_RSA PROV_R_OPERATION_NOT_SUPPORTED_FOR_THIS_KEYTYPE >> ret 0
  end.

(** ** The temporary buffer *)

Definition setup_tbuf : M Z :=
  let* c := get_ctx in
  match tbuf c with
  | Some _ => ret 1
  | None =>
      let* k := ctx_key in
      let* p := OPENSSL_malloc (RSA_size k) in
      modify_ctx (set_tbuf p) >>
      match p with None => ret 0 | Some _ => ret 1 end
  end.

Definition clean_tbuf : M unit :=
  let* c := get_ctx in
  match tbuf c with
  | Some _ => let* k := ctx_key in OPENSSL_cleanse (tbuf c) (RSA_size k)
  | None => ret tt
  end.

Definition free_tbuf : M unit :=
  clean_tbuf >>
  let* c := get_ctx in
  OPENSSL_free (tbuf c) >>
  modify_ctx (set_tbuf None).

(** ** The sign transform *)

(** What a transform hands back: its return value, what it stored to the
    length out-parameter ([None]: nothing), and the bytes it wrote to the
    caller's destination buffer. *)
Record result := mk_result { r_code : Z; r_len : option Z; r_bytes : list Z }.

Definition failed : result := mk_result 0 None [].

(** The common end of [rsa_sign_directly] (label [end]). *)
Definition sign_end (ret' : Z) (written : list Z) : M result :=
  if ret' <=? 0 then
    ERR_raise ERR_LIB_PROV ERR_R_RSA_LIB >> ret (mk_result 0 None written)
  else ret (mk_result 1 (Some (size_t_of ret')) written).

(** The salt-floor check the PSS case of [rsa_sign_directly] makes on the
    requested value (lines 761-787); [false] when it has raised. *)
Definition sign_pss_restrictions_ok : M bool :=
  let* c := get_ctx in
  if rsa_pss_restricted c then
    let default_case : M bool :=
      if (0 <=? saltlen c) && (saltlen c <? min_saltlen c) then
        ERR_raise_data ERR_LIB_PROV PROV_R_PSS_SALTLEN_TOO_SMALL
          [EInt (min_saltlen c); EInt (saltlen c)] >> ret false
      else ret true in
    if saltlen c =? RSA_PSS_SALTLEN_DIGEST then
      if EVP_MD_get_size (md c) <? min_saltlen c then
        ERR_raise_data ERR_LIB_PROV PROV_R_PSS_SALTLEN_TOO_SMALL
          [EInt (min_saltlen c); EInt (EVP_MD_get_size (md c))] >> ret false
      else default_case     (* FALLTHRU *)
    else default_case
  else ret true.

(** Sign tbs without digesting it first. *)
Definition rsa_sign_directly (sig' : out_buffer) (sigsize : Z) (tbs : list Z) : M result :=
  let tbslen := Z.of_nat (length tbs) in
  let* k := ctx_key in
  let* c := get_ctx in
  let rsasize := size_t_of (RSA_size k) in
  let mdsize := size_t_of (rsa_get_md_size c) in
  let* running := ossl_prov_is_running in
  if negb running then ret failed
  else if out_is_null sig' then ret (mk_result 1 (Some rsasize) [])
  else if sigsize <? rsasize then
    ERR_raise_data ERR_LIB_PROV PROV_R_INVALID_SIGNATURE_SIZE [EInt sigsize; EInt rsasize] >>
    ret failed
  else if negb (mdsize =? 0) then
    if negb (tbslen =? mdsize) then
      ERR_raise ERR_LIB_PROV PROV_R_INVALID_DIGEST_LENGTH >> ret failed
    else if EVP_MD_is_a (md c) OSSL_DIGEST_NAME_MDC2 then
      if negb (pad_mode c =? RSA_PKCS1_PADDING) then
        ERR_raise_data ERR_LIB_PROV PROV_R_INVALID_PADDING_MODE [] >> ret failed
      else
        let '(r, written, sltmp) := RSA_sign_ASN1_OCTET_STRING 0 tbs (uint_of tbslen) k in
        if r <=? 0 then
          ERR_raise ERR_LIB_PROV ERR_R_RSA_LIB >> ret (mk_result 0 None written)
        else sign_end (int_of sltmp) written
    else if pad_mode c =? RSA_X931_PADDING then
      if size_t_of (RSA_size k) <? tbslen + 1 then
        ERR_raise_data ERR_LIB_PROV PROV_R_KEY_SIZE_TOO_SMALL
          [EInt (RSA_size k); EInt (tbslen + 1)] >> ret failed
      else
        let* ok := setup_tbuf in
        if ok =? 0 then ERR_raise ERR_LIB_PROV ERR_R_PROV_LIB >> ret failed
        else
          let* c1 := get_ctx in
          write_buf (tbuf c1) 0 tbs >>
          write_buf (tbuf c1) (length tbs) [uchar_of (RSA_X931_hash_id (mdnid c1))] >>
          let* block := read_buf (tbuf c1) in
          let '(r, written) :=
            RSA_private_encrypt (int_of (tbslen + 1)) (take (S (length tbs)) block)
                                k RSA_X931_PADDING in
          clean_tbuf >>
          sign_end r written
    else if pad_mode c =? RSA_PKCS1_PADDING then
      let '(r, written, sltmp) := RSA_sign (mdnid c) tbs (uint_of tbslen) k in
      if r <=? 0 then
        ERR_raise ERR_LIB_PROV ERR_R_RSA_LIB >> ret (mk_result 0 None written)
      else sign_end (int_of sltmp) written
    else if pad_mode c =? RSA_PKCS1_PSS_PADDING then
      (* Check PSS restrictions *)
      let* ok := sign_pss_restrictions_ok in
      if negb ok then ret failed
      else
        let* ok := setup_tbuf in
        if ok =? 0 then ret failed
        else
          let* c1 := get_ctx in
          let* w := get_world in
          let* block := read_buf (tbuf c1) in
          let '(r, em, saltlen') :=
            ossl_rsa_padding_add_PKCS1_PSS_mgf1 k block tbs (md c1) (mgf1_md c1)
                                                (saltlen c1) (w_entropy w) in
          modify_world (set_w_entropy (w_entropy w + 1)) >>
          write_buf (tbuf c1) 0 em >>
          if r =? 0 then
            ERR_raise ERR_LIB_PROV ERR_R_RSA_LIB >> ret failed
          else
            let* block := read_buf (tbuf c1) in
            let '(r, written) :=
              RSA_private_encrypt (RSA_size k) (take (Z.to_nat (RSA_size k)) block)
                                  k RSA_NO_PADDING in
            clean_tbuf >>
            sign_end r written
    else
      ERR_raise_data ERR_LIB_PROV PROV_R_INVALID_PADDING_MODE [] >> ret failed
  else
    let '(r, written) := RSA_private_encrypt (int_of tbslen) tbs k (pad_mode c) in
    sign_end r written.

(** ** The message life cycle: update, final, one-shot sign *)

Definition rsa_signverify_message_update (data : list Z) : M Z :=
  let* c := get_ctx in
  if bool_decide (mdctx c = None) then ret 0
  else if negb (flag_allow_update c) then
    ERR_raise ERR_LIB_PROV PROV_R_UPDATE_CALL_OUT_OF_ORDER >> ret 0
  else
    modify_ctx (set_flag_allow_oneshot false) >>
    on_mdctx (mdctx c) 0 (fun o => EVP_DigestUpdate o data).

Definition rsa_sign_message_final (sig' : out_buffer) (sigsize : Z) : M result :=
  let* running := ossl_prov_is_running in
  if negb running then ret failed else
  let* c := get_ctx in
  if bool_decide (mdctx c = None) then ret failed
  else if negb (flag_allow_final c) then
    ERR_raise ERR_LIB_PROV PROV_R_FINAL_CALL_OUT_OF_ORDER >> ret failed
  else
    (* If sig is NULL then we're just finding out the sig size. Other fields
       are ignored. Defer to rsa_sign. *)
    if negb (out_is_null sig') then
      let* rd := on_mdctx (mdctx c) (0, []) EVP_DigestFinal_ex in
      let '(r, digest) := rd in
      if r =? 0 then ret failed
      else
        modify_ctx (set_flag_allow_update false) >>
        modify_ctx (set_flag_allow_oneshot false) >>
        modify_ctx (set_flag_allow_final false) >>
        rsa_sign_directly sig' sigsize digest
    else rsa_sign_directly sig' sigsize [].

(** If signing a message, digest tbs and sign the result.
    Otherwise, sign tbs directly. *)
Definition rsa_sign (sig' : out_buffer) (sigsize : Z) (tbs : list Z) : M result :=
  let* running := ossl_prov_is_running in
  if negb running then ret failed else
  let* c := get_ctx in
  if negb (flag_allow_oneshot c) then
    ERR_raise ERR_LIB_PROV PROV_R_ONESHOT_CALL_OUT_OF_ORDER >> ret failed
  else if operation c =? EVP_PKEY_OP_SIGNMSG then
    (* If |sig| is NULL, the caller is only looking for the sig length.
       DO NOT update the input in this case. *)
    if out_is_null sig' then rsa_sign_message_final sig' sigsize
    else
      let* r := rsa_signverify_message_update tbs in
      if r =? 0 then ret failed
      else
        let* res := rsa_sign_message_final sig' sigsize in
        ret (mk_result (if r_code res =? 0 then 0 else 1) (r_len res) (r_bytes res))
  else rsa_sign_directly sig' sigsize tbs.

(** ** Verify-recover and verify *)

(** Bytes a primitive wrote to [rout]: into the temporary buffer when that
    is what [rout] points to, to the caller otherwise. *)
Definition deliver (rout : out_buffer) (bytes : list Z) : M (list Z) :=
  match rout with
  | OUT_TBUF => let* c := get_ctx in write_buf (tbuf c) 0 bytes >> ret []
  | _ => ret bytes
  end.

(** There is no message variant of verify recover. *)
Definition rsa_verify_recover (rout : out_buffer) (routsize : Z)
    (sig' : list Z) (siglen' : Z) : M result :=
  let* running := ossl_prov_is_running in
  if negb running then ret failed else
  let* k := ctx_key in
  let* c := get_ctx in
  if out_is_null rout then ret (mk_result 1 (Some (size_t_of (RSA_size k))) [])
  else
  match md c with
  | Some _ =>
      if pad_mode c =? RSA_X931_PADDING then
        let* ok := setup_tbuf in
        if ok =? 0 then ret failed
        else
          let* c1 := get_ctx in
          let '(r, recovered) := RSA_public_decrypt (int_of siglen') sig' k RSA_X931_PADDING in
          write_buf (tbuf c1) 0 recovered >>
          if r <? 1 then ERR_raise ERR_LIB_PROV ERR_R_RSA_LIB >> ret failed
          else
            let ret1 := r - 1 in
            let* trailer := read_byte (tbuf c1) ret1 in
            if negb (trailer =? RSA_X931_hash_id (mdnid c1)) then
              ERR_raise ERR_LIB_PROV PROV_R_ALGORITHM_MISMATCH >> ret failed
            else if negb (ret1 =? EVP_MD_get_size (md c1)) then
              ERR_raise_data ERR_LIB_PROV PROV_R_INVALID_DIGEST_LENGTH
                [EInt (EVP_MD_get_size (md c1)); EInt ret1] >> ret failed
            else
              match rout with
              | OUT_TBUF => ret (mk_result 1 (Some (size_t_of ret1)) [])
              | _ =>
                  if routsize <? size_t_of ret1 then
                    ERR_raise_data ERR_LIB_PROV PROV_R_OUTPUT_BUFFER_TOO_SMALL
                      [EInt routsize; EInt ret1] >>
                    ret (mk_result 0 (Some (size_t_of ret1)) [])
                  else
                    let* block := read_buf (tbuf c1) in
                    ret (mk_result 1 (Some (size_t_of ret1)) (take (Z.to_nat ret1) block))
              end
      else if pad_mode c =? RSA_PKCS1_PADDING then
        let '(r, recovered, sltmp) := ossl_rsa_verify (mdnid c) sig' siglen' k in
        let* written := deliver rout recovered in
        if r <=? 0 then
          ERR_raise ERR_LIB_PROV ERR_R_RSA_LIB >> ret (mk_result 0 None written)
        else ret (mk_result 1 (Some (size_t_of (int_of sltmp))) written)
      else
        ERR_raise_data ERR_LIB_PROV PROV_R_INVALID_PADDING_MODE [] >> ret failed
  | None =>
      let '(r, recovered) := RSA_public_decrypt (int_of siglen') sig' k (pad_mode c) in
      let* written := deliver rout recovered in
      if r <? 0 then
        ERR_raise ERR_LIB_PROV ERR_R_RSA_LIB >> ret (mk_result 0 None written)
      else ret (mk_result 1 (Some (size_t_of r)) written)
  end.

(** The comparison that ends [rsa_verify_directly]:
    [(rslen != tbslen) || memcmp(tbs, prsactx->tbuf, rslen)]. *)
Definition verify_compare (rslen : Z) (tbs : list Z) : M Z :=
  let* c := get_ctx in
  if negb (rslen =? Z.of_nat (length tbs)) then ret 0
  else
    let* block := read_buf (tbuf c) in
    if bool_decide (take (Z.to_nat rslen) tbs = take (Z.to_nat rslen) block)
    then ret 1 else ret 0.

Definition rsa_verify_directly (sig' : list Z) (siglen' : Z) (tbs : list Z) : M Z :=
  let tbslen := Z.of_nat (length tbs) in
  let* running := ossl_prov_is_running in
  if negb running then ret 0 else
  let* c := get_ctx in
  match md c with
  | Some _ =>
      if pad_mode c =? RSA_PKCS1_PADDING then
        let* k := ctx_key in
        if RSA_verify (mdnid c) tbs (uint_of tbslen) sig' (uint_of siglen') k =? 0 then
          ERR_raise ERR_LIB_PROV ERR_R_RSA_LIB >> ret 0
        else ret 1
      else if pad_mode c =? RSA_X931_PADDING then
        let* ok := setup_tbuf in
        if ok =? 0 then ret 0
        else
          let* res := rsa_verify_recover OUT_TBUF 0 sig' siglen' in
          if r_code res <=? 0 then ret 0
          else verify_compare (default 0 (r_len res)) tbs
      else if pad_mode c =? RSA_PKCS1_PSS_PADDING then
        (* We need to check this for the RSA_verify_PKCS1_PSS_mgf1() call *)
        let mdsize := size_t_of (rsa_get_md_size c) in
        if negb (tbslen =? mdsize) then
          ERR_raise_data ERR_LIB_PROV PROV_R_INVALID_DIGEST_LENGTH
            [EInt mdsize; EInt tbslen] >> ret 0
        else
          let* ok := setup_tbuf in
          if ok =? 0 then ret 0
          else
            let* c1 := get_ctx in
            let* k := ctx_key in
            let '(r, recovered) := RSA_public_decrypt (int_of siglen') sig' k RSA_NO_PADDING in
            write_buf (tbuf c1) 0 recovered >>
            if r <=? 0 then ERR_raise ERR_LIB_PROV ERR_R_RSA_LIB >> ret 0
            else
              let* block := read_buf (tbuf c1) in
              let '(r, saltlen') :=
                ossl_rsa_verify_PKCS1_PSS_mgf1 k tbs (md c1) (mgf1_md c1) block (saltlen c1) in
              if r <=? 0 then ERR_raise ERR_LIB_PROV ERR_R_RSA_LIB >> ret 0
              else ret 1
      else
        ERR_raise_data ERR_LIB_PROV PROV_R_INVALID_PADDING_MODE [] >> ret 0
  | None =>
      let* ok := setup_tbuf in
      if ok =? 0 then ret 0
      else
        let* c1 := get_ctx in
        let* k := ctx_key in
        let '(r, recovered) := RSA_public_decrypt (int_of siglen') sig' k (pad_mode c1) in
        write_buf (tbuf c1) 0 recovered >>
        if r <=? 0 then ERR_raise ERR_LIB_PROV ERR_R_RSA_LIB >> ret 0
        else verify_compare (size_t_of r) tbs
  end.

(** ** Staging the signature; verify final and one-shot verify *)

Definition rsa_sigalg_set_ctx_params (params : list OSSL_PARAM) : M Z :=
  if ossl_param_is_empty params then ret 1 else
  let* c := get_ctx in
  if operation c =? EVP_PKEY_OP_VERIFYMSG then
    match OSSL_PARAM_locate_const params OSSL_SIGNATURE_PARAM_SIGNATURE with
    | Some p =>
        OPENSSL_free (sig c) >>
        modify_ctx (set_sig None) >>
        modify_ctx (set_siglen 0) >>
        let '(used, bytes) := OSSL_PARAM_get_octet_string p in
        (match used with Some n => modify_ctx (set_siglen n) | None => ret tt end) >>
        match bytes with
        | None => ret 0
        | Some b =>
            let* q := OPENSSL_malloc (Z.max 1 (Z.of_nat (length b))) in
            match q with
            | None => ret 0
            | Some _ => modify_ctx (set_sig q) >> write_buf q 0 b >> ret 1
            end
        end
    | None => ret 1
    end
  else ret 1.

Definition rsa_verify_set_sig (sig' : option (list Z)) (siglen' : Z) : M Z :=
  rsa_sigalg_set_ctx_params
    [mk_param OSSL_SIGNATURE_PARAM_SIGNATURE (PARAM_OCTET_STRING sig' siglen')].

Definition rsa_verify_message_final : M Z :=
  let* running := ossl_prov_is_running in
  if negb running then ret 0 else
  let* c := get_ctx in
  if bool_decide (mdctx c = None) then ret 0
  else if negb (flag_allow_final c) then
    ERR_raise ERR_LIB_PROV PROV_R_FINAL_CALL_OUT_OF_ORDER >> ret 0
  else
    let* rd := on_mdctx (mdctx c) (0, []) EVP_DigestFinal_ex in
    let '(r, digest) := rd in
    if r =? 0 then ret 0
    else
      modify_ctx (set_flag_allow_update false) >>
      modify_ctx (set_flag_allow_final false) >>
      modify_ctx (set_flag_allow_oneshot false) >>
      let* c1 := get_ctx in
      let* staged := (match sig c1 with Some _ => read_buf (sig c1) | None => ret [] end) in
      rsa_verify_directly (take (Z.to_nat (siglen c1)) staged) (siglen c1) digest.

(** [a && b] on two calls. *)
Definition and_then (a b : M Z) : M Z :=
  let* x := a in
  if x =? 0 then ret 0
  else let* y := b in if y =? 0 then ret 0 else ret 1.

(** If verifying a message, digest tbs and verify the result.
    Otherwise, verify tbs directly. *)
Definition rsa_verify (sig' : option (list Z)) (siglen' : Z) (tbs : list Z) : M Z :=
  let* running := ossl_prov_is_running in
  if negb running then ret 0 else
  let* c := get_ctx in
  if negb (flag_allow_oneshot c) then
    ERR_raise ERR_LIB_PROV PROV_R_ONESHOT_CALL_OUT_OF_ORDER >> ret 0
  else if operation c =? EVP_PKEY_OP_VERIFYMSG then
    and_then (rsa_verify_set_sig sig' siglen')
      (and_then (rsa_signverify_message_update tbs) rsa_verify_message_final)
  else rsa_verify_directly (default [] sig') siglen' tbs.

(** ** Setting context parameters *)

(** The pad mode a string names in the table [padding_item], if any. *)
Definition padding_item : list (Z * string) :=
  [ (RSA_PKCS1_PADDING, OSSL_PKEY_RSA_PAD_MODE_PKCSV15);
    (RSA_NO_PADDING, OSSL_PKEY_RSA_PAD_MODE_NONE);
    (RSA_X931_PADDING, OSSL_PKEY_RSA_PAD_MODE_X931);
    (RSA_PKCS1_PSS_PADDING, OSSL_PKEY_RSA_PAD_MODE_PSS) ].

Fixpoint padding_by_name (items : list (Z * string)) (name : string) (dflt : Z) : Z :=
  match items with
  | [] => dflt
  | (id, word) :: rest => if String.eqb name word then id else padding_by_name rest name dflt
  end.

Definition op_in (op mask : Z) : bool := negb (Z.land op mask =? 0).

(** The switch on the requested pad mode (lines 1613-1663): whether it is
    accepted for this operation and key type. *)
Definition pad_mode_allowed (pad_mode' op : Z) (k : RSA) : bool :=
  if pad_mode' =? RSA_PKCS1_OAEP_PADDING then false
  else if pad_mode' =? RSA_PKCS1_PSS_PADDING then
    op_in op (Z.lor (Z.lor EVP_PKEY_OP_SIGN EVP_PKEY_OP_SIGNMSG)
                    (Z.lor EVP_PKEY_OP_VERIFY EVP_PKEY_OP_VERIFYMSG))
  else if (pad_mode' =? RSA_PKCS1_PADDING) || (pad_mode' =? RSA_NO_PADDING)
          || (pad_mode' =? RSA_X931_PADDING) then
    RSA_type_flags k =? RSA_FLAG_TYPE_RSA
  else false.

(** The salt length a string requests (lines 1681-1690). *)
Definition saltlen_by_name (s : string) : Z :=
  if String.eqb s OSSL_PKEY_RSA_PSS_SALT_LEN_DIGEST then RSA_PSS_SALTLEN_DIGEST
  else if String.eqb s OSSL_PKEY_RSA_PSS_SALT_LEN_MAX then RSA_PSS_SALTLEN_MAX
  else if String.eqb s OSSL_PKEY_RSA_PSS_SALT_LEN_AUTO then RSA_PSS_SALTLEN_AUTO
  else if String.eqb s OSSL_PKEY_RSA_PSS_SALT_LEN_AUTO_DIGEST_MAX
       then RSA_PSS_SALTLEN_AUTO_DIGEST_MAX
  else atoi s.

(** A digest-name parameter with its optional properties parameter
    (lines 1567-1583 and 1741-1756): [None] when a getter failed,
    otherwise the name and the properties, each possibly absent. *)
Definition get_name_and_props (params : list OSSL_PARAM) (name_key props_key : string)
    : option (option string * option string) :=
  match OSSL_PARAM_locate_const params name_key with
  | None => Some (None, None)
  | Some p =>
      match OSSL_PARAM_get_utf8_string p OSSL_MAX_NAME_SIZE with
      | None => None
      | Some name =>
          match OSSL_PARAM_locate_const params props_key with
          | None => Some (Some name, None)
          | Some propsp =>
              match OSSL_PARAM_get_utf8_string propsp OSSL_MAX_PROPQUERY_SIZE with
              | None => None
              | Some props => Some (Some name, Some props)
              end
          end
      end
  end.

(** The restrictions a key with PSS parameters puts on a requested salt
    length (lines 1706-1738); [false] when it has raised. *)
Definition set_saltlen_restrictions_ok (saltlen' : Z) : M bool :=
  let* c := get_ctx in
  if rsa_pss_restricted c then
    if (saltlen' =? RSA_PSS_SALTLEN_AUTO) || (saltlen' =? RSA_PSS_SALTLEN_AUTO_DIGEST_MAX) then
      if negb (op_in (operation c) (Z.lor EVP_PKEY_OP_VERIFY EVP_PKEY_OP_VERIFYMSG)) then
        ERR_raise_data ERR_LIB_PROV PROV_R_INVALID_SALT_LENGTH [] >> ret false
      else ret true
    else if saltlen' =? RSA_PSS_SALTLEN_DIGEST then
      if EVP_MD_get_size (md c) <? min_saltlen c then
        ERR_raise_data ERR_LIB_PROV PROV_R_PSS_SALTLEN_TOO_SMALL
          [EInt (min_saltlen c); EInt (EVP_MD_get_size (md c))] >> ret false
      else ret true
    else
      if (0 <=? saltlen') && (saltlen' <? min_saltlen c) then
        ERR_raise_data ERR_LIB_PROV PROV_R_PSS_SALTLEN_TOO_SMALL
          [EInt (min_saltlen c); EInt saltlen'] >> ret false
      else ret true
  else ret true.

Definition rsa_set_ctx_params (params : list OSSL_PARAM) : M Z :=
  if ossl_param_is_empty params then ret 1 else
  let* c := get_ctx in
  let pad_mode0 := pad_mode c in
  let saltlen0 := saltlen c in
  match get_name_and_props params OSSL_SIGNATURE_PARAM_DIGEST OSSL_SIGNATURE_PARAM_PROPERTIES with
  | None => ret 0
  | Some (pmdname, pmdprops) =>
  (* pad mode *)
  let get_pad : M (option Z) :=
    match OSSL_PARAM_locate_const params OSSL_SIGNATURE_PARAM_PAD_MODE with
    | None => ret (Some pad_mode0)
    | Some p =>
        let requested : option Z :=
          match p_data p with
          | PARAM_INTEGER _ => OSSL_PARAM_get_int p   (* legacy pad mode number *)
          | PARAM_UTF8_STRING None => None
          | PARAM_UTF8_STRING (Some s) => Some (padding_by_name padding_item s pad_mode0)
          | _ => None
          end in
        match requested with
        | None => ret None
        | Some pm =>
            let* k := (if (pm =? RSA_PKCS1_PADDING) || (pm =? RSA_NO_PADDING)
                          || (pm =? RSA_X931_PADDING)
                       then ctx_key else ret null_RSA) in
            if pad_mode_allowed pm (operation c) k then ret (Some pm)
            else
              ERR_raise_data ERR_LIB_PROV PROV_R_ILLEGAL_OR_UNSUPPORTED_PADDING_MODE [] >>
              ret None
        end
    end in
  let* pad := get_pad in
  match pad with
  | None => ret 0
  | Some pad_mode1 =>
  (* salt length *)
  let get_saltlen : M (option Z) :=
    match OSSL_PARAM_locate_const params OSSL_SIGNATURE_PARAM_PSS_SALTLEN with
    | None => ret (Some saltlen0)
    | Some p =>
        if negb (pad_mode1 =? RSA_PKCS1_PSS_PADDING) then
          ERR_raise_data ERR_LIB_PROV PROV_R_NOT_SUPPORTED [] >> ret None
        else
          let* requested :=
            match p_data p with
            | PARAM_INTEGER _ => ret (OSSL_PARAM_get_int p)
            | PARAM_UTF8_STRING (Some s) => ret (Some (saltlen_by_name s))
            | PARAM_UTF8_STRING None => raise_fault NullDeref >> ret None
            | _ => ret None
            end in
          match requested with
          | None => ret None
          | Some sl =>
              (* RSA_PSS_SALTLEN_AUTO_DIGEST_MAX is the currently lowest
                 saltlen number possible *)
              if sl <? RSA_PSS_SALTLEN_AUTO_DIGEST_MAX then
                ERR_raise ERR_LIB_PROV PROV_R_INVALID_SALT_LENGTH >> ret None
              else
                let* ok := set_saltlen_restrictions_ok sl in
                if ok then ret (Some sl) else ret None
          end
    end in
  let* sl := get_saltlen in
  match sl with
  | None => ret 0
  | Some saltlen1 =>
  (* MGF1 digest *)
  match get_name_and_props params OSSL_SIGNATURE_PARAM_MGF1_DIGEST
                           OSSL_SIGNATURE_PARAM_MGF1_PROPERTIES with
  | None => ret 0
  | Some (pmgf1mdname, pmgf1mdprops) =>
  if bool_decide (pmgf1mdname <> None) && negb (pad_mode1 =? RSA_PKCS1_PSS_PADDING) then
    ERR_raise ERR_LIB_PROV PROV_R_INVALID_MGF1_MD >> ret 0
  else
  modify_ctx (set_saltlen saltlen1) >>
  modify_ctx (set_pad_mode pad_mode1) >>
  let pmdname1 :=
    if bool_decide (md c = None) && bool_decide (pmdname = None)
       && (pad_mode1 =? RSA_PKCS1_PSS_PADDING)
    then Some RSA_DEFAULT_DIGEST_NAME else pmdname in
  let* r :=
    match pmgf1mdname with
    | Some n => rsa_setup_mgf1_md n pmgf1mdprops
    | None => ret 1
    end in
  if r =? 0 then ret 0 else
  match pmdname1 with
  | Some _ =>
      let* r := rsa_setup_md pmdname1 pmdprops in
      if r =? 0 then ret 0 else ret 1
  | None =>
      let* c2 := get_ctx in
      let* r := rsa_check_padding None None (mdnid c2) in
      if r =? 0 then ret 0 else ret 1
  end
  end end end end.

(** ** The entry points: init *)

Definition rsa_sign_init (vrsa : option positive) (params : list OSSL_PARAM) : M Z :=
  rsa_signverify_init vrsa rsa_set_ctx_params params EVP_PKEY_OP_SIGN.

Definition rsa_verify_recover_init (vrsa : option positive) (params : list OSSL_PARAM) : M Z :=
  rsa_signverify_init vrsa rsa_set_ctx_params params EVP_PKEY_OP_VERIFYRECOVER.

Definition rsa_verify_init (vrsa : option positive) (params : list OSSL_PARAM) : M Z :=
  rsa_signverify_init vrsa rsa_set_ctx_params params EVP_PKEY_OP_VERIFY.

(** ** DigestSign / DigestVerify wrappers *)

Definition ascii_lower (a : Ascii.ascii) : Ascii.ascii :=
  let n := Ascii.nat_of_ascii a in
  if ((65 <=? n) && (n <=? 90))%nat then Ascii.ascii_of_nat (n + 32) else a.

Fixpoint string_lower (s : string) : string :=
  match s with
  | EmptyString => EmptyString
  | String a rest => String (ascii_lower a) (string_lower rest)
  end.

(** [OPENSSL_strcasecmp(a, b) != 0]. *)
Definition strcasecmp_differs (a b : string) : bool :=
  negb (String.eqb (string_lower a) (string_lower b)).

(** The digest-context part that ends both message inits: make sure a
    digest context exists and initialise it with the bound digest. *)
Definition start_digest (params : list OSSL_PARAM) : M Z :=
  let* c := get_ctx in
  let* have :=
    match mdctx c with
    | Some _ => ret true
    | None =>
        let* p := EVP_MD_CTX_new in
        modify_ctx (set_mdctx p) >>
        ret (bool_decide (p <> None))
    end in
  let* c1 := get_ctx in
  let* ok :=
    if have then
      let* r := on_mdctx (mdctx c1) 0 (fun o => EVP_DigestInit_ex2 o (md c1) params) in
      ret (negb (r =? 0))
    else ret false in
  if ok then ret 1
  else
    (* error: *)
    EVP_MD_CTX_free (mdctx c1) >>
    modify_ctx (set_mdctx None) >>
    ret 0.

Definition rsa_digest_signverify_init (mdname' : option string) (vrsa : option positive)
    (params : list OSSL_PARAM) (operation' : Z) : M Z :=
  let* r := rsa_signverify_init vrsa rsa_set_ctx_params params operation' in
  if r =? 0 then ret 0 else
  let* c := get_ctx in
  let need_setup :=
    match mdname' with
    | Some n =>
        (* was rsa_setup_md already called in rsa_signverify_init()? *)
        String.eqb n "" || strcasecmp_differs (mdname c) n
    | None => false
    end in
  let* r := (if need_setup then rsa_setup_md mdname' (propq c) else ret 1) in
  if r =? 0 then ret 0 else
  modify_ctx (set_flag_allow_md false) >>
  start_digest params.

Definition rsa_digest_sign_init (mdname' : option string) (vrsa : option positive)
    (params : list OSSL_PARAM) : M Z :=
  let* running := ossl_prov_is_running in
  if negb running then ret 0
  else rsa_digest_signverify_init mdname' vrsa params EVP_PKEY_OP_SIGNMSG.

Definition rsa_digest_sign_update (data : list Z) : M Z :=
  let* c := get_ctx in
  (* Sigalg implementations shouldn't do digest_sign *)
  if flag_sigalg c then ret 0
  else rsa_signverify_message_update data.

Definition rsa_digest_sign_final (sig' : out_buffer) (sigsize : Z) : M result :=
  let* c := get_ctx in
  (* Sigalg implementations shouldn't do digest_sign *)
  if flag_sigalg c then ret failed
  else
    let* res := rsa_sign_message_final sig' sigsize in
    modify_ctx (set_flag_allow_md true) >>
    ret (mk_result (if r_code res =? 0 then 0 else 1) (r_len res) (r_bytes res)).

Definition rsa_digest_verify_init (mdname' : option string) (vrsa : option positive)
    (params : list OSSL_PARAM) : M Z :=
  let* running := ossl_prov_is_running in
  if negb running then ret 0
  else rsa_digest_signverify_init mdname' vrsa params EVP_PKEY_OP_VERIFYMSG.

Definition rsa_digest_verify_update (data : list Z) : M Z :=
  let* c := get_ctx in
  (* Sigalg implementations shouldn't do digest_sign *)
  if flag_sigalg c then ret 0
  else rsa_signverify_message_update data.

Definition rsa_digest_verify_final (sig' : option (list Z)) (siglen' : Z) : M Z :=
  let* c := get_ctx in
  (* Sigalg implementations shouldn't do digest_verify *)
  if flag_sigalg c then ret 0
  else
    let* ok := and_then (rsa_verify_set_sig sig' siglen') rsa_verify_message_final in
    modify_ctx (set_flag_allow_md true) >>
    ret ok.

(** ** Teardown and duplication *)

(** [rsa_freectx]: what it does to the world; the structure itself is
    cleared and released at the end. Digest handles are shared immutable
    objects whose reference counts are not modelled, so [EVP_MD_free] and
    the release of [propq] leave no trace here. *)
Definition rsa_freectx : M unit :=
  let* c := get_ctx in
  EVP_MD_CTX_free (mdctx c) >>
  OPENSSL_free (sig c) >>
  free_tbuf >>
  RSA_free (rsa c).

(** The body of [rsa_dupctx] after the copy [*dstctx = *srcctx], run on
    the destination structure; [false] is the jump to [err]. *)
Definition dup_fields (srcctx : PROV_RSA_CTX) : M bool :=
  modify_ctx (set_rsa None) >>
  modify_ctx (set_md None) >>
  modify_ctx (set_mgf1_md None) >>
  modify_ctx (set_mdctx None) >>
  modify_ctx (set_tbuf None) >>
  modify_ctx (set_propq None) >>
  let* r := (match rsa srcctx with Some _ => RSA_up_ref (rsa srcctx) | None => ret 1 end) in
  if r =? 0 then ret false else
  modify_ctx (set_rsa (rsa srcctx)) >>
  if (match md srcctx with Some m => EVP_MD_up_ref m =? 0 | None => false end)
  then ret false else
  modify_ctx (set_md (md srcctx)) >>
  if (match mgf1_md srcctx with Some m => EVP_MD_up_ref m =? 0 | None => false end)
  then ret false else
  modify_ctx (set_mgf1_md (mgf1_md srcctx)) >>
  let* ok :=
    match mdctx srcctx with
    | Some _ =>
        let* p := EVP_MD_CTX_new in
        modify_ctx (set_mdctx p) >>
        match p with
        | None => ret false
        | Some _ =>
            let* w := get_world in
            match mdctx srcctx ≫= (w_mdctxs w !!.) with
            | Some src_obj =>
                let* r := on_mdctx p 0 (fun o => EVP_MD_CTX_copy_ex o src_obj) in
                ret (negb (r =? 0))
            | None =>
                raise_fault (match mdctx srcctx with
                             | Some q => UseAfterFree q | None => NullDeref end) >>
                ret false
            end
        end
    | None => ret true
    end in
  if negb ok then ret false else
  match propq srcctx with
  | Some _ =>
      let* ok := alloc_succeeds in
      if ok then modify_ctx (set_propq (propq srcctx)) >> ret true else ret false
  | None => ret true
  end.

(** [rsa_dupctx]: the duplicate, or [None] for NULL. *)
Definition rsa_dupctx (srcctx : PROV_RSA_CTX) (w : world) : option PROV_RSA_CTX * world :=
  if negb (w_running w) then (None, w)
  else
    let '(ok, _, w1) := alloc_succeeds srcctx w in
    if negb ok then (None, w1)
    else
      (* *dstctx = *srcctx; *)
      let '(ok, dstctx, w2) := dup_fields srcctx srcctx w1 in
      if ok then (Some dstctx, w2)
      else
        let '(_, _, w3) := rsa_freectx dstctx w2 in (None, w3).

(** ** The fixed signature algorithms *)

(** [rsa_sigalg_signverify_init] is almost like
    [rsa_digest_signverify_init], just doesn't allow fetching an MD from
    whatever the user chooses. *)
Definition rsa_sigalg_signverify_init (vrsa : option positive)
    (set_ctx_params : list OSSL_PARAM -> M Z) (params : list OSSL_PARAM)
    (mdname' : string) (operation' pad_mode' : Z) : M Z :=
  let* running := ossl_prov_is_running in
  if negb running then ret 0 else
  let* r := rsa_signverify_init vrsa set_ctx_params params operation' in
  if r =? 0 then ret 0 else
  let* c := get_ctx in
  (* PSS is currently not supported as a sigalg *)
  if pad_mode c =? RSA_PKCS1_PSS_PADDING then
    ERR_raise ERR_LIB_RSA PROV_R_OPERATION_NOT_SUPPORTED_FOR_THIS_KEYTYPE >> ret 0
  else
  let* r := rsa_setup_md (Some mdname') None in
  if r =? 0 then ret 0 else
  modify_ctx (set_pad_mode pad_mode') >>
  modify_ctx (set_flag_sigalg true) >>
  modify_ctx (set_flag_allow_md false) >>
  start_digest params.

(** The hashes [IMPL_RSA_SIGALG] is instantiated with, and the name each
    instance bakes in. *)
Inductive sigalg_md :=
  | ripemd160 | sha1 | sha224 | sha256 | sha384 | sha512 | sha512_224 | sha512_256
  | sha3_224 | sha3_256 | sha3_384 | sha3_512 | sm3.

Definition sigalg_MD (h : sigalg_md) : string :=
  match h with
  | ripemd160 => "RIPEMD160"
  | sha1 => "SHA1"
  | sha224 => "SHA2-224"
  | sha256 => "SHA2-256"
  | sha384 => "SHA2-384"
  | sha512 => "SHA2-512"
  | sha512_224 => "SHA2-512/224"
  | sha512_256 => "SHA2-512/256"
  | sha3_224 => "SHA3-224"
  | sha3_256 => "SHA3-256"
  | sha3_384 => "SHA3-384"
  | sha3_512 => "SHA3-512"
  | sm3 => "SM3"
  end.

(** The five init functions of one instance differ in the operation only. *)
Definition sigalg_operations : list Z :=
  [ EVP_PKEY_OP_SIGN; EVP_PKEY_OP_SIGNMSG; EVP_PKEY_OP_VERIFY;
    EVP_PKEY_OP_VERIFYRECOVER; EVP_PKEY_OP_VERIFYMSG ].

Definition rsa_md_sigalg_init (h : sigalg_md) (operation' : Z)
    (vrsa : option positive) (params : list OSSL_PARAM) : M Z :=
  rsa_sigalg_signverify_init vrsa rsa_sigalg_set_ctx_params params
                             (sigalg_MD h) operation' RSA_PKCS1_PADDING.

Definition rsa_md_sign_init h := rsa_md_sigalg_init h EVP_PKEY_OP_SIGN.
Definition rsa_md_sign_message_init h := rsa_md_sigalg_init h EVP_PKEY_OP_SIGNMSG.
Definition rsa_md_verify_init h := rsa_md_sigalg_init h EVP_PKEY_OP_VERIFY.
Definition rsa_md_verify_recover_init h := rsa_md_sigalg_init h EVP_PKEY_OP_VERIFYRECOVER.
Definition rsa_md_verify_message_init h := rsa_md_sigalg_init h EVP_PKEY_OP_VERIFYMSG.

(** ** Reading a call as the specification does *)

(** The errors a call raised: what the queue gained, newest first. *)
Definition raised (w w' : world) : list err :=
  take (length (w_errs w') - length (w_errs w)) (w_errs w').

(** A value, or a failure with the errors raised. *)
Inductive outcome (A : Type) :=
  | OK (a : A)
  | Failed (errs : list err).
#[global] Arguments OK {A} a.
#[global] Arguments Failed {A} errs.

(** [resolveSaltLength(context) -> int | Error]: [rsa_pss_compute_saltlen]
    reports failure as a negative return value. *)
Definition resolveSaltLength (c : PROV_RSA_CTX) (w : world) : outcome Z :=
  let '(r, _, w') := rsa_pss_compute_saltlen c w in
  if r <? 0 then Failed (raised w w') else OK r.

(** The salt length spec 4.3 step 3 describes, with the cap of step 2. *)
Definition max_salt_length (modulusBytes digestSize modulusBits : Z) (cap : option Z) : Z :=
  let s := modulusBytes - digestSize - 2 in
  let s := if modulusBits mod 8 =? 1 then s - 1 else s in
  match cap with
  | Some m => if m <? s then m else s
  | None => s
  end.

(** The key [prsactx->rsa] points to is live. *)
Definition key_is (c : PROV_RSA_CTX) (w : world) (k : RSA) : Prop :=
  exists p o, rsa c = Some p /\ w_keys w !! p = Some o /\ obj_key o = k.

(** ** Reasoning about calls *)

(** [wp m Q c w]: the call [m], started on context [c] in world [w],
    ends with a value, context and world that satisfy [Q]. *)
Definition wp {A} (m : M A) (Q : A -> PROV_RSA_CTX -> world -> Prop)
    (c : PROV_RSA_CTX) (w : world) : Prop :=
  Q (m c w).1.1 (m c w).1.2 (m c w).2.

(** A property of context and world that the call [m] never breaks. *)
Definition preserves {A} (I : PROV_RSA_CTX -> world -> Prop) (m : M A) : Prop :=
  forall c w, I c w -> wp m (fun _ c' w' => I c' w') c w.

(** The part of the context that only the inits and the life-cycle calls
    write: the three life-cycle flags, the operation, the key pointer and
    the two flags of the fixed signature algorithms. *)
Definition cycle_of (c : PROV_RSA_CTX) :=
  (flag_allow_update c, flag_allow_final c, flag_allow_oneshot c,
   operation c, rsa c, flag_sigalg c, flag_allow_md c).

Definition cycle_is x (c : PROV_RSA_CTX) (w : world) : Prop := cycle_of c = x.

(** The pad mode is written by the inits and by [rsa_set_ctx_params] only. *)
Definition pad_is (v : Z) (c : PROV_RSA_CTX) (w : world) : Prop := pad_mode c = v.

(** Once cleared, the one-shot permission is only restored by an init. *)
Definition no_oneshot (c : PROV_RSA_CTX) (w : world) : Prop := flag_allow_oneshot c = false.

(** The shape the three life-cycle flags have from creation on: update
    and final are allowed together, and one-shot only with them. *)
Definition flags_ok (c : PROV_RSA_CTX) (w : world) : Prop :=
  flag_allow_update c = flag_allow_final c
  /\ (flag_allow_oneshot c = true -> flag_allow_update c = true).

(** The three out-of-order reasons. *)
Definition lifecycle_reason (r : err_reason) : bool :=
  match r with
  | PROV_R_UPDATE_CALL_OUT_OF_ORDER
  | PROV_R_FINAL_CALL_OUT_OF_ORDER
  | PROV_R_ONESHOT_CALL_OUT_OF_ORDER => true
  | _ => false
  end.

(** Since the world [w0], no out-of-order error has been raised. *)
Definition quiet (w0 : world) (c : PROV_RSA_CTX) (w : world) : Prop :=
  exists l, w_errs w = l ++ w_errs w0
            /\ Forall (fun e => lifecycle_reason (e_reason e) = false) l.

(** The context allows update and final, and no out-of-order error has
    been raised since [w0]. *)
Definition armed (w0 : world) (c : PROV_RSA_CTX) (w : world) : Prop :=
  quiet w0 c w /\ flag_allow_update c = true /\ flag_allow_final c = true.

(** The invariants the calls that never touch the life cycle keep, and
    those the calls that never touch life cycle or pad mode keep. *)
Inductive cycle_inv : (PROV_RSA_CTX -> world -> Prop) -> Prop :=
  | ci_cycle x : cycle_inv (cycle_is x)
  | ci_no_oneshot : cycle_inv no_oneshot
  | ci_flags_ok : cycle_inv flags_ok
  | ci_quiet w0 : cycle_inv (quiet w0)
  | ci_armed w0 : cycle_inv (armed w0).

Inductive utility_inv : (PROV_RSA_CTX -> world -> Prop) -> Prop :=
  | ui_cycle I : cycle_inv I -> utility_inv I
  | ui_pad v : utility_inv (pad_is v).

(** The two invariants on the flags that every call but an init keeps. *)
Inductive flags_inv : (PROV_RSA_CTX -> world -> Prop) -> Prop :=
  | fi_no_oneshot : flags_inv no_oneshot
  | fi_flags_ok : flags_inv flags_ok.

(** ** Sequences of calls *)

(** The calls a caller may make on an initialised context, the inits,
    duplication and teardown apart. *)
Inductive call :=
  | SetCtxParams (params : list OSSL_PARAM)
  | SigalgSetCtxParams (params : list OSSL_PARAM)
  | MessageUpdate (data : list Z)
  | SignMessageFinal (sig' : out_buffer) (sigsize : Z)
  | VerifyMessageFinal
  | Sign (sig' : out_buffer) (sigsize : Z) (tbs : list Z)
  | Verify (sig' : option (list Z)) (siglen' : Z) (tbs : list Z)
  | VerifyRecover (rout : out_buffer) (routsize : Z) (sig' : list Z) (siglen' : Z)
  | DigestSignUpdate (data : list Z)
  | DigestSignFinal (sig' : out_buffer) (sigsize : Z)
  | DigestVerifyUpdate (data : list Z)
  | DigestVerifyFinal (sig' : option (list Z)) (siglen' : Z).

Definition forget {A} (m : M A) : M unit := let* _ := m in ret tt.

Definition exec (k : call) : M unit :=
  match k with
  | SetCtxParams params => forget (rsa_set_ctx_params params)
  | SigalgSetCtxParams params => forget (rsa_sigalg_set_ctx_params params)
  | MessageUpdate data => forget (rsa_signverify_message_update data)
  | SignMessageFinal s n => forget (rsa_sign_message_final s n)
  | VerifyMessageFinal => forget rsa_verify_message_final
  | Sign s n tbs => forget (rsa_sign s n tbs)
  | Verify s n tbs => forget (rsa_verify s n tbs)
  | VerifyRecover o n s l => forget (rsa_verify_recover o n s l)
  | DigestSignUpdate data => forget (rsa_digest_sign_update data)
  | DigestSignFinal s n => forget (rsa_digest_sign_final s n)
  | DigestVerifyUpdate data => forget (rsa_digest_verify_update data)
  | DigestVerifyFinal s n => forget (rsa_digest_verify_final s n)
  end.

Fixpoint exec_all (ks : list call) : M unit :=
  match ks with
  | [] => ret tt
  | k :: rest => exec k >> exec_all rest
  end.

(** The world with one more error on the queue. *)
Definition pushed (l : err_lib) (r : err_reason) (w : world) : world :=
  set_w_errs (mk_err l r [] :: w_errs w) w.

(** The call raised one of the three out-of-order errors. *)
Definition rejected_out_of_order (w w' : world) : Prop :=
  exists e, In e (raised w w') /\ lifecycle_reason (e_reason e) = true.

(** Nothing of the world changed but, possibly, the error queue. *)
Definition same_but_errs (w w' : world) : Prop :=
  set_w_errs (w_errs w) w' = w.

(** A call rejected at its own life-cycle gate: it wrote nothing and
    raised one out-of-order error. *)
Definition gate_rejected (c : PROV_RSA_CTX) (w : world) (c' : PROV_RSA_CTX) (w' : world)
    : Prop :=
  c' = c /\ exists r, lifecycle_reason r = true /\ w' = pushed ERR_LIB_PROV r w.

(** What a call leaves is either the state it found, with one
    out-of-order error raised at its gate, or a state reached without
    any out-of-order error. *)
Definition gate_or_quiet (c : PROV_RSA_CTX) (w : world) (code : Z)
    (c' : PROV_RSA_CTX) (w' : world) : Prop :=
  (code = 0 /\ gate_rejected c w c' w') \/ quiet w c' w'.


(** The errors a salt length that cannot be resolved is reported with. *)
Definition err_invalid_key := mk_err ERR_LIB_PROV PROV_R_INVALID_KEY [].
Definition err_invalid_digest := mk_err ERR_LIB_PROV PROV_R_INVALID_DIGEST [].

(** The key an init works on: the live key object the caller supplies
    or, when none is supplied, the key the context already holds. *)
Definition init_key (vrsa : option positive) (c : PROV_RSA_CTX) (w : world) (k : RSA)
    : Prop :=
  match vrsa with
  | Some p =>
      exists o, w_keys w !! p = Some o /\ obj_key o = k /\ (0 < obj_references o)%nat
  | None => key_is c w k
  end.

(** ** The temporary buffer, as the transforms find and leave it *)

(** The size [setup_tbuf] allocates the temporary buffer with. *)
Definition tbuf_len (k : RSA) : nat := Z.to_nat (RSA_size k).

(** The block the temporary buffer points to, where the pointer is set
    and the block live. *)
Definition tbuf_block (c : PROV_RSA_CTX) (w : world) : option (list Z) :=
  tbuf c ≫= (w_bufs w !!.).

(** If present, the temporary buffer is a live block of the modulus size. *)
Definition tbuf_sized (c : PROV_RSA_CTX) (w : world) (k : RSA) : Prop :=
  forall p, tbuf c = Some p -> exists b, w_bufs w !! p = Some b /\ length b = tbuf_len k.

(** If present, the temporary buffer is a live block of at least [n]
    bytes.  [setup_tbuf] takes a buffer that is present as it is, and no
    init resizes it, so this is what keeps a transform that writes [n]
    bytes through the pointer within the block. *)
Definition tbuf_holds (c : PROV_RSA_CTX) (w : world) (n : nat) : Prop :=
  forall p, tbuf c = Some p -> exists b, w_bufs w !! p = Some b /\ (n <= length b)%nat.

(** [setup_tbuf] will leave a block that takes [n] bytes: the buffer is
    present and holds them, or it is absent and will be allocated (the
    key has a size, the next allocation succeeds) with room for them. *)
Definition tbuf_takes (c : PROV_RSA_CTX) (w : world) (k : RSA) (n : nat) : Prop :=
  tbuf_holds c w n /\
  (tbuf c = None ->
     0 < RSA_size k /\ hd true (w_alloc w) = true /\ (n <= tbuf_len k)%nat).

(** The block [setup_tbuf] leaves under the pointer when it returns 1:
    the one the context holds already, else a fresh one of the modulus
    size. *)
Definition working_block (c : PROV_RSA_CTX) (w : world) (k : RSA) : list Z :=
  match tbuf c with
  | Some p => default [] (w_bufs w !! p)
  | None => resize (tbuf_len k) 0 (w_junk w)
  end.

(** The temporary buffer is present and holds zeros only. *)
Definition tbuf_zeroed (c : PROV_RSA_CTX) (w : world) (k : RSA) : Prop :=
  exists p, tbuf c = Some p /\ w_bufs w !! p = Some (replicate (tbuf_len k) 0).

(** The temporary buffer is present and zero over the modulus size,
    which is what [clean_tbuf] cleanses; [extra] bytes follow. *)
Definition tbuf_cleansed (c : PROV_RSA_CTX) (w : world) (k : RSA) (extra : nat) : Prop :=
  exists p tail,
    tbuf c = Some p /\ w_bufs w !! p = Some (replicate (tbuf_len k) 0 ++ tail) /\
    length tail = extra.

(** The fault recorded last is a write past the end of the temporary
    buffer. *)
Definition tbuf_overrun (c : PROV_RSA_CTX) (w : world) : Prop :=
  exists p rest, tbuf c = Some p /\ w_faults w = BufferOverflow p :: rest.

(** A call left the temporary buffer, and every other block, as found. *)
Definition tbuf_untouched (c : PROV_RSA_CTX) (w : world)
    (c' : PROV_RSA_CTX) (w' : world) : Prop :=
  tbuf c' = tbuf c /\ w_bufs w' = w_bufs w.

(** The PSS encoding step of [rsa_sign_directly], run on [tbs] from the
    state [c], [w]: the encoder is given the block [setup_tbuf] leaves,
    the context's digests and salt request, and the entropy of [w];
    this says that it returns 0. *)
Definition pss_encode_failed (c : PROV_RSA_CTX) (w : world) (k : RSA) (tbs : list Z) : Prop :=
  pad_mode c = RSA_PKCS1_PSS_PADDING /\
  (ossl_rsa_padding_add_PKCS1_PSS_mgf1 k (working_block c w k) tbs (md c) (mgf1_md c)
                                       (saltlen c) (w_entropy w)).1.1 = 0.

(** [verifyRecover(context, sig) -> bytes | Error]: [rsa_verify_recover]
    into a caller's buffer of [routsize] bytes. *)
Definition verifyRecover (routsize : Z) (sig' : list Z) (siglen' : Z)
    (c : PROV_RSA_CTX) (w : world) : outcome (list Z) :=
  let '(r, _, w') := rsa_verify_recover OUT_CALLER routsize sig' siglen' c w in
  if r_code r =? 0 then Failed (raised w w') else OK (r_bytes r).

(** ** The init entry points, taken together *)

(** The init functions of the dispatch tables: the three plain ones, the
    two of DigestSign / DigestVerify with the digest name they are given,
    and those of a fixed signature algorithm. *)
Inductive init_entry :=
  | SignInit
  | VerifyInit
  | VerifyRecoverInit
  | DigestSignInit (mdname' : option string)
  | DigestVerifyInit (mdname' : option string)
  | SigalgInit (h : sigalg_md) (operation' : Z).

Definition init (i : init_entry) (vrsa : option positive) (params : list OSSL_PARAM)
    : M Z :=
  match i with
  | SignInit => rsa_sign_init vrsa params
  | VerifyInit => rsa_verify_init vrsa params
  | VerifyRecoverInit => rsa_verify_recover_init vrsa params
  | DigestSignInit mdname' => rsa_digest_sign_init mdname' vrsa params
  | DigestVerifyInit mdname' => rsa_digest_verify_init mdname' vrsa params
  | SigalgInit h operation' => rsa_md_sigalg_init h operation' vrsa params
  end.

(** ** What an init settles *)

(** The key, the operation, whether the context belongs to a fixed
    signature algorithm, the property query and the salt length floor of
    a restricted key. *)
Definition session_of (c : PROV_RSA_CTX) :=
  (rsa c, operation c, flag_sigalg c, propq c, min_saltlen c).

Definition session_is x (c : PROV_RSA_CTX) (w : world) : Prop := session_of c = x.

(** ** The life of a context *)

(** What a caller does with a context between creation and teardown: an
    init, or one of the calls that follow an init. *)
Inductive step :=
  | Init (i : init_entry) (vrsa : option positive) (params : list OSSL_PARAM)
  | Call (k : call).

Definition run_step (s : step) : M unit :=
  match s with
  | Init i vrsa params => forget (init i vrsa params)
  | Call k => exec k
  end.

Fixpoint run_steps (ss : list step) : M unit :=
  match ss with
  | [] => ret tt
  | s :: rest => run_step s >> run_steps rest
  end.

(** ** Reading context parameters *)

(** The array a caller hands to [rsa_get_ctx_params] is written in
    place. One entry: its key, its [data_type], the size of the buffer
    behind [data], what has been written there, and [return_size]. *)
Inductive param_content :=
  | CONTENT_INT (z : Z)
  | CONTENT_TEXT (s : string)
  | CONTENT_BYTES (b : list Z).

Record OSSL_PARAM_out := mk_out {
  o_key : string;
  o_data_type : Z;
  o_data_size : Z;
  o_data : option param_content;
  o_return_size : Z
}.

Definition OSSL_PARAM_INTEGER : Z := 1.
Definition OSSL_PARAM_UTF8_STRING : Z := 4.
Definition OSSL_SIGNATURE_PARAM_ALGORITHM_ID : string := "algorithm-id".

(** The writers of crypto/params.c and the formatter of crypto/bio. *)
Class ParamWriters := {
  (* each: [None] when it returns 0, otherwise what the buffer of the
     entry holds afterwards and the [return_size] it has stored *)
  OSSL_PARAM_set_int : OSSL_PARAM_out -> Z -> option (option param_content * Z);
  OSSL_PARAM_set_utf8_string :
    OSSL_PARAM_out -> string -> option (option param_content * Z);
  OSSL_PARAM_set_octet_string :
    OSSL_PARAM_out -> list Z -> option (option param_content * Z);
  (* BIO_snprintf(buf, size, "%d", v): its result and the text in the buffer *)
  BIO_snprintf_d : Z -> Z -> Z * string
}.

Context `{Wr : ParamWriters}.

(** [OSSL_PARAM_locate]: the first entry with the key, and where it is. *)
Fixpoint OSSL_PARAM_locate (params : list OSSL_PARAM_out) (k : string)
    : option (nat * OSSL_PARAM_out) :=
  match params with
  | [] => None
  | p :: rest =>
      if String.eqb (o_key p) k then Some (0%nat, p)
      else prod_map S id <$> OSSL_PARAM_locate rest k
  end.

(** The word [padding_item] has for a pad mode (lines 1418-1423). *)
Fixpoint padding_by_id (items : list (Z * string)) (id' : Z) : option string :=
  match items with
  | [] => None
  | (i, word) :: rest => if id' =? i then Some word else padding_by_id rest id'
  end.

(** The word for a symbolic salt length (lines 1454-1467). *)
Definition saltlen_word (saltlen' : Z) : option string :=
  if saltlen' =? RSA_PSS_SALTLEN_DIGEST then Some OSSL_PKEY_RSA_PSS_SALT_LEN_DIGEST
  else if saltlen' =? RSA_PSS_SALTLEN_MAX then Some OSSL_PKEY_RSA_PSS_SALT_LEN_MAX
  else if saltlen' =? RSA_PSS_SALTLEN_AUTO then Some OSSL_PKEY_RSA_PSS_SALT_LEN_AUTO
  else if saltlen' =? RSA_PSS_SALTLEN_AUTO_DIGEST_MAX
       then Some OSSL_PKEY_RSA_PSS_SALT_LEN_AUTO_DIGEST_MAX
  else None.

(** An entry after a write to its buffer and to its [return_size]. *)
Definition written (p : OSSL_PARAM_out) (r : option param_content * Z) : OSSL_PARAM_out :=
  mk_out (o_key p) (o_data_type p) (o_data_size p) r.1 r.2.

(** The entry with key [k], if the array has one, handed to [write]: the
    array afterwards, or [None] when [write] makes the getter return 0. *)
Definition at_param (params : list OSSL_PARAM_out) (k : string)
    (write : OSSL_PARAM_out -> M (option (option param_content * Z)))
    : M (option (list OSSL_PARAM_out)) :=
  match OSSL_PARAM_locate params k with
  | None => ret (Some params)
  | Some (i, p) =>
      let* r := write p in
      ret ((fun r' => <[i := written p r']> params) <$> r)
  end.

(** [rsa_get_ctx_params]: the return value and the array as written.
    When it returns 0 the array is given as it was before the write that
    failed. The algorithm identifier comes from
    [rsa_generate_signature_aid], which is a parameter here: [None] is
    its NULL, otherwise the DER bytes. *)
Definition rsa_get_ctx_params (generate_signature_aid : M (option (list Z)))
    (params : list OSSL_PARAM_out) : M (Z * list OSSL_PARAM_out) :=
  let* r := at_param params OSSL_SIGNATURE_PARAM_ALGORITHM_ID (fun p =>
    (* The Algorithm Identifier of the combined signature algorithm *)
    let* aid := generate_signature_aid in
    match aid with
    | None => ret None
    | Some bytes => ret (OSSL_PARAM_set_octet_string p bytes)
    end) in
  match r with None => ret (0, params) | Some params1 =>
  let* r := at_param params1 OSSL_SIGNATURE_PARAM_PAD_MODE (fun p =>
    let* c := get_ctx in
    if o_data_type p =? OSSL_PARAM_INTEGER then
      ret (OSSL_PARAM_set_int p (pad_mode c))
    else if o_data_type p =? OSSL_PARAM_UTF8_STRING then
      match padding_by_id padding_item (pad_mode c) with
      | Some word => ret (OSSL_PARAM_set_utf8_string p word)
      | None =>
          ERR_raise ERR_LIB_PROV ERR_R_INTERNAL_ERROR >>
          ret (Some (o_data p, o_return_size p))
      end
    else ret None) in
  match r with None => ret (0, params1) | Some params2 =>
  let* r := at_param params2 OSSL_SIGNATURE_PARAM_DIGEST (fun p =>
    let* c := get_ctx in ret (OSSL_PARAM_set_utf8_string p (mdname c))) in
  match r with None => ret (0, params2) | Some params3 =>
  let* r := at_param params3 OSSL_SIGNATURE_PARAM_MGF1_DIGEST (fun p =>
    let* c := get_ctx in ret (OSSL_PARAM_set_utf8_string p (mgf1_mdname c))) in
  match r with None => ret (0, params3) | Some params4 =>
  let* r := at_param params4 OSSL_SIGNATURE_PARAM_PSS_SALTLEN (fun p =>
    let* c := get_ctx in
    if o_data_type p =? OSSL_PARAM_INTEGER then
      ret (OSSL_PARAM_set_int p (saltlen c))
    else if o_data_type p =? OSSL_PARAM_UTF8_STRING then
      match saltlen_word (saltlen c) with
      | Some value => ret (OSSL_PARAM_set_utf8_string p value)
      | None =>
          let '(len, text) := BIO_snprintf_d (o_data_size p) (saltlen c) in
          if len <=? 0 then ret None
          else ret (Some (Some (CONTENT_TEXT text), len))
      end
    else ret (Some (o_data p, o_return_size p))) in
  match r with None => ret (0, params4) | Some params5 =>
  ret (1, params5)
  end end end end end.

(** What [rsa_set_ctx_params] is asked for: the pad mode and the salt
    length its parameters name, the ones the context has where they name
    none; [None] where the request cannot be read. *)
Definition requested_pad_mode (params : list OSSL_PARAM) (c : PROV_RSA_CTX) : option Z :=
  match OSSL_PARAM_locate_const params OSSL_SIGNATURE_PARAM_PAD_MODE with
  | None => Some (pad_mode c)
  | Some p =>
      match p_data p with
      | PARAM_INTEGER _ => OSSL_PARAM_get_int p
      | PARAM_UTF8_STRING (Some s) => Some (padding_by_name padding_item s (pad_mode c))
      | _ => None
      end
  end.

Definition requested_saltlen (params : list OSSL_PARAM) (c : PROV_RSA_CTX) : option Z :=
  match OSSL_PARAM_locate_const params OSSL_SIGNATURE_PARAM_PSS_SALTLEN with
  | None => Some (saltlen c)
  | Some p =>
      match p_data p with
      | PARAM_INTEGER _ => OSSL_PARAM_get_int p
      | PARAM_UTF8_STRING (Some s) => Some (saltlen_by_name s)
      | _ => None
      end
  end.

(** ** A context ready for a message *)

(** The state a message init leaves when it succeeds on a key [k] with
    the digest [m] under PKCS#1 v1.5 padding: the operation recorded,
    update, final and one-shot allowed, and a digest context in place
    whose object is [o]. *)
Definition message_ready (op : Z) (c : PROV_RSA_CTX) (w : world)
    (k : RSA) (m : EVP_MD) (nid : Z) (o : EVP_MD_CTX) : Prop :=
  w_running w = true /\ key_is c w k /\ operation c = op /\
  md c = Some m /\ mdnid c = nid /\ pad_mode c = RSA_PKCS1_PADDING /\
  flag_allow_oneshot c = true /\ flag_allow_update c = true /\
  flag_allow_final c = true /\
  exists p, mdctx c = Some p /\ w_mdctxs w !! p = Some o.
End Provider.

(** ** A concrete set of collaborators, for the examples

    Small stand-ins that compute: three digests (two fixed-size, one
    extendable-output), a byte-wise checksum as hash, and RSA primitives
    that frame the input with its length instead of exponentiating. They
    serve to run the embedding on concrete inputs; no theorem depends on
    them. *)

Module Toy.

Inductive md_t := SHA1_md | SHA256_md | SHAKE128_md.

Definition md_by_name (name : string) : option md_t :=
  if String.eqb name "SHA1" then Some SHA1_md
  else if String.eqb name "SHA2-256" || String.eqb name "SHA256" then Some SHA256_md
  else if String.eqb name "SHAKE-128" then Some SHAKE128_md
  else None.

Definition md_size (m : option md_t) : Z :=
  match m with
  | Some SHA1_md => 20
  | Some SHA256_md => 32
  | Some SHAKE128_md => 0
  | None => -1
  end.

Definition md_nid (m : md_t) : Z :=
  match m with SHA1_md => 64 | SHA256_md => 672 | SHAKE128_md => 1100 end.

Definition md_is_a (m : option md_t) (name : string) : bool :=
  match m, md_by_name name with
  | Some a, Some b => bool_decide (md_nid a = md_nid b)
  | _, _ => false
  end.

Definition x931_hash_id (nid : Z) : Z :=
  if nid =? 64 then 0x33 else if nid =? 672 then 0x34 else -1.

Definition nid2name (nid : Z) : option string :=
  if nid =? 64 then Some "SHA1" else if nid =? 672 then Some "SHA2-256" else None.

(** A running digest: the digest it was initialised with and the bytes
    fed so far. *)
Definition md_ctx : Type := option md_t * list Z.

Definition checksum (msg : list Z) : Z := fold_right Z.add 0 msg mod 256.

Definition digest_of (m : option md_t) (msg : list Z) : list Z :=
  replicate (Z.to_nat (md_size m)) (checksum msg).

(** "Private encryption": the length of the input, the input, filler up
    to the modulus size. It fails when the input does not fit. *)
Definition private_encrypt (flen : Z) (from : list Z) (k : RSA) (padding : Z) : Z * list Z :=
  if (flen <? 0) || (RSA_size k <=? flen) then (-1, [])
  else (RSA_size k, resize (Z.to_nat (RSA_size k)) 0xBB (flen :: take (Z.to_nat flen) from)).

(** Its inverse. *)
Definition public_decrypt (flen : Z) (from : list Z) (k : RSA) (padding : Z) : Z * list Z :=
  match from with
  | n :: rest =>
      if (flen =? RSA_size k) && (0 <=? n) && (n <? flen)
      then (n, take (Z.to_nat n) rest) else (-1, [])
  | [] => (-1, [])
  end.

Definition sign (type : Z) (m : list Z) (m_len : Z) (k : RSA) : Z * list Z * Z :=
  let '(r, s) := private_encrypt (m_len + 1) (type mod 256 :: m) k RSA_PKCS1_PADDING in
  if r <=? 0 then (0, [], 0) else (1, s, r).

Definition recover (type : Z) (sigbuf : list Z) (siglen : Z) (k : RSA) : Z * list Z * Z :=
  let '(r, m) := public_decrypt siglen sigbuf k RSA_PKCS1_PADDING in
  match m with
  | t :: digest => if (0 <? r) && (t =? type mod 256) then (1, digest, r - 1) else (0, [], 0)
  | [] => (0, [], 0)
  end.

Definition verify (type : Z) (m : list Z) (m_len : Z) (sigbuf : list Z) (siglen : Z)
    (k : RSA) : Z :=
  let '(r, digest, _) := recover type sigbuf siglen k in
  if (0 <? r) && bool_decide (digest = m) then 1 else 0.

(** "PSS encoding": the digest followed by one byte of salt taken from
    the entropy, filled up to the modulus size. It fails, leaving what it
    has written so far, when the block cannot hold digest and salt. *)
Definition pss_encode (k : RSA) (em mhash : list Z) (h mgf1 : option md_t)
    (slen entropy : Z) : Z * list Z * Z :=
  if RSA_size k <? Z.of_nat (length mhash) + 2 then (0, mhash, slen)
  else (1, resize (Z.to_nat (RSA_size k)) 0xBC (mhash ++ [entropy mod 256]), 1).

Definition pss_verify (k : RSA) (mhash : list Z) (h mgf1 : option md_t) (em : list Z)
    (slen : Z) : Z * Z :=
  if bool_decide (take (length mhash) em = mhash) then (1, 1) else (0, slen).

Definition get_int (p : OSSL_PARAM) : option Z :=
  match p_data p with PARAM_INTEGER z => Some z | _ => None end.

Definition get_utf8_string (p : OSSL_PARAM) (max_len : Z) : option string :=
  match p_data p with
  | PARAM_UTF8_STRING (Some s) =>
      if Z.of_nat (String.length s) <? max_len then Some s else None
  | _ => None
  end.

Definition get_octet_string (p : OSSL_PARAM) : option Z * option (list Z) :=
  match p_data p with
  | PARAM_OCTET_STRING (Some b) n => (Some n, Some (take (Z.to_nat n) b))
  | PARAM_OCTET_STRING None n => (Some n, None)
  | _ => (None, None)
  end.

Fixpoint digits (s : string) (acc : Z) : Z :=
  match s with
  | String a rest =>
      let n := Z.of_nat (Ascii.nat_of_ascii a) in
      if (48 <=? n) && (n <=? 57) then digits rest (10 * acc + (n - 48)) else acc
  | EmptyString => acc
  end.

#[export] Instance externals : Externals := {|
  EVP_MD := md_t;
  EVP_MD_CTX := md_ctx;
  EVP_MD_fetch := fun name _ => md_by_name name;
  EVP_MD_get_size := md_size;
  EVP_MD_is_a := md_is_a;
  EVP_MD_xof := fun m => match m with SHAKE128_md => true | _ => false end;
  ossl_digest_rsa_sign_get_md_nid := md_nid;
  EVP_MD_CTX_fresh := (None, []);
  EVP_DigestInit_ex2 := fun _ m _ => match m with Some _ => (1, (m, [])) | None => (0, (None, [])) end;
  EVP_DigestUpdate := fun o data => (1, (fst o, snd o ++ data));
  EVP_DigestFinal_ex := fun o => ((1, digest_of (fst o) (snd o)), o);
  EVP_MD_CTX_copy_ex := fun _ src => (1, src);
  EVP_MD_up_ref := fun _ => 1;
  RSA_X931_hash_id := x931_hash_id;
  ossl_rsa_oaeppss_nid2name := nid2name;
  ossl_rsa_key_op_get_protect := fun _ _ => Some 1;
  RSA_private_encrypt := private_encrypt;
  RSA_public_decrypt := public_decrypt;
  RSA_sign := sign;
  RSA_sign_ASN1_OCTET_STRING := sign;
  RSA_verify := verify;
  ossl_rsa_verify := recover;
  ossl_rsa_padding_add_PKCS1_PSS_mgf1 := pss_encode;
  ossl_rsa_verify_PKCS1_PSS_mgf1 := pss_verify;
  OSSL_PARAM_get_int := get_int;
  OSSL_PARAM_get_utf8_string := get_utf8_string;
  OSSL_PARAM_get_octet_string := get_octet_string;
  atoi := fun s => digits s 0
|}.

(** A 2048-bit plain RSA key, one whose bit length is 1 mod 8, and an
    RSA-PSS key restricted to SHA2-256 with a salt of at least 32. *)
Definition key2048 : RSA := mk_RSA 256 2048 RSA_FLAG_TYPE_RSA (mk_pss30 true 0 0 0) 1.
Definition key2041 : RSA := mk_RSA 256 2041 RSA_FLAG_TYPE_RSA (mk_pss30 true 0 0 0) 2.
Definition key_pss : RSA :=
  mk_RSA 256 2048 RSA_FLAG_TYPE_RSASSAPSS (mk_pss30 false 672 672 32) 3.
(** A 272-bit key: 34 bytes, as small as SHA2-256 plus two bytes. *)
Definition key272 : RSA := mk_RSA 34 272 RSA_FLAG_TYPE_RSASSAPSS (mk_pss30 true 0 0 0) 4.

(** A world that holds these keys, each referenced once by its owner. *)
Definition world0 : world :=
  mk_world true
    (<[1%positive := mk_RSA_obj key2048 1]>
      (<[2%positive := mk_RSA_obj key2041 1]>
        (<[3%positive := mk_RSA_obj key_pss 1]>
          (<[4%positive := mk_RSA_obj key272 1]> ∅))))
    ∅ ∅ [] [0xA5; 0x5A; 0xC3] 7 [] [].

(** A context on key [p] in PSS mode with SHA2-256 bound and the given
    salt-length request and floor. *)
Definition pss_ctx (p : positive) (saltlen' min_saltlen' : Z) : PROV_RSA_CTX :=
  mk_ctx None (Some p) EVP_PKEY_OP_SIGN false true false true true true
         (Some SHA256_md) None 672 "SHA2-256" RSA_PKCS1_PSS_PADDING
         (Some SHA256_md) 672 "SHA2-256" saltlen' min_saltlen' None 0 None.

(** A context as [rsa_newctx] returns it. *)
Definition new_ctx : PROV_RSA_CTX := default zeroed_ctx (rsa_newctx None world0).1.

(** The state after DigestSignInit, and after DigestVerifyInit, with
    SHA2-256 on the 2048-bit key. *)
Definition after {A} (m : M A) (s : PROV_RSA_CTX * world) : PROV_RSA_CTX * world :=
  ((m s.1 s.2).1.2, (m s.1 s.2).2).

Definition signmsg : PROV_RSA_CTX * world :=
  after (rsa_digest_sign_init (Some "SHA2-256") (Some 1%positive) []) (new_ctx, world0).

Definition verifymsg : PROV_RSA_CTX * world :=
  after (rsa_digest_verify_init (Some "SHA2-256") (Some 1%positive) []) (new_ctx, world0).

(** DigestVerifyInit, one update, and a DigestVerifyFinal that has
    consumed the digest (the signature offered does not verify). *)
Definition verify_done : PROV_RSA_CTX * world :=
  after (rsa_digest_verify_final (Some [1; 2; 3]) 3)
    (after (rsa_digest_verify_update [1; 2; 3]) verifymsg).

(** The states after the three plain inits with SHA2-256 and X9.31
    padding on the 2048-bit key. *)
Definition x931_params : list OSSL_PARAM :=
  [ mk_param OSSL_SIGNATURE_PARAM_DIGEST (PARAM_UTF8_STRING (Some "SHA2-256"));
    mk_param OSSL_SIGNATURE_PARAM_PAD_MODE (PARAM_INTEGER RSA_X931_PADDING) ].

Definition x931_sign : PROV_RSA_CTX * world :=
  after (rsa_sign_init (Some 1%positive) x931_params) (new_ctx, world0).

Definition x931_verify : PROV_RSA_CTX * world :=
  after (rsa_verify_init (Some 1%positive) x931_params) (new_ctx, world0).

Definition x931_recover : PROV_RSA_CTX * world :=
  after (rsa_verify_recover_init (Some 1%positive) x931_params) (new_ctx, world0).

(** A digest-sized input and its X9.31 signature by the 2048-bit key. *)
Definition digest32 : list Z := seqZ 1 32.

Definition x931_sig : list Z :=
  r_bytes (rsa_sign OUT_CALLER 256 digest32 x931_sign.1 x931_sign.2).1.1.

(** The content of the temporary buffer, read through [tbuf]. *)
Definition working_buffer (s : PROV_RSA_CTX * world) : option (list Z) :=
  tbuf s.1 ≫= (w_bufs s.2 !!.).

(** A message signed with the fixed algorithm RSA-SHA256, and a
    verification of that signature under way: the signature staged by the
    init, the message fed by one update. *)
Definition message : list Z := [1; 2; 3].

Definition sha256_sig : list Z :=
  r_bytes
    (let s := after (rsa_signverify_message_update message)
                (after (rsa_md_sign_message_init sha256 (Some 1%positive) [])
                   (new_ctx, world0)) in
     (rsa_sign_message_final OUT_CALLER 256 s.1 s.2).1.1).

Definition sigalg_verifying : PROV_RSA_CTX * world :=
  after (rsa_signverify_message_update message)
    (after (rsa_md_verify_message_init sha256 (Some 1%positive)
              [mk_param OSSL_SIGNATURE_PARAM_SIGNATURE
                 (PARAM_OCTET_STRING (Some sha256_sig) 256)])
       (new_ctx, world0)).

(** The state after a plain sign init, and after a plain verify init,
    that bind SHA2-256 and keep the PKCS#1 v1.5 padding of the RSA key. *)
Definition sha256_param : list OSSL_PARAM :=
  [ mk_param OSSL_SIGNATURE_PARAM_DIGEST (PARAM_UTF8_STRING (Some "SHA2-256")) ].

Definition pkcs1_sign : PROV_RSA_CTX * world :=
  after (rsa_sign_init (Some 1%positive) sha256_param) (new_ctx, world0).

Definition pkcs1_verify : PROV_RSA_CTX * world :=
  after (rsa_verify_init (Some 1%positive) sha256_param) (new_ctx, world0).

(** The bytes staged for verification, read through [sig]. *)
Definition staged (s : PROV_RSA_CTX * world) : option (list Z) :=
  sig s.1 ≫= (w_bufs s.2 !!.).

(** Writers that check the type of the entry and the room in its buffer
    (none is needed where the buffer is absent and only the size is
    asked for), and a decimal formatter. *)
Definition put (p : OSSL_PARAM_out) (ty : Z) (v : param_content) (n : Z)
    : option (option param_content * Z) :=
  if negb (o_data_type p =? ty) then None
  else if (0 <? o_data_size p) && (o_data_size p <? n) then None
  else Some (if 0 <? o_data_size p then Some v else None, n).

Definition snprintf_d (size v : Z) : Z * string :=
  let text := pretty v in
  if Z.of_nat (String.length text) <? size
  then (Z.of_nat (String.length text), text) else (-1, EmptyString).

#[export] Instance writers : ParamWriters := {|
  OSSL_PARAM_set_int := fun p v => put p OSSL_PARAM_INTEGER (CONTENT_INT v) 4;
  OSSL_PARAM_set_utf8_string := fun p s =>
    put p OSSL_PARAM_UTF8_STRING (CONTENT_TEXT s) (Z.of_nat (String.length s));
  OSSL_PARAM_set_octet_string := fun p b =>
    put p 5 (CONTENT_BYTES b) (Z.of_nat (length b));
  BIO_snprintf_d := snprintf_d
|}.

(** A request for one parameter as a string, with room for 32 bytes. *)
Definition ask (key : string) : OSSL_PARAM_out :=
  mk_out key OSSL_PARAM_UTF8_STRING 32 None 0.

(** A second world: the keys of [world0] and three more, a 1024-bit key,
    a 265-bit key (34 bytes, its bit length 1 mod 8) and an RSA-PSS key
    restricted to SHA2-256 with a salt of at least 223 bytes, which
    [rsa_check_parameters] accepts on 2048 bits (223 <= 256 - 32). *)
Definition key1024 : RSA := mk_RSA 128 1024 RSA_FLAG_TYPE_RSA (mk_pss30 true 0 0 0) 5.
Definition key265 : RSA := mk_RSA 34 265 RSA_FLAG_TYPE_RSA (mk_pss30 true 0 0 0) 6.
Definition key_pss223 : RSA :=
  mk_RSA 256 2048 RSA_FLAG_TYPE_RSASSAPSS (mk_pss30 false 672 672 223) 7.

Definition world1 : world :=
  set_w_keys
    (<[5%positive := mk_RSA_obj key1024 1]>
      (<[6%positive := mk_RSA_obj key265 1]>
        (<[7%positive := mk_RSA_obj key_pss223 1]> (w_keys world0))))
    world0.

(** A request for the largest salt, as a parameter. *)
Definition saltlen_max_param : list OSSL_PARAM :=
  [ mk_param OSSL_SIGNATURE_PARAM_PSS_SALTLEN (PARAM_INTEGER RSA_PSS_SALTLEN_MAX) ].

(** A sign init on the key restricted to a salt of 223 bytes, followed
    by a request for the largest salt. *)
Definition pss223_max : PROV_RSA_CTX * world :=
  after (rsa_set_ctx_params saltlen_max_param)
    (after (rsa_sign_init (Some 7%positive) []) (new_ctx, world1)).

(** A sign init on the 265-bit key that binds SHA2-256 and asks for PSS
    padding with the largest salt. *)
Definition pss265_max : PROV_RSA_CTX * world :=
  after (rsa_sign_init (Some 6%positive)
           [ mk_param OSSL_SIGNATURE_PARAM_DIGEST (PARAM_UTF8_STRING (Some "SHA2-256"));
             mk_param OSSL_SIGNATURE_PARAM_PAD_MODE (PARAM_INTEGER RSA_PKCS1_PSS_PADDING);
             mk_param OSSL_SIGNATURE_PARAM_PSS_SALTLEN (PARAM_INTEGER RSA_PSS_SALTLEN_MAX) ])
    (new_ctx, world1).

(** DigestSignInit with SHA1 on the 2048-bit key, then a plain sign init
    of the same context on the RSA-PSS key restricted to SHA2-256. *)
Definition sha1_then_pss : PROV_RSA_CTX * world :=
  after (rsa_sign_init (Some 3%positive) [])
    (after (rsa_digest_sign_init (Some "SHA1") (Some 1%positive) []) (new_ctx, world0)).

(** A DigestSignInit that names no digest. *)
Definition no_digest : PROV_RSA_CTX * world :=
  after (rsa_digest_sign_init None (Some 1%positive) []) (new_ctx, world0).

(** What the toy public-key operation takes for a signature of [k] over
    [payload]: the length, the payload, filler up to the modulus size. *)
Definition framed (k : RSA) (payload : list Z) : list Z :=
  resize (Z.to_nat (RSA_size k)) 0xBB (Z.of_nat (length payload) :: payload).

(** A verify-recover under X9.31 on one key, which allocates the
    temporary buffer, then a verify-recover init of the same context on
    another key. *)
Definition x931_recover_then (first second : positive) : PROV_RSA_CTX * world :=
  after (rsa_verify_recover_init (Some second) x931_params)
    (after (rsa_verify_recover OUT_CALLER 32 [] 0)
       (after (rsa_verify_recover_init (Some first) x931_params) (new_ctx, world1))).

(** The same for the sign transform. *)
Definition x931_sign_then (first second : positive) : PROV_RSA_CTX * world :=
  after (rsa_sign_init (Some second) x931_params)
    (after (rsa_sign OUT_CALLER 256 digest32)
       (after (rsa_sign_init (Some first) x931_params) (new_ctx, world1))).

End Toy.

(** * Properties *)

(** ** Running the monad *)

Section Run.

Context `{Ext : Externals}.

Lemma ctx_key_live c w k : key_is c w k -> ctx_key c w = (k, c, w).
Proof.
  intros (p & o & Hp & Ho & <-).
  unfold ctx_key, bind, get_ctx, the_key. rewrite Hp.
  unfold bind, get_world, ret. now rewrite Ho.
Qed.

Lemma raised_one w w' e : w_errs w' = e :: w_errs w -> raised w w' = [e].
Proof.
  intros H. unfold raised. rewrite H. cbn [length].
  replace (S (length (w_errs w)) - length (w_errs w))%nat with 1%nat by lia.
  reflexivity.
Qed.

Lemma raised_none w : raised w w = [].
Proof. unfold raised. now rewrite Nat.sub_diag. Qed.

Lemma wp_ret {A} (a : A) Q c w : Q a c w -> wp (ret a) Q c w.
Proof. exact id. Qed.

Lemma wp_bind {A B} (m : M A) (k : A -> M B) Q c w :
  wp m (fun a c' w' => wp (k a) Q c' w') c w -> wp (bind m k) Q c w.
Proof. unfold wp, bind. now destruct (m c w) as [[a c'] w']. Qed.

Lemma wp_mono {A} (m : M A) (Q Q' : A -> PROV_RSA_CTX -> world -> Prop) c w :
  wp m Q c w -> (forall a c' w', Q a c' w' -> Q' a c' w') -> wp m Q' c w.
Proof. unfold wp. auto. Qed.

Lemma wp_run {A} (m : M A) Q c w a c' w' :
  m c w = (a, c', w') -> wp m Q c w -> Q a c' w'.
Proof. unfold wp. now intros ->. Qed.

Lemma wp_get_ctx Q c w : Q c c w -> wp get_ctx Q c w.
Proof. exact id. Qed.

Lemma wp_get_world Q c w : Q w c w -> wp get_world Q c w.
Proof. exact id. Qed.

Lemma wp_modify_ctx f Q c w : Q tt (f c) w -> wp (modify_ctx f) Q c w.
Proof. exact id. Qed.

Lemma wp_modify_world f Q c w : Q tt c (f w) -> wp (modify_world f) Q c w.
Proof. exact id. Qed.

Lemma wp_ERR_raise_data l r args Q c w :
  Q tt c (set_w_errs (mk_err l r args :: w_errs w) w) -> wp (ERR_raise_data l r args) Q c w.
Proof. exact id. Qed.

Lemma wp_ERR_raise l r Q c w :
  Q tt c (set_w_errs (mk_err l r [] :: w_errs w) w) -> wp (ERR_raise l r) Q c w.
Proof. exact id. Qed.

Lemma wp_raise_fault f Q c w :
  Q tt c (set_w_faults (f :: w_faults w) w) -> wp (raise_fault f) Q c w.
Proof. exact id. Qed.

Lemma wp_running Q c w : Q (w_running w) c w -> wp ossl_prov_is_running Q c w.
Proof. exact id. Qed.

Lemma wp_alloc_succeeds Q c w :
  match w_alloc w with
  | [] => Q true c w
  | b :: rest => Q b c (set_w_alloc rest w)
  end -> wp alloc_succeeds Q c w.
Proof. unfold wp, alloc_succeeds. now destruct (w_alloc w). Qed.

Lemma run_eta {A} (m : M A) c w : m c w = ((m c w).1.1, (m c w).1.2, (m c w).2).
Proof. now destruct (m c w) as [[a c'] w']. Qed.

Lemma wp_ctx_key Q c w k : key_is c w k -> Q k c w -> wp ctx_key Q c w.
Proof. intros Hk HQ. unfold wp. now rewrite (ctx_key_live _ _ _ Hk). Qed.

Lemma wp_preserves {A} (m : M A) (I : PROV_RSA_CTX -> world -> Prop) Q c w :
  preserves I m -> I c w -> (forall a c' w', I c' w' -> Q a c' w') -> wp m Q c w.
Proof. intros Hm Hc HQ. eapply wp_mono; [now apply Hm | auto]. Qed.

Lemma quiet_refl w c : quiet w c w.
Proof. exists []. split; [reflexivity | constructor]. Qed.

Lemma quiet_push w0 c w c' w' l r args :
  quiet w0 c w -> w_errs w' = mk_err l r args :: w_errs w ->
  lifecycle_reason r = false -> quiet w0 c' w'.
Proof.
  intros (es & He & Hf) Hw Hr. exists (mk_err l r args :: es). split.
  - rewrite Hw, He. reflexivity.
  - now constructor.
Qed.

Lemma quiet_same w0 c w c' w' : quiet w0 c w -> w_errs w' = w_errs w -> quiet w0 c' w'.
Proof. intros (es & He & Hf) Hw. exists es. split; [congruence | assumption]. Qed.

Lemma quiet_raised w0 c w e :
  quiet w0 c w -> In e (raised w0 w) -> lifecycle_reason (e_reason e) = false.
Proof.
  intros (es & He & Hf) Hin. unfold raised in Hin. rewrite He in Hin.
  rewrite length_app, Nat.add_sub, take_app_length in Hin.
  rewrite Forall_forall in Hf. apply Hf. now apply list_elem_of_In.
Qed.

End Run.

(** One step of a [wp] goal, for an invariant [I]: the plumbing of the
    monad is run, a branch is split on its condition, and a call with a
    [preserves] lemma in the hint base [calls] is crossed with it. *)
Create HintDb calls discriminated.

Ltac inv_unfold :=
  unfold cycle_is, cycle_of, pad_is, no_oneshot, flags_ok, tbuf_untouched,
         session_is, session_of in *.

(** The invariant in the state at hand, from what is known of an earlier one. *)
Ltac inv_quiet :=
  first
    [ assumption
    | match goal with
      | H : quiet ?w0 ?c ?w |- quiet ?w0 _ _ =>
          solve [ eapply (quiet_push w0 c w); [exact H | reflexivity | reflexivity]
                | eapply (quiet_same w0 c w); [exact H | reflexivity] ]
      end ].

Ltac inv_solve :=
  first
    [ assumption
    | inv_quiet
    | match goal with
      | H : armed ?w0 _ _ |- armed ?w0 _ _ =>
          solve [destruct H as (? & ? & ?); split; [inv_quiet | split; cbn; assumption]]
      end
    | solve [inv_unfold; cbn in *; intuition congruence] ].

(** After a write, note the invariant for the new state if it holds there. *)
Ltac inv_note I :=
  lazymatch goal with
  | |- wp _ _ ?c ?w =>
      try (let H' := fresh "HI" in assert (H' : I c w) by inv_solve)
  end.

Ltac wp_step I :=
  lazymatch goal with
  | |- wp (bind _ _) _ _ _ => apply wp_bind
  | |- wp (if ?b then _ else _) _ _ _ => destruct b eqn:?
  | |- wp (match ?x with _ => _ end) _ _ _ => destruct x eqn:?
  | |- wp (let _ := _ in _) _ _ _ => cbv zeta
  | |- wp (ret _) _ _ _ => apply wp_ret
  | |- wp get_ctx _ _ _ => apply wp_get_ctx
  | |- wp get_world _ _ _ => apply wp_get_world
  | |- wp (modify_ctx _) _ _ _ => apply wp_modify_ctx; inv_note I
  | |- wp (modify_world _) _ _ _ => apply wp_modify_world; inv_note I
  | |- wp (ERR_raise _ _) _ _ _ => apply wp_ERR_raise; inv_note I
  | |- wp (ERR_raise_data _ _ _) _ _ _ => apply wp_ERR_raise_data; inv_note I
  | |- wp (raise_fault _) _ _ _ => apply wp_raise_fault; inv_note I
  | |- wp ossl_prov_is_running _ _ _ => apply wp_running
  | |- wp alloc_succeeds _ _ _ =>
      apply wp_alloc_succeeds;
      match goal with |- context [w_alloc ?w] => destruct (w_alloc w) end;
      inv_note I
  | |- wp ?m _ ?c ?w =>
      eapply (wp_preserves m I); [solve [eauto 12 with calls] | inv_solve | intros ? ? ? ?]
  end.

Ltac wp_go I := repeat (wp_step I; cbn beta).

(** Proves [preserves I f] for a call [f] built from the primitives and
    from calls already in [calls]. *)
Tactic Notation "preserves_by_unfolding" reference(f) :=
  lazymatch goal with
  | |- preserves ?I _ => intros ? ? ?; unfold f; wp_go I; try inv_solve
  end.

(** Unfolds the monad's plumbing. *)
Ltac run :=
  unfold bind, ret, get_ctx, modify_ctx, get_world, modify_world,
         ERR_raise, ERR_raise_data, raise_fault, ossl_prov_is_running in *;
  cbn beta iota zeta in *.


(** ** Footprints *)

Section Footprints.

Context `{Ext : Externals}.

Implicit Type I : PROV_RSA_CTX -> world -> Prop.

#[local] Hint Constructors cycle_inv utility_inv : calls.

Ltac utility_cases H := destruct H as [? [? | | | ? | ?] | ?].
Ltac cycle_cases H := destruct H as [? | | | ? | ?].

(** The primitives that work on the world leave the context alone. *)
Lemma OPENSSL_malloc_utility I n : utility_inv I -> preserves I (OPENSSL_malloc n).
Proof. intros HI. utility_cases HI; preserves_by_unfolding OPENSSL_malloc. Qed.

Lemma OPENSSL_free_utility I p : utility_inv I -> preserves I (OPENSSL_free p).
Proof. intros HI. utility_cases HI; preserves_by_unfolding OPENSSL_free. Qed.

Lemma read_buf_utility I p : utility_inv I -> preserves I (read_buf p).
Proof. intros HI. utility_cases HI; preserves_by_unfolding read_buf. Qed.

Lemma write_buf_utility I p off bytes : utility_inv I -> preserves I (write_buf p off bytes).
Proof. intros HI. utility_cases HI; preserves_by_unfolding write_buf. Qed.

#[local] Hint Resolve OPENSSL_malloc_utility OPENSSL_free_utility read_buf_utility write_buf_utility : calls.

Lemma read_byte_utility I p i : utility_inv I -> preserves I (read_byte p i).
Proof. intros HI. utility_cases HI; preserves_by_unfolding read_byte. Qed.

Lemma OPENSSL_cleanse_utility I p n : utility_inv I -> preserves I (OPENSSL_cleanse p n).
Proof. intros HI. utility_cases HI; preserves_by_unfolding OPENSSL_cleanse. Qed.

Lemma EVP_MD_CTX_new_utility I : utility_inv I -> preserves I EVP_MD_CTX_new.
Proof. intros HI. utility_cases HI; preserves_by_unfolding EVP_MD_CTX_new. Qed.

Lemma EVP_MD_CTX_free_utility I p : utility_inv I -> preserves I (EVP_MD_CTX_free p).
Proof. intros HI. utility_cases HI; preserves_by_unfolding EVP_MD_CTX_free. Qed.

Lemma on_mdctx_utility {A} I p (d : A) f : utility_inv I -> preserves I (on_mdctx p d f).
Proof. intros HI. utility_cases HI; preserves_by_unfolding on_mdctx. Qed.

Lemma RSA_up_ref_utility I p : utility_inv I -> preserves I (RSA_up_ref p).
Proof. intros HI. utility_cases HI; preserves_by_unfolding RSA_up_ref. Qed.

Lemma RSA_free_utility I p : utility_inv I -> preserves I (RSA_free p).
Proof. intros HI. utility_cases HI; preserves_by_unfolding RSA_free. Qed.

Lemma the_key_utility I p : utility_inv I -> preserves I (the_key p).
Proof. intros HI. utility_cases HI; preserves_by_unfolding the_key. Qed.

#[local] Hint Resolve read_byte_utility OPENSSL_cleanse_utility EVP_MD_CTX_new_utility
  EVP_MD_CTX_free_utility on_mdctx_utility RSA_up_ref_utility RSA_free_utility the_key_utility : calls.

Lemma ctx_key_utility I : utility_inv I -> preserves I ctx_key.
Proof. intros HI. utility_cases HI; preserves_by_unfolding ctx_key. Qed.

Lemma rsa_check_padding_utility I a b n : utility_inv I -> preserves I (rsa_check_padding a b n).
Proof. intros HI. utility_cases HI; preserves_by_unfolding rsa_check_padding. Qed.

#[local] Hint Resolve ctx_key_utility rsa_check_padding_utility : calls.

Lemma rsa_check_parameters_utility I n : utility_inv I -> preserves I (rsa_check_parameters n).
Proof. intros HI. utility_cases HI; preserves_by_unfolding rsa_check_parameters. Qed.

Lemma rsa_setup_md_utility I a b : utility_inv I -> preserves I (rsa_setup_md a b).
Proof. intros HI. utility_cases HI; preserves_by_unfolding rsa_setup_md. Qed.

Lemma rsa_setup_mgf1_md_utility I a b : utility_inv I -> preserves I (rsa_setup_mgf1_md a b).
Proof. intros HI. utility_cases HI; preserves_by_unfolding rsa_setup_mgf1_md. Qed.

Lemma setup_tbuf_utility I : utility_inv I -> preserves I setup_tbuf.
Proof. intros HI. utility_cases HI; preserves_by_unfolding setup_tbuf. Qed.

Lemma clean_tbuf_utility I : utility_inv I -> preserves I clean_tbuf.
Proof. intros HI. utility_cases HI; preserves_by_unfolding clean_tbuf. Qed.

#[local] Hint Resolve rsa_check_parameters_utility rsa_setup_md_utility
  rsa_setup_mgf1_md_utility setup_tbuf_utility clean_tbuf_utility : calls.

Lemma free_tbuf_utility I : utility_inv I -> preserves I free_tbuf.
Proof. intros HI. utility_cases HI; preserves_by_unfolding free_tbuf. Qed.

Lemma start_digest_utility I params : utility_inv I -> preserves I (start_digest params).
Proof. intros HI. utility_cases HI; preserves_by_unfolding start_digest. Qed.

Lemma rsa_sigalg_set_ctx_params_utility I params :
  utility_inv I -> preserves I (rsa_sigalg_set_ctx_params params).
Proof. intros HI. utility_cases HI; preserves_by_unfolding rsa_sigalg_set_ctx_params. Qed.

#[local] Hint Resolve free_tbuf_utility start_digest_utility
  rsa_sigalg_set_ctx_params_utility : calls.

Lemma rsa_verify_set_sig_utility I s n : utility_inv I -> preserves I (rsa_verify_set_sig s n).
Proof. intros HI. unfold rsa_verify_set_sig. auto with calls. Qed.

Lemma sign_end_utility I r b : utility_inv I -> preserves I (sign_end r b).
Proof. intros HI. utility_cases HI; preserves_by_unfolding sign_end. Qed.

Lemma sign_pss_restrictions_ok_utility I : utility_inv I -> preserves I sign_pss_restrictions_ok.
Proof. intros HI. utility_cases HI; preserves_by_unfolding sign_pss_restrictions_ok. Qed.

Lemma deliver_utility I o b : utility_inv I -> preserves I (deliver o b).
Proof. intros HI. utility_cases HI; preserves_by_unfolding deliver. Qed.

Lemma verify_compare_utility I n tbs : utility_inv I -> preserves I (verify_compare n tbs).
Proof. intros HI. utility_cases HI; preserves_by_unfolding verify_compare. Qed.

#[local] Hint Resolve rsa_verify_set_sig_utility sign_end_utility sign_pss_restrictions_ok_utility
  deliver_utility verify_compare_utility : calls.

Lemma rsa_sign_directly_utility I s n tbs :
  utility_inv I -> preserves I (rsa_sign_directly s n tbs).
Proof. intros HI. utility_cases HI; preserves_by_unfolding rsa_sign_directly. Qed.

Lemma rsa_verify_recover_utility I o n s l :
  utility_inv I -> preserves I (rsa_verify_recover o n s l).
Proof. intros HI. utility_cases HI; preserves_by_unfolding rsa_verify_recover. Qed.

#[local] Hint Resolve rsa_sign_directly_utility rsa_verify_recover_utility : calls.

Lemma rsa_verify_directly_utility I s l tbs :
  utility_inv I -> preserves I (rsa_verify_directly s l tbs).
Proof. intros HI. utility_cases HI; preserves_by_unfolding rsa_verify_directly. Qed.

Lemma set_saltlen_restrictions_ok_utility I n : utility_inv I -> preserves I (set_saltlen_restrictions_ok n).
Proof. intros HI. utility_cases HI; preserves_by_unfolding set_saltlen_restrictions_ok. Qed.

#[local] Hint Resolve rsa_verify_directly_utility set_saltlen_restrictions_ok_utility : calls.

(** [rsa_set_ctx_params] writes pad mode and salt length, not the life cycle. *)
Lemma rsa_set_ctx_params_cycle I params : cycle_inv I -> preserves I (rsa_set_ctx_params params).
Proof. intros HI. cycle_cases HI; preserves_by_unfolding rsa_set_ctx_params. Qed.

#[local] Hint Resolve rsa_set_ctx_params_cycle : calls.

(** The life-cycle calls clear the one-shot permission or leave it, and
    keep the shape of the three flags. *)
#[local] Hint Constructors flags_inv : calls.

Ltac flags_cases H := destruct H as [|].

Lemma rsa_signverify_message_update_flags I data :
  flags_inv I -> preserves I (rsa_signverify_message_update data).
Proof. intros HI. flags_cases HI; preserves_by_unfolding rsa_signverify_message_update. Qed.

Lemma rsa_sign_message_final_flags I s n :
  flags_inv I -> preserves I (rsa_sign_message_final s n).
Proof. intros HI. flags_cases HI; preserves_by_unfolding rsa_sign_message_final. Qed.

Lemma rsa_verify_message_final_flags I :
  flags_inv I -> preserves I rsa_verify_message_final.
Proof. intros HI. flags_cases HI; preserves_by_unfolding rsa_verify_message_final. Qed.

#[local] Hint Resolve rsa_signverify_message_update_flags
  rsa_sign_message_final_flags rsa_verify_message_final_flags : calls.

Lemma and_then_preserves I (a b : M Z) :
  preserves I a -> preserves I b -> preserves I (and_then a b).
Proof.
  intros Ha Hb c w Hc. unfold and_then.
  apply wp_bind. eapply wp_preserves; [exact Ha | exact Hc |]. intros x c1 w1 H1.
  destruct (x =? 0); [now apply wp_ret |].
  apply wp_bind. eapply wp_preserves; [exact Hb | exact H1 |]. intros y c2 w2 H2.
  now destruct (y =? 0); apply wp_ret.
Qed.

#[local] Hint Resolve and_then_preserves : calls.

Lemma rsa_sign_flags I s n tbs : flags_inv I -> preserves I (rsa_sign s n tbs).
Proof. intros HI. flags_cases HI; preserves_by_unfolding rsa_sign. Qed.

Lemma rsa_verify_flags I s n tbs : flags_inv I -> preserves I (rsa_verify s n tbs).
Proof. intros HI. flags_cases HI; preserves_by_unfolding rsa_verify. Qed.

Lemma rsa_digest_sign_update_flags I data :
  flags_inv I -> preserves I (rsa_digest_sign_update data).
Proof. intros HI. flags_cases HI; preserves_by_unfolding rsa_digest_sign_update. Qed.

Lemma rsa_digest_sign_final_flags I s n :
  flags_inv I -> preserves I (rsa_digest_sign_final s n).
Proof. intros HI. flags_cases HI; preserves_by_unfolding rsa_digest_sign_final. Qed.

Lemma rsa_digest_verify_update_flags I data :
  flags_inv I -> preserves I (rsa_digest_verify_update data).
Proof. intros HI. flags_cases HI; preserves_by_unfolding rsa_digest_verify_update. Qed.

Lemma rsa_digest_verify_final_flags I s n :
  flags_inv I -> preserves I (rsa_digest_verify_final s n).
Proof. intros HI. flags_cases HI; preserves_by_unfolding rsa_digest_verify_final. Qed.

#[local] Hint Resolve rsa_sign_flags rsa_verify_flags
  rsa_digest_sign_update_flags rsa_digest_sign_final_flags
  rsa_digest_verify_update_flags rsa_digest_verify_final_flags : calls.

Lemma forget_preserves {A} I (m : M A) : preserves I m -> preserves I (forget m).
Proof.
  intros Hm c w Hc. unfold forget.
  apply wp_bind. eapply wp_preserves; [exact Hm | exact Hc |]. intros x c1 w1 H1.
  now apply wp_ret.
Qed.

#[local] Hint Resolve forget_preserves : calls.

(** No call but an init gives the one-shot permission back, and every
    call keeps the shape of the flags. *)
Lemma exec_flags I k : flags_inv I -> preserves I (exec k).
Proof. intros HI. destruct k; cbn [exec]; flags_cases HI; auto 12 with calls. Qed.

Lemma exec_all_flags I ks : flags_inv I -> preserves I (exec_all ks).
Proof.
  intros HI.
  induction ks as [| k rest IH]; intros c w Hc; cbn [exec_all].
  - now apply wp_ret.
  - apply wp_bind.
    eapply (wp_preserves _ I); [exact (exec_flags I k HI) | exact Hc |].
    intros u c' w' Hc'. now apply IH.
Qed.

(** An init leaves the flags in shape: all three set, or as they were. *)
Lemma rsa_signverify_init_flags_ok vrsa set_ctx_params params op :
  (forall ps, preserves flags_ok (set_ctx_params ps)) ->
  preserves flags_ok (rsa_signverify_init vrsa set_ctx_params params op).
Proof. intros Hs. preserves_by_unfolding rsa_signverify_init. Qed.

Lemma rsa_digest_signverify_init_flags_ok mdname' vrsa params op :
  preserves flags_ok (rsa_digest_signverify_init mdname' vrsa params op).
Proof.
  assert (Hi := rsa_signverify_init_flags_ok vrsa rsa_set_ctx_params params op
                  (fun ps => rsa_set_ctx_params_cycle _ ps ci_flags_ok)).
  preserves_by_unfolding rsa_digest_signverify_init.
Qed.

Lemma rsa_sigalg_signverify_init_flags_ok vrsa params mdname' op pm :
  preserves flags_ok
    (rsa_sigalg_signverify_init vrsa rsa_sigalg_set_ctx_params params mdname' op pm).
Proof.
  assert (Hi := rsa_signverify_init_flags_ok vrsa rsa_sigalg_set_ctx_params params op
                  (fun ps => rsa_sigalg_set_ctx_params_utility _ ps
                               (ui_cycle _ ci_flags_ok))).
  preserves_by_unfolding rsa_sigalg_signverify_init.
Qed.

End Footprints.

#[global] Hint Constructors cycle_inv utility_inv : calls.
#[global] Hint Resolve OPENSSL_malloc_utility OPENSSL_free_utility read_buf_utility write_buf_utility
  read_byte_utility OPENSSL_cleanse_utility EVP_MD_CTX_new_utility EVP_MD_CTX_free_utility on_mdctx_utility
  RSA_up_ref_utility RSA_free_utility the_key_utility ctx_key_utility rsa_check_padding_utility
  rsa_check_parameters_utility rsa_setup_md_utility rsa_setup_mgf1_md_utility
  setup_tbuf_utility clean_tbuf_utility free_tbuf_utility start_digest_utility
  rsa_sigalg_set_ctx_params_utility rsa_verify_set_sig_utility sign_end_utility
  sign_pss_restrictions_ok_utility deliver_utility verify_compare_utility rsa_sign_directly_utility
  rsa_verify_recover_utility rsa_verify_directly_utility set_saltlen_restrictions_ok_utility
  rsa_set_ctx_params_cycle and_then_preserves forget_preserves : calls.
#[global] Hint Constructors flags_inv : calls.
#[global] Hint Resolve rsa_signverify_message_update_flags rsa_sign_message_final_flags
  rsa_verify_message_final_flags rsa_sign_flags rsa_verify_flags : calls.

(** ** C1, C6: the PSS salt-length resolver *)

Section SaltLength.

Context `{Ext : Externals}.


Lemma land7_mod8 z : Z.land z 0x7 = z mod 8.
Proof. change 0x7 with (Z.ones 3). rewrite Z.land_ones by lia. reflexivity. Qed.

Lemma candidate_max_auto c w k :
  saltlen c = RSA_PSS_SALTLEN_MAX \/ saltlen c = RSA_PSS_SALTLEN_AUTO
  \/ saltlen c = RSA_PSS_SALTLEN_AUTO_DIGEST_MAX ->
  key_is c w k ->
  let mdsize := EVP_MD_get_size (md c) in
  let cap := if saltlen c =? RSA_PSS_SALTLEN_AUTO_DIGEST_MAX then Some mdsize else None in
  pss_saltlen_candidate c w =
    if mdsize <=? 0 then (None, c, set_w_errs (err_invalid_digest :: w_errs w) w)
    else if RSA_size k - 2 <? mdsize then (None, c, set_w_errs (err_invalid_key :: w_errs w) w)
    else (Some (max_salt_length (RSA_size k) mdsize (RSA_bits k) cap), c, w).
Proof.
  intros Hpol Hk mdsize cap. subst cap.
  unfold pss_saltlen_candidate, max_salt_length. run.
  fold mdsize.
  unfold RSA_PSS_SALTLEN_MAX, RSA_PSS_SALTLEN_AUTO, RSA_PSS_SALTLEN_AUTO_DIGEST_MAX,
    RSA_PSS_SALTLEN_DIGEST in *.
  destruct Hpol as [-> | [-> | ->]]; cbn [Z.eqb Pos.eqb orb];
    destruct (Z.leb_spec mdsize 0) as [Hm | Hm]; try reflexivity;
    rewrite (ctx_key_live _ _ _ Hk); rewrite land7_mod8.
  all: destruct (Z.leb_spec (RSA_size k) 2); destruct (Z.ltb_spec (RSA_size k - 2) mdsize);
    cbn [orb andb Z.leb Z.compare]; run; try reflexivity; try lia.
  destruct (Z.leb_spec 0 mdsize); [cbn [andb]; reflexivity | lia].
Qed.

Lemma range_check_run s c w :
  pss_saltlen_range_check s c w =
    if s <? 0 then
      (-1, c, set_w_errs (mk_err ERR_LIB_PROV ERR_R_INTERNAL_ERROR [] :: w_errs w) w)
    else if s <? min_saltlen c then
      (-1, c, set_w_errs (mk_err ERR_LIB_PROV PROV_R_PSS_SALTLEN_TOO_SMALL
                                 [EInt (min_saltlen c); EInt s] :: w_errs w) w)
    else (s, c, w).
Proof.
  unfold pss_saltlen_range_check. run.
  destruct (s <? 0); [reflexivity |]. destruct (s <? min_saltlen c); reflexivity.
Qed.

(** The candidate step never writes the context; when it yields a number
    it has raised nothing. *)
Lemma candidate_frame c w :
  let '(r, c', w') := pss_saltlen_candidate c w in
  c' = c /\ (forall s, r = Some s -> w_errs w' = w_errs w).
Proof.
  unfold pss_saltlen_candidate, ctx_key, the_key. run.
  repeat match goal with
         | |- context [if ?b then _ else _] => destruct b
         | |- context [match ?x with Some _ => _ | None => _ end] => destruct x; run
         end;
    (split; [reflexivity | intros ? [=]; try reflexivity]).
  all: destruct w; reflexivity.
Qed.

(** A request that is a number already is the candidate. *)
Lemma candidate_number c w :
  0 <= saltlen c -> pss_saltlen_candidate c w = (Some (saltlen c), c, w).
Proof.
  intros Hs. unfold pss_saltlen_candidate. run.
  unfold RSA_PSS_SALTLEN_DIGEST, RSA_PSS_SALTLEN_AUTO_DIGEST_MAX, RSA_PSS_SALTLEN_MAX,
    RSA_PSS_SALTLEN_AUTO.
  destruct (Z.eqb_spec (saltlen c) (-1)); [lia |].
  destruct (Z.eqb_spec (saltlen c) (-4)); [lia |].
  destruct (Z.eqb_spec (saltlen c) (-3)); [lia |].
  destruct (Z.eqb_spec (saltlen c) (-2)); [lia |].
  reflexivity.
Qed.

(** C1, as amended. For a context whose salt policy is MAX or AUTO, or
    AUTO_DIGEST_MAX (which caps the result at the digest size), and
    whose key is [k], [resolveSaltLength] is this, in this order: a
    digest without a positive size fails with InvalidDigest; a modulus
    that cannot hold the digest plus two bytes fails with InvalidKey;
    otherwise the value resolved is [modulusBytes - digestSize - 2], one
    less when the modulus bit length is 1 mod 8, clamped to the digest
    size under AUTO_DIGEST_MAX, and that value goes through the range
    check every request goes through: negative, it fails with an
    internal error; below the floor [min_saltlen], it fails with
    PssSaltTooSmall carrying floor and value; else it is returned. *)
Theorem resolveSaltLength_max_auto c w k :
  saltlen c = RSA_PSS_SALTLEN_MAX \/ saltlen c = RSA_PSS_SALTLEN_AUTO
  \/ saltlen c = RSA_PSS_SALTLEN_AUTO_DIGEST_MAX ->
  key_is c w k ->
  let mdsize := EVP_MD_get_size (md c) in
  let cap := if saltlen c =? RSA_PSS_SALTLEN_AUTO_DIGEST_MAX then Some mdsize else None in
  let s := max_salt_length (RSA_size k) mdsize (RSA_bits k) cap in
  resolveSaltLength c w =
    if mdsize <=? 0 then Failed [err_invalid_digest]
    else if RSA_size k <? mdsize + 2 then Failed [err_invalid_key]
    else if s <? 0 then Failed [mk_err ERR_LIB_PROV ERR_R_INTERNAL_ERROR []]
    else if s <? min_saltlen c
    then Failed [mk_err ERR_LIB_PROV PROV_R_PSS_SALTLEN_TOO_SMALL
                        [EInt (min_saltlen c); EInt s]]
    else OK s.
Proof.
  intros Hpol Hk mdsize cap s.
  pose proof (candidate_max_auto c w k Hpol Hk) as Hc. cbn zeta in Hc.
  fold mdsize cap s in Hc.
  unfold resolveSaltLength, rsa_pss_compute_saltlen, bind.
  rewrite Hc. clear Hc.
  destruct (Z.leb_spec mdsize 0) as [Hm | Hm].
  { unfold ret. cbn -[raised]. now rewrite (raised_one _ _ err_invalid_digest). }
  replace (RSA_size k - 2 <? mdsize) with (RSA_size k <? mdsize + 2)
    by (destruct (Z.ltb_spec (RSA_size k) (mdsize + 2));
        destruct (Z.ltb_spec (RSA_size k - 2) mdsize); lia || reflexivity).
  destruct (RSA_size k <? mdsize + 2).
  { unfold ret. cbn -[raised]. now rewrite (raised_one _ _ err_invalid_key). }
  rewrite range_check_run.
  destruct (Z.ltb_spec s 0) as [Hs | Hs].
  { cbn -[raised]. erewrite raised_one; reflexivity. }
  destruct (Z.ltb_spec s (min_saltlen c)) as [Hf | Hf].
  { cbn -[raised]. erewrite raised_one; reflexivity. }
  replace (s <? 0) with false by (symmetry; apply Z.ltb_ge; lia).
  reflexivity.
Qed.

(** C6. What [resolveSaltLength] returns is never negative and never
    below the floor [min_saltlen]; a negative candidate is rejected as an
    internal error, and a candidate below the floor (which is then set:
    not -1) is rejected with PssSaltTooSmall carrying the floor and the
    candidate. *)
Theorem resolveSaltLength_range c w :
  (forall n, resolveSaltLength c w = OK n -> 0 <= n /\ min_saltlen c <= n) /\
  (forall s c1 w1, pss_saltlen_candidate c w = (Some s, c1, w1) ->
     (s < 0 ->
        resolveSaltLength c w = Failed [mk_err ERR_LIB_PROV ERR_R_INTERNAL_ERROR []]) /\
     (0 <= s < min_saltlen c ->
        min_saltlen c <> -1 /\
        resolveSaltLength c w =
          Failed [mk_err ERR_LIB_PROV PROV_R_PSS_SALTLEN_TOO_SMALL
                         [EInt (min_saltlen c); EInt s]])).
Proof.
  unfold resolveSaltLength, rsa_pss_compute_saltlen, bind.
  pose proof (candidate_frame c w) as Hf.
  destruct (pss_saltlen_candidate c w) as [[r c'] w'].
  destruct Hf as [-> He].
  split.
  - intros n. destruct r as [s |].
    + rewrite range_check_run.
      destruct (Z.ltb_spec s 0); [discriminate |].
      destruct (Z.ltb_spec s (min_saltlen c)); [discriminate |].
      destruct (Z.ltb_spec s 0); [lia |]. intros [= <-]. lia.
    + unfold ret. cbn. discriminate.
  - intros s c1 w1 [= -> <- <-]. specialize (He s eq_refl).
    rewrite range_check_run.
    split.
    + intros Hs. replace (s <? 0) with true by (symmetry; apply Z.ltb_lt; lia).
      cbn -[raised]. erewrite raised_one; [reflexivity | cbn; now rewrite He].
    + intros Hs. split; [lia |].
      replace (s <? 0) with false by (symmetry; apply Z.ltb_ge; lia).
      replace (s <? min_saltlen c) with true by (symmetry; apply Z.ltb_lt; lia).
      cbn -[raised]. erewrite raised_one; [reflexivity | cbn; now rewrite He].
Qed.

(** The resolver reads the context and the key; of the world it changes
    nothing but the error queue (and the fault record, when the key
    pointer is not live). *)
Lemma rsa_pss_compute_saltlen_frame c w :
  let '(_, c', w') := rsa_pss_compute_saltlen c w in
  c' = c /\ w_keys w' = w_keys w /\ w_bufs w' = w_bufs w /\ w_mdctxs w' = w_mdctxs w.
Proof.
  unfold rsa_pss_compute_saltlen, pss_saltlen_range_check, pss_saltlen_candidate,
    ctx_key, the_key. run.
  repeat match goal with
         | |- context [if ?b then _ else _] => destruct b
         | |- context [match ?x with Some _ => _ | None => _ end] => destruct x; run
         end;
    destruct w; cbn; auto.
Qed.

End SaltLength.

(** A 2048-bit key and SHA2-256 under MAX: 256 - 32 - 2 = 222. *)
Lemma resolveSaltLength_max_auto_witness :
  resolveSaltLength (Toy.pss_ctx 1 RSA_PSS_SALTLEN_MAX (-1)) Toy.world0 = OK 222.
Proof.
  etransitivity.
  - apply (resolveSaltLength_max_auto
             (Toy.pss_ctx 1 RSA_PSS_SALTLEN_MAX (-1)) Toy.world0 Toy.key2048).
    + left. reflexivity.
    + exists 1%positive, (mk_RSA_obj Toy.key2048 1). repeat split.
  - vm_compute. reflexivity.
Defined.

(** C1 as stated does not hold: a modulus that holds the digest plus two
    bytes does not make the resolver return [modulusBytes - digestSize
    - 2].  After a sign init on a 2048-bit RSA-PSS key restricted to
    SHA2-256 with a salt of at least 223 bytes, and a request for the
    largest salt, the context is in PSS mode under MAX with a modulus of
    256 bytes, and the resolver fails: 222 is below the floor.  After a
    sign init on a 265-bit key with SHA2-256, PSS padding and the
    largest salt, the modulus of 34 bytes holds the digest plus two, and
    the resolver fails: 34 - 32 - 2 - 1 is negative. *)
Lemma resolveSaltLength_value_rejected :
  let s := Toy.pss223_max in
  let t := Toy.pss265_max in
  ((pad_mode s.1 = RSA_PKCS1_PSS_PADDING) /\ (saltlen s.1 = RSA_PSS_SALTLEN_MAX) /\
   key_is s.1 s.2 Toy.key_pss223 /\
   (EVP_MD_get_size (md s.1) + 2 <= RSA_size Toy.key_pss223) /\
   resolveSaltLength s.1 s.2 =
     Failed [mk_err ERR_LIB_PROV PROV_R_PSS_SALTLEN_TOO_SMALL [EInt 223; EInt 222]]) /\
  ((pad_mode t.1 = RSA_PKCS1_PSS_PADDING) /\ (saltlen t.1 = RSA_PSS_SALTLEN_MAX) /\
   key_is t.1 t.2 Toy.key265 /\
   (EVP_MD_get_size (md t.1) + 2 <= RSA_size Toy.key265) /\
   resolveSaltLength t.1 t.2 = Failed [mk_err ERR_LIB_PROV ERR_R_INTERNAL_ERROR []]).
Proof.
  intros s t. split.
  - split; [vm_compute; reflexivity |]. split; [vm_compute; reflexivity |]. split.
    { exists 7%positive, (mk_RSA_obj Toy.key_pss223 2). vm_compute. repeat split. }
    split; [vm_compute; discriminate | vm_compute; reflexivity].
  - split; [vm_compute; reflexivity |]. split; [vm_compute; reflexivity |]. split.
    { exists 6%positive, (mk_RSA_obj Toy.key265 2). vm_compute. repeat split. }
    split; [vm_compute; discriminate | vm_compute; reflexivity].
Qed.

(** A request of 10 bytes under a floor of 32 is rejected with both numbers. *)
Lemma resolveSaltLength_range_witness :
  resolveSaltLength (Toy.pss_ctx 1 10 32) Toy.world0 =
    Failed [mk_err ERR_LIB_PROV PROV_R_PSS_SALTLEN_TOO_SMALL [EInt 32; EInt 10]].
Proof.
  refine (proj2 (proj2 (proj2 (resolveSaltLength_range (Toy.pss_ctx 1 10 32) Toy.world0)
                         10 _ _ _) _)).
  - apply (candidate_number (Toy.pss_ctx 1 10 32) Toy.world0). vm_compute. discriminate.
  - split; vm_compute; [discriminate | reflexivity].
Defined.


(** ** C5: update, and one-shot calls after it *)

Section UpdateThenOneshot.

Context `{Ext : Externals}.

Lemma update_gate data c w :
  mdctx c <> None -> flag_allow_update c = false ->
  rsa_signverify_message_update data c w =
    (0, c, pushed ERR_LIB_PROV PROV_R_UPDATE_CALL_OUT_OF_ORDER w).
Proof.
  intros Hm Hu. unfold rsa_signverify_message_update. run.
  rewrite bool_decide_false by assumption. now rewrite Hu.
Qed.

Lemma update_clears_oneshot data c w :
  wp (rsa_signverify_message_update data)
     (fun r c' _ => r <> 0 -> flag_allow_oneshot c' = false) c w.
Proof.
  unfold rsa_signverify_message_update.
  apply wp_bind, wp_get_ctx. cbn beta.
  destruct (bool_decide (mdctx c = None)); [now apply wp_ret |].
  destruct (negb (flag_allow_update c)).
  { apply wp_bind, wp_ERR_raise. now apply wp_ret. }
  apply wp_bind, wp_modify_ctx. cbn beta.
  eapply (wp_preserves _ no_oneshot); [auto with calls | reflexivity | auto].
Qed.

Lemma rsa_sign_gate s n tbs c w :
  w_running w = true -> flag_allow_oneshot c = false ->
  rsa_sign s n tbs c w = (failed, c, pushed ERR_LIB_PROV PROV_R_ONESHOT_CALL_OUT_OF_ORDER w).
Proof. intros Hr Ho. unfold rsa_sign. run. rewrite Hr. cbn [negb]. now rewrite Ho. Qed.

Lemma rsa_verify_gate s n tbs c w :
  w_running w = true -> flag_allow_oneshot c = false ->
  rsa_verify s n tbs c w = (0, c, pushed ERR_LIB_PROV PROV_R_ONESHOT_CALL_OUT_OF_ORDER w).
Proof. intros Hr Ho. unfold rsa_verify. run. rewrite Hr. cbn [negb]. now rewrite Ho. Qed.

(** C5. On a message context (one with a running digest): update fails
    with UpdateOutOfOrder when allowUpdate is cleared; an update that
    succeeds leaves allowOneshot cleared; and after it, whatever calls
    other than an init are made in between, a one-shot sign or verify
    fails with OneshotOutOfOrder (the provider being in running state
    when it is called), leaving the context as it was. *)
Theorem update_then_oneshot_out_of_order c w data :
  mdctx c <> None ->
  (flag_allow_update c = false ->
     rsa_signverify_message_update data c w =
       (0, c, pushed ERR_LIB_PROV PROV_R_UPDATE_CALL_OUT_OF_ORDER w)) /\
  (forall r c1 w1,
     rsa_signverify_message_update data c w = (r, c1, w1) -> r <> 0 ->
     flag_allow_oneshot c1 = false /\
     forall ks u c2 w2,
       exec_all ks c1 w1 = (u, c2, w2) -> w_running w2 = true ->
       (forall s n tbs,
          rsa_sign s n tbs c2 w2 =
            (failed, c2, pushed ERR_LIB_PROV PROV_R_ONESHOT_CALL_OUT_OF_ORDER w2)) /\
       (forall s n tbs,
          rsa_verify s n tbs c2 w2 =
            (0, c2, pushed ERR_LIB_PROV PROV_R_ONESHOT_CALL_OUT_OF_ORDER w2))).
Proof.
  intros Hm. split; [now apply update_gate |].
  intros r c1 w1 Hrun Hr.
  assert (H1 : flag_allow_oneshot c1 = false).
  { exact (wp_run _ _ _ _ _ _ _ Hrun (update_clears_oneshot data c w) Hr). }
  split; [exact H1 |].
  intros ks u c2 w2 Hks Hrunning.
  assert (H2 : no_oneshot c2 w2).
  { exact (wp_run _ _ _ _ _ _ _ Hks (exec_all_flags _ ks fi_no_oneshot c1 w1 H1)). }
  split; intros s n tbs; [now apply rsa_sign_gate | now apply rsa_verify_gate].
Qed.

(** The DigestSign / DigestVerify update entry points are the same call
    on a context that is not a fixed signature algorithm's. *)
Lemma rsa_digest_update_is_update data c :
  flag_sigalg c = false ->
  rsa_digest_sign_update data c = rsa_signverify_message_update data c
  /\ rsa_digest_verify_update data c = rsa_signverify_message_update data c.
Proof.
  intros Hs. unfold rsa_digest_sign_update, rsa_digest_verify_update. run.
  now rewrite Hs.
Qed.

End UpdateThenOneshot.

(** DigestSignInit, an update, then a second update and an attempt at
    verify-recover: the one-shot sign that follows is out of order. *)
Lemma update_then_oneshot_witness :
  let s1 := Toy.after (rsa_signverify_message_update [1; 2; 3]) Toy.signmsg in
  let s2 := Toy.after (exec_all [MessageUpdate [4]; VerifyRecover OUT_CALLER 256 [] 0]) s1 in
  rsa_sign OUT_CALLER 256 [9] s2.1 s2.2 =
    (failed, s2.1, pushed ERR_LIB_PROV PROV_R_ONESHOT_CALL_OUT_OF_ORDER s2.2).
Proof.
  intros s1 s2.
  refine (proj1 (proj2 (proj2 (update_then_oneshot_out_of_order
                                 Toy.signmsg.1 Toy.signmsg.2 [1; 2; 3] _)
                          _ s1.1 s1.2 (run_eta _ _ _) _)
                   [MessageUpdate [4]; VerifyRecover OUT_CALLER 256 [] 0]
                   _ s2.1 s2.2 (run_eta _ _ _) _)
            OUT_CALLER 256 [9]).
  - vm_compute. discriminate.
  - vm_compute. discriminate.
  - vm_compute. reflexivity.
Defined.

(** ** C4: calls rejected as out of order *)

Section Rejections.

Context `{Ext : Externals}.

Lemma same_but_errs_pushed l r w : same_but_errs w (pushed l r w).
Proof. reflexivity. Qed.

Lemma gate_rejected_raised c w c' w' :
  gate_rejected c w c' w' -> c' = c /\ same_but_errs w w' /\ rejected_out_of_order w w'.
Proof.
  intros (-> & r & Hr & ->). repeat split.
  exists (mk_err ERR_LIB_PROV r []). split; [| exact Hr].
  rewrite (raised_one w _ (mk_err ERR_LIB_PROV r [])) by reflexivity. now left.
Qed.

Lemma quiet_not_rejected w c' w' :
  quiet w c' w' -> rejected_out_of_order w w' -> False.
Proof.
  intros Hq (e & Hin & Hr).
  rewrite (quiet_raised _ _ _ _ Hq Hin) in Hr. discriminate.
Qed.

Lemma gate_or_quiet_rejected c w code c' w' :
  gate_or_quiet c w code c' w' -> rejected_out_of_order w w' ->
  code = 0 /\ c' = c /\ same_but_errs w w'.
Proof.
  intros [[Hc Hg] | Hq] Hr.
  - destruct (gate_rejected_raised _ _ _ _ Hg) as (? & ? & _). auto.
  - destruct (quiet_not_rejected _ _ _ Hq Hr).
Qed.

Ltac at_gate r :=
  left; split; [reflexivity | split; [reflexivity | exists r; split; reflexivity]].

Lemma update_gate_or_quiet data c w :
  wp (rsa_signverify_message_update data) (fun r c' w' => gate_or_quiet c w r c' w') c w.
Proof.
  assert (Hq := quiet_refl w c).
  unfold rsa_signverify_message_update.
  wp_go (quiet w); first [right; inv_solve | at_gate PROV_R_UPDATE_CALL_OUT_OF_ORDER].
Qed.

Lemma sign_final_gate_or_quiet s n c w :
  wp (rsa_sign_message_final s n) (fun r c' w' => gate_or_quiet c w (r_code r) c' w') c w.
Proof.
  assert (Hq := quiet_refl w c).
  unfold rsa_sign_message_final.
  wp_go (quiet w); first [right; inv_solve | at_gate PROV_R_FINAL_CALL_OUT_OF_ORDER].
Qed.

Lemma verify_final_gate_or_quiet c w :
  wp rsa_verify_message_final (fun r c' w' => gate_or_quiet c w r c' w') c w.
Proof.
  assert (Hq := quiet_refl w c).
  unfold rsa_verify_message_final.
  wp_go (quiet w); first [right; inv_solve | at_gate PROV_R_FINAL_CALL_OUT_OF_ORDER].
Qed.

(** On a context that allows update and final, neither raises an
    out-of-order error. *)
Lemma update_armed w0 data : preserves (armed w0) (rsa_signverify_message_update data).
Proof.
  intros c w Ha. unfold rsa_signverify_message_update.
  wp_go (armed w0); try inv_solve.
  destruct Ha as (_ & Hu & _). rewrite Hu in *. discriminate.
Qed.

Lemma sign_final_armed w0 s n c w :
  armed w0 c w -> wp (rsa_sign_message_final s n) (fun _ c' w' => quiet w0 c' w') c w.
Proof.
  intros (Hq & Hu & Hf). unfold rsa_sign_message_final.
  wp_go (quiet w0); try inv_solve.
  rewrite Hf in *. discriminate.
Qed.

Lemma verify_final_armed w0 c w :
  armed w0 c w -> wp rsa_verify_message_final (fun _ c' w' => quiet w0 c' w') c w.
Proof.
  intros (Hq & Hu & Hf). unfold rsa_verify_message_final.
  wp_go (quiet w0); try inv_solve.
  rewrite Hf in *. discriminate.
Qed.

Lemma armed_of_flags_ok c w :
  flags_ok c w -> flag_allow_oneshot c = true -> armed w c w.
Proof.
  intros [He Ho] H1. specialize (Ho H1). repeat split.
  - apply quiet_refl.
  - exact Ho.
  - congruence.
Qed.

Lemma rsa_sign_gate_or_quiet s n tbs c w :
  flags_ok c w ->
  wp (rsa_sign s n tbs) (fun r c' w' => gate_or_quiet c w (r_code r) c' w') c w.
Proof.
  intros Hok. unfold rsa_sign.
  apply wp_bind, wp_running. cbn beta.
  destruct (negb (w_running w)); [apply wp_ret; right; apply quiet_refl |].
  apply wp_bind, wp_get_ctx. cbn beta.
  destruct (flag_allow_oneshot c) eqn:Ho; cbn [negb].
  2: { apply wp_bind, wp_ERR_raise. apply wp_ret.
       at_gate PROV_R_ONESHOT_CALL_OUT_OF_ORDER. }
  pose proof (armed_of_flags_ok c w Hok Ho) as Ha.
  destruct (operation c =? EVP_PKEY_OP_SIGNMSG).
  - destruct (out_is_null s).
    + eapply wp_mono; [exact (sign_final_armed w s n c w Ha) |].
      intros; right; assumption.
    + apply wp_bind.
      eapply (wp_preserves _ (armed w)); [apply update_armed | exact Ha |].
      intros r c1 w1 H1. cbn beta.
      destruct (r =? 0); [apply wp_ret; right; apply H1 |].
      apply wp_bind.
      eapply wp_mono; [exact (sign_final_armed w s n c1 w1 H1) |].
      intros res c2 w2 H2. apply wp_ret. right. exact H2.
  - eapply (wp_preserves _ (quiet w)); [auto with calls | apply quiet_refl |].
    intros; right; assumption.
Qed.

Lemma rsa_verify_gate_or_quiet s n tbs c w :
  flags_ok c w ->
  wp (rsa_verify s n tbs) (fun r c' w' => gate_or_quiet c w r c' w') c w.
Proof.
  intros Hok. unfold rsa_verify.
  apply wp_bind, wp_running. cbn beta.
  destruct (negb (w_running w)); [apply wp_ret; right; apply quiet_refl |].
  apply wp_bind, wp_get_ctx. cbn beta.
  destruct (flag_allow_oneshot c) eqn:Ho; cbn [negb].
  2: { apply wp_bind, wp_ERR_raise. apply wp_ret.
       at_gate PROV_R_ONESHOT_CALL_OUT_OF_ORDER. }
  pose proof (armed_of_flags_ok c w Hok Ho) as Ha.
  destruct (operation c =? EVP_PKEY_OP_VERIFYMSG).
  - unfold and_then.
    apply wp_bind.
    eapply (wp_preserves _ (armed w)); [auto with calls | exact Ha |].
    intros x c1 w1 H1. cbn beta.
    destruct (x =? 0); [apply wp_ret; right; apply H1 |].
    apply wp_bind, wp_bind.
    eapply (wp_preserves _ (armed w)); [apply update_armed | exact H1 |].
    intros y c2 w2 H2. cbn beta.
    destruct (y =? 0).
    { apply wp_ret. cbn. apply wp_ret. right. apply H2. }
    apply wp_bind.
    eapply wp_mono; [exact (verify_final_armed w c2 w2 H2) |].
    intros z c3 w3 H3. cbn beta.
    destruct (z =? 0); apply wp_ret; cbn; apply wp_ret; right; exact H3.
  - eapply (wp_preserves _ (quiet w)); [auto with calls | apply quiet_refl |].
    intros; right; assumption.
Qed.

(** C4, as amended. When [rsa_signverify_message_update],
    [rsa_sign_message_final], [rsa_verify_message_final], [rsa_sign] or
    [rsa_verify] ends having raised an out-of-order error, it has failed
    and written nothing: the context structure is the one it was called
    with, and the world (keys, buffers, digest contexts, allocator,
    random generator) differs from the one before in its error queue
    only. For the two one-shot calls the context is assumed to have its
    flags in the shape every call keeps ([flags_ok]). *)
Theorem out_of_order_rejection_writes_nothing c w :
  (forall data r c' w',
     rsa_signverify_message_update data c w = (r, c', w') ->
     rejected_out_of_order w w' -> r = 0 /\ c' = c /\ same_but_errs w w') /\
  (forall s n r c' w',
     rsa_sign_message_final s n c w = (r, c', w') ->
     rejected_out_of_order w w' -> r_code r = 0 /\ c' = c /\ same_but_errs w w') /\
  (forall r c' w',
     rsa_verify_message_final c w = (r, c', w') ->
     rejected_out_of_order w w' -> r = 0 /\ c' = c /\ same_but_errs w w') /\
  (flags_ok c w ->
   (forall s n tbs r c' w',
      rsa_sign s n tbs c w = (r, c', w') ->
      rejected_out_of_order w w' -> r_code r = 0 /\ c' = c /\ same_but_errs w w') /\
   (forall s n tbs r c' w',
      rsa_verify s n tbs c w = (r, c', w') ->
      rejected_out_of_order w w' -> r = 0 /\ c' = c /\ same_but_errs w w')).
Proof.
  split; [| split; [| split; [| intros Hok; split]]].
  - intros data r c' w' Hrun Hrej.
    apply (gate_or_quiet_rejected c w _ c' w'); [| exact Hrej].
    exact (wp_run _ _ _ _ _ _ _ Hrun (update_gate_or_quiet data c w)).
  - intros s n r c' w' Hrun Hrej.
    apply (gate_or_quiet_rejected c w _ c' w'); [| exact Hrej].
    exact (wp_run _ _ _ _ _ _ _ Hrun (sign_final_gate_or_quiet s n c w)).
  - intros r c' w' Hrun Hrej.
    apply (gate_or_quiet_rejected c w _ c' w'); [| exact Hrej].
    exact (wp_run _ _ _ _ _ _ _ Hrun (verify_final_gate_or_quiet c w)).
  - intros s n tbs r c' w' Hrun Hrej.
    apply (gate_or_quiet_rejected c w _ c' w'); [| exact Hrej].
    exact (wp_run _ _ _ _ _ _ _ Hrun (rsa_sign_gate_or_quiet s n tbs c w Hok)).
  - intros s n tbs r c' w' Hrun Hrej.
    apply (gate_or_quiet_rejected c w _ c' w'); [| exact Hrej].
    exact (wp_run _ _ _ _ _ _ _ Hrun (rsa_verify_gate_or_quiet s n tbs c w Hok)).
Qed.

End Rejections.

(** A one-shot verify after the digest was consumed: the flags are in
    shape, the call is rejected and has written nothing. *)
Lemma out_of_order_rejection_witness :
  let s := Toy.verify_done in
  let out := rsa_verify (Some [9; 9]) 2 [1; 2; 3] s.1 s.2 in
  flags_ok s.1 s.2 /\ out.1.1 = 0 /\ out.1.2 = s.1 /\ same_but_errs s.2 out.2.
Proof.
  intros s out.
  assert (Hok : flags_ok s.1 s.2) by (vm_compute; split; [reflexivity | discriminate]).
  split; [exact Hok |].
  refine (proj2 (proj2 (proj2 (proj2 (out_of_order_rejection_writes_nothing s.1 s.2))) Hok)
            (Some [9; 9]) 2 [1; 2; 3] _ _ _ (run_eta _ _ _) _).
  exists (mk_err ERR_LIB_PROV PROV_R_ONESHOT_CALL_OUT_OF_ORDER []).
  split; [| reflexivity].
  vm_compute. now left.
Defined.

(** The same second final made through [rsa_digest_verify_final], with
    another signature: it is rejected with FinalOutOfOrder, yet the
    signature staged in the context has been replaced by then. *)
Lemma digest_verify_final_rejected_after_staging :
  let s := Toy.verify_done in
  let out := rsa_digest_verify_final (Some [9; 9]) 2 s.1 s.2 in
  out.1.1 = 0
  /\ raised s.2 out.2 = [mk_err ERR_LIB_PROV PROV_R_FINAL_CALL_OUT_OF_ORDER []]
  /\ Toy.staged s = Some [1; 2; 3] /\ siglen s.1 = 3
  /\ Toy.staged (out.1.2, out.2) = Some [9; 9] /\ siglen out.1.2 = 2.
Proof. vm_compute. repeat split. Qed.

(** ** C8: the signature size query *)

Section SizeQuery.

Context `{Ext : Externals}.

Lemma size_t_of_small z : 0 <= z < 2 ^ 31 -> size_t_of z = z.
Proof. intros Hz. unfold size_t_of. apply Z.mod_small. lia. Qed.

Lemma rsa_sign_directly_null n tbs c w k :
  key_is c w k -> w_running w = true ->
  rsa_sign_directly OUT_NULL n tbs c w =
    (mk_result 1 (Some (size_t_of (RSA_size k))) [], c, w).
Proof.
  intros Hk Hr. unfold rsa_sign_directly. unfold bind at 1.
  rewrite (ctx_key_live _ _ _ Hk). run. now rewrite Hr.
Qed.

Lemma rsa_sign_message_final_null n c w k :
  key_is c w k -> w_running w = true -> mdctx c <> None -> flag_allow_final c = true ->
  rsa_sign_message_final OUT_NULL n c w =
    (mk_result 1 (Some (size_t_of (RSA_size k))) [], c, w).
Proof.
  intros Hk Hr Hm Hf. unfold rsa_sign_message_final. run.
  rewrite Hr. cbn [negb]. rewrite bool_decide_false by assumption.
  rewrite Hf. cbn [negb out_is_null].
  now apply rsa_sign_directly_null.
Qed.

(** A size query never writes the context or the world, whatever it
    returns: at most it raises an error. *)
Lemma size_query_frame c w k :
  key_is c w k ->
  (forall n tbs,
     wp (rsa_sign_directly OUT_NULL n tbs) (fun _ c' w' => c' = c /\ w' = w) c w) /\
  (forall n,
     wp (rsa_sign_message_final OUT_NULL n)
        (fun _ c' w' => c' = c /\ same_but_errs w w') c w) /\
  (forall n tbs,
     wp (rsa_sign OUT_NULL n tbs) (fun _ c' w' => c' = c /\ same_but_errs w w') c w).
Proof.
  intros Hk.
  assert (Hd : forall n tbs,
             wp (rsa_sign_directly OUT_NULL n tbs) (fun _ c' w' => c' = c /\ w' = w) c w).
  { intros n tbs. unfold rsa_sign_directly.
    apply wp_bind, (wp_ctx_key _ _ _ k Hk). cbn beta.
    apply wp_bind, wp_get_ctx. cbn beta.
    apply wp_bind, wp_running. cbn beta.
    now destruct (negb (w_running w)); apply wp_ret. }
  assert (Hf : forall n,
             wp (rsa_sign_message_final OUT_NULL n)
                (fun _ c' w' => c' = c /\ same_but_errs w w') c w).
  { intros n. unfold rsa_sign_message_final.
    apply wp_bind, wp_running. cbn beta.
    destruct (negb (w_running w)); [now apply wp_ret |].
    apply wp_bind, wp_get_ctx. cbn beta.
    destruct (bool_decide (mdctx c = None)); [now apply wp_ret |].
    destruct (negb (flag_allow_final c)).
    { apply wp_bind, wp_ERR_raise. now apply wp_ret. }
    cbn [negb out_is_null].
    eapply wp_mono; [apply Hd |]. now intros ? ? ? [-> ->]. }
  split; [exact Hd | split; [exact Hf |]].
  intros n tbs. unfold rsa_sign.
  apply wp_bind, wp_running. cbn beta.
  destruct (negb (w_running w)); [now apply wp_ret |].
  apply wp_bind, wp_get_ctx. cbn beta.
  destruct (negb (flag_allow_oneshot c)).
  { apply wp_bind, wp_ERR_raise. now apply wp_ret. }
  destruct (operation c =? EVP_PKEY_OP_SIGNMSG); cbn [out_is_null].
  - apply Hf.
  - eapply wp_mono; [apply Hd |]. now intros ? ? ? [-> ->].
Qed.

(** C8, as amended. With the destination buffer absent and the call in
    order (provider running, key set; for a final a running digest and
    allowFinal; for a one-shot sign allowOneshot, and what a final needs
    when the operation is a message one), [rsa_sign_directly],
    [rsa_sign_message_final] and [rsa_sign] return 1 with the modulus byte
    size as the signature length, write no byte, and leave the context
    and the whole world (the running digest, buffers, random generator
    and error queue included) exactly as they were. Through
    [rsa_digest_sign_final] the same holds except that [flag_allow_md]
    ends up set. *)
Theorem size_query_returns_modulus_size c w k :
  key_is c w k -> 0 <= RSA_size k < 2 ^ 31 -> w_running w = true ->
  let size_only := mk_result 1 (Some (RSA_size k)) [] in
  (forall n tbs, rsa_sign_directly OUT_NULL n tbs c w = (size_only, c, w)) /\
  (mdctx c <> None -> flag_allow_final c = true ->
     (forall n, rsa_sign_message_final OUT_NULL n c w = (size_only, c, w)) /\
     (flag_sigalg c = false ->
        forall n, rsa_digest_sign_final OUT_NULL n c w =
                    (size_only, set_flag_allow_md true c, w))) /\
  (flag_allow_oneshot c = true ->
     (operation c = EVP_PKEY_OP_SIGNMSG -> mdctx c <> None /\ flag_allow_final c = true) ->
     forall n tbs, rsa_sign OUT_NULL n tbs c w = (size_only, c, w)).
Proof.
  intros Hk Hsz Hr size_only. subst size_only.
  rewrite <- (size_t_of_small _ Hsz).
  split; [| split].
  - intros n tbs. now apply rsa_sign_directly_null.
  - intros Hm Hf. split.
    + intros n. now apply rsa_sign_message_final_null.
    + intros Hs n. unfold rsa_digest_sign_final. run.
      rewrite Hs. now rewrite (rsa_sign_message_final_null n c w k).
  - intros Ho Hmsg n tbs. unfold rsa_sign. run.
    rewrite Hr. cbn [negb]. rewrite Ho. cbn [negb].
    destruct (Z.eqb_spec (operation c) EVP_PKEY_OP_SIGNMSG) as [Hop | Hop]; cbn [out_is_null].
    + destruct (Hmsg Hop). now apply rsa_sign_message_final_null.
    + now apply rsa_sign_directly_null.
Qed.

End SizeQuery.

(** After DigestSignInit and an update on the 2048-bit key, the size
    query through [rsa_sign_message_final] answers 256 and changes nothing. *)
Lemma size_query_returns_modulus_size_witness :
  let s := Toy.after (rsa_signverify_message_update [1; 2; 3]) Toy.signmsg in
  rsa_sign_message_final OUT_NULL 0 s.1 s.2 = (mk_result 1 (Some 256) [], s.1, s.2).
Proof.
  intros s.
  refine (proj1 (proj1 (proj2 (size_query_returns_modulus_size s.1 s.2 Toy.key2048 _ _ _))
                   _ _) 0).
  - exists 1%positive, (mk_RSA_obj Toy.key2048 2). repeat split; vm_compute; reflexivity.
  - vm_compute. split; [discriminate | reflexivity].
  - vm_compute. reflexivity.
  - vm_compute. discriminate.
  - vm_compute. reflexivity.
Defined.

(** The same query through [rsa_digest_sign_final]: before it the digest
    may not be changed, after it it may. *)
Lemma size_query_digest_sign_final_sets_allow_md :
  let s := Toy.after (rsa_signverify_message_update [1; 2; 3]) Toy.signmsg in
  let s' := Toy.after (rsa_digest_sign_final OUT_NULL 0) s in
  r_code (rsa_digest_sign_final OUT_NULL 0 s.1 s.2).1.1 = 1
  /\ flag_allow_md s.1 = false /\ flag_allow_md s'.1 = true.
Proof. vm_compute. repeat split. Qed.

(** ** The temporary buffer: what the heap calls do to it *)

Section WorkingBuffer.

Context `{Ext : Externals}.

Lemma overlay_length off bytes old : length (overlay off bytes old) = length old.
Proof.
  unfold overlay. rewrite length_take, !length_app, length_take, length_drop. lia.
Qed.

(** Bytes laid over the start of a block that is at least as long. *)
Lemma overlay_prefix bytes old :
  (length bytes <= length old)%nat ->
  overlay 0 bytes old = bytes ++ drop (length bytes) old.
Proof.
  intros Hle. unfold overlay. rewrite take_0. cbn [app Nat.add].
  apply take_ge. rewrite length_app, length_drop. lia.
Qed.

Lemma overlay_all bytes old :
  length bytes = length old -> overlay 0 bytes old = bytes.
Proof.
  intros Hlen. rewrite overlay_prefix by lia.
  rewrite Hlen, drop_all. apply app_nil_r.
Qed.

Lemma key_is_keys c w c' w' k :
  key_is c w k -> rsa c' = rsa c -> w_keys w' = w_keys w -> key_is c' w' k.
Proof. intros (p & o & Hp & Ho & Hk) Hc Hw. exists p, o. now rewrite Hc, Hw. Qed.

Lemma tbuf_holds_le c w n m : tbuf_holds c w n -> (m <= n)%nat -> tbuf_holds c w m.
Proof. intros Hh Hle p Hp. destruct (Hh p Hp) as (b & Hb & Hn). exists b. split; [exact Hb | lia]. Qed.

Lemma tbuf_sized_holds c w k : tbuf_sized c w k -> tbuf_holds c w (tbuf_len k).
Proof. intros Hs p Hp. destruct (Hs p Hp) as (b & Hb & Hn). exists b. split; [exact Hb | lia]. Qed.

(** The working block of a state whose buffer holds [n] bytes has room
    for them, as long as a fresh block would. *)
Lemma working_block_holds c w k n :
  tbuf_holds c w n -> (tbuf c = None -> (n <= tbuf_len k)%nat) ->
  (n <= length (working_block c w k))%nat.
Proof.
  intros Hh Hnew. unfold working_block.
  destruct (tbuf c) as [p |] eqn:Hp.
  - destruct (Hh p Hp) as (b & -> & Hn). exact Hn.
  - rewrite length_resize. now apply Hnew.
Qed.

Lemma working_block_sized c w k :
  tbuf_sized c w k -> length (working_block c w k) = tbuf_len k.
Proof.
  intros Hs. unfold working_block.
  destruct (tbuf c) as [p |] eqn:Hp.
  - destruct (Hs p Hp) as (b & -> & Hn). exact Hn.
  - apply length_resize.
Qed.

(** The working block depends on the buffer pointer, the blocks and what
    a fresh block holds. *)
Lemma working_block_same c w c' w' k :
  tbuf c' = tbuf c -> w_bufs w' = w_bufs w -> w_junk w' = w_junk w ->
  working_block c' w' k = working_block c w k.
Proof. intros Hc Hb Hj. unfold working_block. now rewrite Hc, Hb, Hj. Qed.

(** Zeros laid over the start of a block that is at least as long. *)
Lemma overlay_zeros n old :
  (n <= length old)%nat -> overlay 0 (replicate n 0) old = replicate n 0 ++ drop n old.
Proof.
  intros Hle. rewrite overlay_prefix by (now rewrite length_replicate).
  now rewrite length_replicate.
Qed.

(** A cleansed buffer with nothing after the modulus size is zero
    throughout. *)
Lemma tbuf_cleansed_all c w k : tbuf_cleansed c w k 0 -> tbuf_zeroed c w k.
Proof.
  intros (p & tail & Hp & Hb & Hlen). exists p. split; [exact Hp |].
  apply nil_length_inv in Hlen. subst tail. now rewrite app_nil_r in Hb.
Qed.

(** Writing through a live pointer replaces the block by the overlay;
    keys and errors are as they were. *)
Lemma wp_write_buf (Q : unit -> PROV_RSA_CTX -> world -> Prop) p off bytes c w b :
  w_bufs w !! p = Some b ->
  (forall w', w_bufs w' !! p = Some (overlay off bytes b) ->
              w_keys w' = w_keys w -> w_errs w' = w_errs w ->
              w_running w' = w_running w -> Q tt c w') ->
  wp (write_buf (Some p) off bytes) Q c w.
Proof.
  intros Hb HQ. unfold write_buf, wp. do 3 run. rewrite Hb.
  destruct (_ <? _)%nat; cbn; apply HQ; cbn;
    first [apply lookup_insert_eq | reflexivity].
Qed.

(** The same, with the fault a write past the end of the block records. *)
Lemma wp_write_buf_faults (Q : unit -> PROV_RSA_CTX -> world -> Prop) p off bytes c w b :
  w_bufs w !! p = Some b ->
  (forall w', w_bufs w' !! p = Some (overlay off bytes b) ->
              w_keys w' = w_keys w -> w_errs w' = w_errs w ->
              w_running w' = w_running w ->
              w_faults w' = (if (length b <? off + length bytes)%nat
                             then BufferOverflow p :: w_faults w else w_faults w) ->
              Q tt c w') ->
  wp (write_buf (Some p) off bytes) Q c w.
Proof.
  intros Hb HQ. unfold write_buf, wp. do 3 run. rewrite Hb.
  destruct (_ <? _)%nat; cbn; apply HQ; cbn;
    first [apply lookup_insert_eq | reflexivity].
Qed.

(** A write that stays within the block records no fault. *)
Lemma wp_write_buf_within (Q : unit -> PROV_RSA_CTX -> world -> Prop) p off bytes c w b :
  w_bufs w !! p = Some b -> (off + length bytes <= length b)%nat ->
  (forall w', w_bufs w' !! p = Some (overlay off bytes b) ->
              w_keys w' = w_keys w -> w_errs w' = w_errs w ->
              w_running w' = w_running w -> w_faults w' = w_faults w -> Q tt c w') ->
  wp (write_buf (Some p) off bytes) Q c w.
Proof.
  intros Hb Hfit HQ. apply (wp_write_buf_faults _ _ _ _ _ _ b Hb).
  intros w' H1 H2 H3 H4 H5. apply HQ; try assumption.
  rewrite H5. destruct (Nat.ltb_spec (length b) (off + length bytes)); [lia | reflexivity].
Qed.

Lemma wp_read_buf (Q : list Z -> PROV_RSA_CTX -> world -> Prop) p c w b :
  w_bufs w !! p = Some b -> Q b c w -> wp (read_buf (Some p)) Q c w.
Proof. intros Hb HQ. unfold read_buf, wp. do 3 run. now rewrite Hb. Qed.

Lemma wp_read_byte (Q : Z -> PROV_RSA_CTX -> world -> Prop) p i c w b x :
  w_bufs w !! p = Some b -> b !! Z.to_nat i = Some x -> Q x c w ->
  wp (read_byte (Some p) i) Q c w.
Proof.
  intros Hb Hx HQ. unfold read_byte. apply wp_bind, (wp_read_buf _ _ _ _ b Hb).
  rewrite Hx. now apply wp_ret.
Qed.

(** [setup_tbuf]: either the buffer cannot be had, and nothing has
    changed, or the context points to the working block, which is the
    block it pointed to before if there was one. *)
Lemma wp_setup_tbuf (Q : Z -> PROV_RSA_CTX -> world -> Prop) c w k :
  key_is c w k -> tbuf_holds c w 0 ->
  (forall w', tbuf c = None -> w_bufs w' = w_bufs w -> w_keys w' = w_keys w ->
              w_errs w' = w_errs w ->
              (0 < RSA_size k -> hd true (w_alloc w) = false) -> Q 0 c w') ->
  (forall p w', w_bufs w' !! p = Some (working_block c w k) ->
                w_keys w' = w_keys w -> w_errs w' = w_errs w ->
                w_running w' = w_running w -> w_entropy w' = w_entropy w ->
                w_faults w' = w_faults w ->
                Q 1 (set_tbuf (Some p) c) w') ->
  wp setup_tbuf Q c w.
Proof.
  intros Hk Hs Hfail Hok. unfold setup_tbuf.
  apply wp_bind, wp_get_ctx. unfold working_block in Hok.
  destruct (tbuf c) as [p |] eqn:Hp.
  - apply wp_ret. destruct (Hs p Hp) as (b & Hb & _).
    replace c with (set_tbuf (Some p) c) at 1
      by (unfold set_tbuf; rewrite <- Hp; reflexivity).
    apply (Hok p); try reflexivity. now rewrite Hb.
  - apply wp_bind, (wp_ctx_key _ _ _ k Hk).
    unfold OPENSSL_malloc, alloc_succeeds, wp. do 3 run.
    assert (Hc : set_tbuf None c = c)
      by (unfold set_tbuf; rewrite <- Hp; reflexivity).
    destruct (RSA_size k <=? 0) eqn:Hsz; cbn.
    { rewrite Hc. apply Hfail; auto. lia. }
    destruct (w_alloc w) as [| [|] rest]; cbn.
    + apply Hok; cbn; first [apply lookup_insert_eq | reflexivity].
    + apply Hok; cbn; first [apply lookup_insert_eq | reflexivity].
    + rewrite Hc. apply Hfail; auto.
Qed.

(** [clean_tbuf] lays zeros of the modulus size over the block, past
    its end if the block is shorter. *)
Lemma wp_clean_tbuf (Q : unit -> PROV_RSA_CTX -> world -> Prop) p c w b k :
  tbuf c = Some p -> key_is c w k ->
  w_bufs w !! p = Some b ->
  (forall w', w_bufs w' !! p = Some (overlay 0 (replicate (tbuf_len k) 0) b) ->
              w_keys w' = w_keys w -> w_errs w' = w_errs w ->
              w_running w' = w_running w ->
              w_faults w' = (if (length b <? tbuf_len k)%nat
                             then BufferOverflow p :: w_faults w else w_faults w) ->
              Q tt c w') ->
  wp clean_tbuf Q c w.
Proof.
  intros Hp Hk Hb HQ. unfold clean_tbuf.
  apply wp_bind, wp_get_ctx. rewrite Hp.
  apply wp_bind, (wp_ctx_key _ _ _ k Hk).
  unfold OPENSSL_cleanse. apply (wp_write_buf_faults _ _ _ _ _ _ b Hb).
  intros w' H1 H2 H3 H4 H5. apply HQ; try assumption.
  rewrite H5. cbn [Nat.add]. now rewrite length_replicate.
Qed.

End WorkingBuffer.

(** ** C7: binding a digest while the digest may not change *)

Section BindDigest.

Context `{Ext : Externals}.

(** The padding check reads the context and, at most, raises an error. *)
Lemma rsa_check_padding_frame a b n c w :
  (rsa_check_padding a b n c w).1.2 = c /\
  same_but_errs w (rsa_check_padding a b n c w).2.
Proof.
  unfold rsa_check_padding. do 3 run.
  repeat (destruct (_ : bool)); split; reflexivity.
Qed.

(** When it passes it has raised nothing. *)
Lemma rsa_check_padding_pass a b n c w :
  (rsa_check_padding a b n c w).1.1 <> 0 -> rsa_check_padding a b n c w = (1, c, w).
Proof.
  unfold rsa_check_padding. do 3 run.
  repeat (destruct (_ : bool)); cbn; intros H; solve [reflexivity | now destruct H].
Qed.

(** C7, as amended.  On a context whose [flag_allow_md] is clear,
    [rsa_setup_md] with a digest name never changes a field of the
    context, nor anything the context points to, whatever it returns.
    When the name resolves to a digest that passes the earlier checks
    (it has a NID for RSA signatures, is no XOF, suits the pad mode, and
    its name fits the name field), the digest is compared, by
    [EVP_MD_is_a], with the digest name the context records in
    [mdname], not with the digest [md] it holds: with a name recorded,
    the call fails with DIGEST_NOT_ALLOWED if [EVP_MD_is_a] tells the
    fetched digest apart from that name, and returns 1 if it identifies
    them; with no name recorded it returns 1, whatever the digest. *)
Theorem rsa_setup_md_digest_change_not_allowed name props c w md' :
  flag_allow_md c = false ->
  EVP_MD_fetch name (or_default props (propq c)) = Some md' ->
  ossl_digest_rsa_sign_get_md_nid md' <> NID_undef ->
  EVP_MD_xof md' = false ->
  (rsa_check_padding (Some name) None (ossl_digest_rsa_sign_get_md_nid md') c w).1.1 <> 0 ->
  Z.of_nat (String.length name) < OSSL_MAX_NAME_SIZE ->
  let out := rsa_setup_md (Some name) props c w in
  (mdname c <> EmptyString -> EVP_MD_is_a (Some md') (mdname c) = false ->
     out = (0, c,
            set_w_errs (mk_err ERR_LIB_PROV PROV_R_DIGEST_NOT_ALLOWED
                          [EStr name; EStr (mdname c)] :: w_errs w) w)) /\
  (EVP_MD_is_a (Some md') (mdname c) = true -> out = (1, c, w)) /\
  (mdname c = EmptyString -> out = (1, c, w)).
Proof.
  intros Hflag Hfetch Hnid Hxof Hpad Hlen out. subst out.
  apply rsa_check_padding_pass in Hpad.
  unfold rsa_setup_md. do 3 run. rewrite Hfetch.
  apply Z.eqb_neq in Hnid. rewrite Hnid, Hxof, Hpad. cbn.
  apply Z.leb_gt in Hlen. rewrite Hlen, Hflag. cbn.
  split; [| split].
  - intros Hname Hdiff. rewrite Hdiff.
    apply String.eqb_neq in Hname. now rewrite Hname.
  - intros Hsame. rewrite Hsame. now rewrite andb_false_r.
  - intros ->. reflexivity.
Qed.

(** Whatever [rsa_setup_md] answers on such a context, it has written
    nothing but errors. *)
Lemma rsa_setup_md_frame name props c w :
  flag_allow_md c = false ->
  (rsa_setup_md name props c w).1.2 = c /\
  same_but_errs w (rsa_setup_md name props c w).2.
Proof.
  intros Hflag. unfold rsa_setup_md. do 3 run.
  destruct name as [name |]; [| now split].
  destruct (EVP_MD_fetch _ _) as [md' |]; [| now split].
  destruct (_ =? NID_undef); [now split |].
  destruct (EVP_MD_xof md'); [now split |].
  destruct (rsa_check_padding_frame (Some name) None
              (ossl_digest_rsa_sign_get_md_nid md') c w) as [Hc Hw].
  destruct (rsa_check_padding _ _ _ c w) as [[ok c1] w1]. cbn in Hc, Hw. subst c1.
  destruct (ok =? 0); [now split |].
  destruct (_ <=? _); [now split |].
  rewrite Hflag. cbn.
  destruct (_ && _); now split.
Qed.

End BindDigest.

(** After DigestSignInit with SHA2-256 the digest may not change: SHA1
    is refused, the alias SHA256 of the bound digest is accepted. *)
Lemma rsa_setup_md_digest_change_not_allowed_witness :
  let s := Toy.signmsg in
  flag_allow_md s.1 = false /\
  rsa_setup_md (Some "SHA1") None s.1 s.2 =
    (0, s.1,
     set_w_errs (mk_err ERR_LIB_PROV PROV_R_DIGEST_NOT_ALLOWED
                   [EStr "SHA1"; EStr (mdname s.1)] :: w_errs s.2) s.2) /\
  rsa_setup_md (Some "SHA256") None s.1 s.2 = (1, s.1, s.2).
Proof.
  intros s.
  assert (Hflag : flag_allow_md s.1 = false) by (vm_compute; reflexivity).
  split; [exact Hflag |]. split.
  - refine (proj1 (rsa_setup_md_digest_change_not_allowed
                     "SHA1" None s.1 s.2 Toy.SHA1_md Hflag _ _ _ _ _) _ _);
      vm_compute; first [reflexivity | discriminate].
  - refine (proj1 (proj2 (rsa_setup_md_digest_change_not_allowed
                     "SHA256" None s.1 s.2 Toy.SHA256_md Hflag _ _ _ _ _)) _);
      vm_compute; first [reflexivity | discriminate].
Defined.

(** C7 as stated does not hold.  DigestSignInit with SHA1 on an RSA
    key, then a sign init of the same context on an RSA-PSS key
    restricted to SHA2-256: the init writes the name SHA2-256 to
    [mdname] and, the digest not being allowed to change, binds
    nothing, so the context holds SHA1 under the name SHA2-256; binding
    SHA1, the very digest bound, is refused with DIGEST_NOT_ALLOWED.
    After a DigestSignInit that names no digest, nothing is bound and
    no name is recorded: binding SHA1 returns 1, and binds nothing. *)
Lemma rsa_setup_md_compares_with_recorded_name :
  let s := Toy.sha1_then_pss in
  let t := Toy.no_digest in
  ((flag_allow_md s.1 = false) /\ (md s.1 = Some Toy.SHA1_md) /\
   (mdname s.1 = "SHA2-256") /\
   (EVP_MD_fetch "SHA1" (propq s.1) = md s.1) /\
   rsa_setup_md (Some "SHA1") None s.1 s.2 =
     (0, s.1,
      set_w_errs (mk_err ERR_LIB_PROV PROV_R_DIGEST_NOT_ALLOWED
                    [EStr "SHA1"; EStr "SHA2-256"] :: w_errs s.2) s.2)) /\
  ((flag_allow_md t.1 = false) /\ (md t.1 = None) /\ (mdname t.1 = EmptyString) /\
   rsa_setup_md (Some "SHA1") None t.1 t.2 = (1, t.1, t.2)).
Proof.
  intros s t. repeat split; vm_compute; reflexivity.
Qed.

(** A refused digest change on the toy context leaves context and world
    as they were, the error apart. *)
Lemma rsa_setup_md_frame_witness :
  let s := Toy.signmsg in
  let out := rsa_setup_md (Some "SHA1") None s.1 s.2 in
  flag_allow_md s.1 = false /\ out.1.2 = s.1 /\ same_but_errs s.2 out.2.
Proof.
  intros s out.
  assert (Hflag : flag_allow_md s.1 = false) by (vm_compute; reflexivity).
  split; [exact Hflag |].
  exact (rsa_setup_md_frame (Some "SHA1") None s.1 s.2 Hflag).
Defined.

(** ** C10: the fixed signature algorithms refuse RSA-PSS keys *)

Section SigalgInit.

Context `{Ext : Externals}.

(** Taking the caller's key: the reference is counted, the key the
    context held is released, and the context holds the caller's key. *)
Lemma take_key_live (p : positive) o c w :
  w_keys w !! p = Some o -> (0 < obj_references o)%nat ->
  wp (bind (RSA_up_ref (Some p)) (fun r =>
        if r =? 0 then ret false
        else bind (RSA_free (rsa c)) (fun _ =>
             bind (modify_ctx (set_rsa (Some p))) (fun _ => ret true))))
     (fun ok c' w' => ok = true /\ key_is c' w' (obj_key o)) c w.
Proof.
  intros Hp Href. unfold RSA_up_ref, RSA_free, wp. do 3 run. rewrite Hp. cbn.
  destruct (rsa c) as [q |]; cbn.
  - destruct (decide (q = p)) as [-> | Hne].
    + rewrite lookup_insert_eq. cbn.
      destruct (obj_references o) as [| n]; [lia |]. cbn.
      split; [reflexivity |].
      exists p, (mk_RSA_obj (obj_key o) (S n)). cbn.
      now rewrite lookup_insert_eq.
    + rewrite lookup_insert_ne by congruence.
      destruct (w_keys w !! q) as [o' |] eqn:Hq; cbn.
      * destruct (obj_references o') as [| [| n]]; cbn;
          (split; [reflexivity |]);
          exists p, (mk_RSA_obj (obj_key o) (S (obj_references o))); cbn;
          (split; [reflexivity |]);
          [ rewrite lookup_delete_ne by congruence
          | rewrite lookup_delete_ne by congruence
          | rewrite lookup_insert_ne by congruence ];
          now rewrite lookup_insert_eq.
      * split; [reflexivity |].
        exists p, (mk_RSA_obj (obj_key o) (S (obj_references o))). cbn.
        now rewrite lookup_insert_eq.
  - split; [reflexivity |].
    exists p, (mk_RSA_obj (obj_key o) (S (obj_references o))). cbn.
    now rewrite lookup_insert_eq.
Qed.



End SigalgInit.


(** ** C9: verify-recover under X9.31 padding *)

Section VerifyRecover.

Context `{Ext : Externals}.

(** On a context in X931 pad mode with a digest bound (provider running,
    key set), [rsa_verify_recover] into a caller's buffer applies
    [RSA_public_decrypt] with X9.31 padding; with [r] the count it
    returns and [recovered] the bytes it wrote, the call fails with
    RSA_LIB if [r < 1]; it takes the byte at [r - 1] as the trailer and
    fails with ALGORITHM_MISMATCH if that differs from
    [RSA_X931_hash_id] of the bound digest; it fails with
    INVALID_DIGEST_LENGTH if the length left, [r - 1], differs from the
    digest size; it fails with OUTPUT_BUFFER_TOO_SMALL if the caller's
    buffer is shorter; otherwise it returns exactly the first [r - 1],
    that is digest-size, recovered bytes.  This holds wherever the
    temporary buffer takes the bytes recovered: a buffer left by earlier
    calls may have any size that holds them, also one allocated for
    another key; an absent one is allocated with the modulus size.  The
    call then stays within the buffer: it records no fault. *)
Theorem verify_recover_x931 routsize sig' siglen' c w k m :
  w_running w = true -> key_is c w k ->
  pad_mode c = RSA_X931_PADDING -> md c = Some m ->
  let r := (RSA_public_decrypt (int_of siglen') sig' k RSA_X931_PADDING).1 in
  let recovered := (RSA_public_decrypt (int_of siglen') sig' k RSA_X931_PADDING).2 in
  let n := r - 1 in
  tbuf_takes c w k (length recovered) ->
  (Z.to_nat r <= length recovered)%nat ->
  r < 2 ^ 31 ->
  (verifyRecover routsize sig' siglen' c w =
    if r <? 1 then Failed [mk_err ERR_LIB_PROV ERR_R_RSA_LIB []]
    else if negb (default 0 (recovered !! Z.to_nat n) =? RSA_X931_hash_id (mdnid c))
    then Failed [mk_err ERR_LIB_PROV PROV_R_ALGORITHM_MISMATCH []]
    else if negb (n =? EVP_MD_get_size (md c))
    then Failed [mk_err ERR_LIB_PROV PROV_R_INVALID_DIGEST_LENGTH
                        [EInt (EVP_MD_get_size (md c)); EInt n]]
    else if routsize <? n
    then Failed [mk_err ERR_LIB_PROV PROV_R_OUTPUT_BUFFER_TOO_SMALL
                        [EInt routsize; EInt n]]
    else OK (take (Z.to_nat (EVP_MD_get_size (md c))) recovered)) /\
  w_faults (rsa_verify_recover OUT_CALLER routsize sig' siglen' c w).2 = w_faults w.
Proof.
  intros Hrun Hk Hpad Hmd r recovered n [Hh Hal] Hcount Hint.
  assert (Hfit : (length recovered <= length (working_block c w k))%nat).
  { apply working_block_holds; [exact Hh |]. intros Hnone. now apply Hal. }
  unfold verifyRecover.
  match goal with
  | |- _ = ?rhs /\ _ =>
      enough (H : wp (rsa_verify_recover OUT_CALLER routsize sig' siglen')
                     (fun res _ w' =>
                        (if r_code res =? 0 then Failed (raised w w')
                         else OK (r_bytes res)) = rhs /\
                        w_faults w' = w_faults w) c w)
  end.
  { unfold wp in H.
    now destruct (rsa_verify_recover OUT_CALLER routsize sig' siglen' c w) as [[res c'] w']. }
  unfold rsa_verify_recover.
  apply wp_bind, wp_running. rewrite Hrun. cbn [negb].
  apply wp_bind, (wp_ctx_key _ _ _ k Hk).
  apply wp_bind, wp_get_ctx. cbn [out_is_null]. rewrite Hmd, Hpad, Z.eqb_refl.
  apply wp_bind, (wp_setup_tbuf _ _ _ k Hk).
  { apply (tbuf_holds_le c w (length recovered)); [exact Hh | lia]. }
  { intros w' Hnone _ _ _ Hno. destruct (Hal Hnone) as (Hpos & Hyes & _).
    rewrite (Hno Hpos) in Hyes. discriminate. }
  intros p w1 Hb Hkeys Herrs _ _ Hf. cbn [Z.eqb].
  set (b := working_block c w k) in *.
  apply wp_bind, wp_get_ctx.
  subst r recovered n.
  destruct (RSA_public_decrypt (int_of siglen') sig' k RSA_X931_PADDING)
    as [r recovered].
  cbn [fst snd] in *.
  change (tbuf (set_tbuf (Some p) c)) with (Some p).
  change (mdnid (set_tbuf (Some p) c)) with (mdnid c).
  change (md (set_tbuf (Some p) c)) with (md c). rewrite Hmd.
  apply wp_bind, (wp_write_buf_within _ _ _ _ _ _ b Hb); [cbn; lia |].
  intros w2 Hb2 _ Herrs2 _ Hf2.
  assert (Hlook : w_bufs w2 !! p = Some (recovered ++ drop (length recovered) b)).
  { rewrite Hb2, overlay_prefix by lia. reflexivity. }
  destruct (r <? 1) eqn:Hr.
  { apply wp_bind, wp_ERR_raise. apply wp_ret. cbn -[raised].
    rewrite (raised_one _ _ (mk_err ERR_LIB_PROV ERR_R_RSA_LIB []))
      by (cbn; congruence).
    split; [reflexivity | congruence]. }
  apply Z.ltb_ge in Hr.
  destruct (recovered !! Z.to_nat (r - 1)) as [x |] eqn:Hx;
    [| apply lookup_ge_None in Hx; lia].
  apply wp_bind, (wp_read_byte _ _ _ _ _ _ x Hlook);
    [rewrite lookup_app_l by (apply lookup_lt_is_Some; eauto); exact Hx |].
  change (default 0 (Some x)) with x.
  destruct (negb (x =? RSA_X931_hash_id (mdnid c))).
  { apply wp_bind, wp_ERR_raise. apply wp_ret. cbn -[raised].
    rewrite (raised_one _ _ (mk_err ERR_LIB_PROV PROV_R_ALGORITHM_MISMATCH []))
      by (cbn; congruence).
    split; [reflexivity | congruence]. }
  destruct (negb (r - 1 =? EVP_MD_get_size (Some m))) eqn:Hsize.
  { apply wp_bind, wp_ERR_raise_data. apply wp_ret. cbn -[raised].
    erewrite raised_one by (cbn; rewrite Herrs2, Herrs; reflexivity).
    split; [reflexivity | congruence]. }
  apply negb_false_iff, Z.eqb_eq in Hsize.
  rewrite size_t_of_small by lia.
  destruct (routsize <? r - 1).
  { apply wp_bind, wp_ERR_raise_data. apply wp_ret. cbn -[raised].
    erewrite raised_one by (cbn; rewrite Herrs2, Herrs; reflexivity).
    split; [reflexivity | congruence]. }
  apply wp_bind, (wp_read_buf _ _ _ _ _ Hlook). apply wp_ret. cbn.
  rewrite take_app_le by lia. rewrite Hsize. split; [reflexivity | congruence].
Qed.

End VerifyRecover.

(** The X9.31 signature of a 32-byte digest, recovered on the 1024-bit
    toy key by a context that was used with the 2048-bit key before:
    the temporary buffer is the block of 256 bytes allocated then. *)
Lemma verify_recover_x931_witness :
  let s := Toy.x931_recover_then 1 5 in
  let sig' := Toy.framed Toy.key1024 (Toy.digest32 ++ [0x34]) in
  (w_running s.2 = true /\ key_is s.1 s.2 Toy.key1024 /\
   (length <$> tbuf_block s.1 s.2 = Some 256%nat) /\
   tbuf_takes s.1 s.2 Toy.key1024 33) /\
  (verifyRecover 32 sig' 128 s.1 s.2 = OK Toy.digest32) /\
  w_faults (rsa_verify_recover OUT_CALLER 32 sig' 128 s.1 s.2).2 = w_faults s.2.
Proof.
  intros s sig'.
  assert (Hrun : w_running s.2 = true) by (vm_compute; reflexivity).
  assert (Hk : key_is s.1 s.2 Toy.key1024).
  { exists 5%positive, (mk_RSA_obj Toy.key1024 2). vm_compute. repeat split. }
  assert (Hlen : length <$> tbuf_block s.1 s.2 = Some 256%nat) by (vm_compute; reflexivity).
  assert (Htakes : tbuf_takes s.1 s.2 Toy.key1024 33).
  { split.
    - intros p Hp. destruct (tbuf_block s.1 s.2) as [b |] eqn:Hb; [| discriminate Hlen].
      exists b. unfold tbuf_block in Hb. rewrite Hp in Hb. split; [exact Hb |].
      injection Hlen as ->. lia.
    - intros Hnone. vm_compute in Hnone. discriminate. }
  split; [exact (conj Hrun (conj Hk (conj Hlen Htakes))) |].
  pose proof (verify_recover_x931 32 sig' 128 s.1 s.2 Toy.key1024 Toy.SHA256_md
                Hrun Hk eq_refl eq_refl) as H.
  cbv zeta in H. specialize (H Htakes).
  destruct H as [Hout Hfaults].
  - vm_compute. lia.
  - vm_compute. reflexivity.
  - split; [| exact Hfaults].
    etransitivity; [exact Hout |]. vm_compute. reflexivity.
Defined.

(** C9 at an input where the code leaves it.  A context is used for an
    X9.31 verify-recover with the 1024-bit key, which allocates the
    temporary buffer with 128 bytes, and is then initialised for the
    2048-bit key: the init replaces the key and keeps the buffer.  A
    signature of that key that carries 200 bytes is then recovered into
    the 128-byte block: the call writes past its end, and reads the
    trailer past its end. *)
Lemma verify_recover_overruns_stale_tbuf :
  let s := Toy.x931_recover_then 5 1 in
  let sig' := Toy.framed Toy.key2048 (seqZ 1 199 ++ [0x34]) in
  let out := rsa_verify_recover OUT_CALLER 32 sig' 256 s.1 s.2 in
  (pad_mode s.1 = RSA_X931_PADDING) /\ (md s.1 = Some Toy.SHA256_md) /\
  key_is s.1 s.2 Toy.key2048 /\
  (length <$> tbuf_block s.1 s.2 = Some 128%nat) /\
  (w_faults s.2 = []) /\
  ((RSA_public_decrypt (Externals := Toy.externals)
      256 sig' Toy.key2048 RSA_X931_PADDING).1 = 200) /\
  (length (RSA_public_decrypt (Externals := Toy.externals)
             256 sig' Toy.key2048 RSA_X931_PADDING).2 = 200%nat) /\
  exists p, tbuf s.1 = Some p /\
            w_faults out.2 = [BufferOverflow p; BufferOverflow p].
Proof.
  intros s sig' out.
  split; [vm_compute; reflexivity |]. split; [vm_compute; reflexivity |]. split.
  { exists 1%positive, (mk_RSA_obj Toy.key2048 2). vm_compute. repeat split. }
  split; [vm_compute; reflexivity |]. split; [vm_compute; reflexivity |].
  split; [vm_compute; reflexivity |]. split; [vm_compute; reflexivity |].
  exists 1%positive. split; vm_compute; reflexivity.
Qed.

(** ** C3: the temporary buffer after the sign transform *)

Section SignBuffer.

Context `{Ext : Externals}.

(** The end of the two cases that hand the temporary buffer to the
    private-key operation: [clean_tbuf], then the result.  A block that
    holds the modulus size is left with zeros over it; on a shorter one
    [clean_tbuf] writes past the end. *)
Lemma clean_then_end r written p b c w k (Q : result -> PROV_RSA_CTX -> world -> Prop) :
  tbuf c = Some p -> key_is c w k ->
  w_bufs w !! p = Some b ->
  (forall res w',
     ((tbuf_len k <= length b)%nat ->
      w_bufs w' !! p = Some (replicate (tbuf_len k) 0 ++ drop (tbuf_len k) b)) ->
     ((length b < tbuf_len k)%nat -> w_faults w' = BufferOverflow p :: w_faults w) ->
     Q res c w') ->
  wp (bind clean_tbuf (fun _ =>
        if r <=? 0
        then bind (ERR_raise ERR_LIB_PROV ERR_R_RSA_LIB)
                  (fun _ => ret (mk_result 0 None written))
        else ret (mk_result 1 (Some (size_t_of r)) written))) Q c w.
Proof.
  intros Hp Hk Hb HQ.
  apply wp_bind, (wp_clean_tbuf _ p _ _ b k Hp Hk Hb).
  intros w' Hz _ _ _ Hf.
  assert (Hzero : (tbuf_len k <= length b)%nat ->
                  w_bufs w' !! p = Some (replicate (tbuf_len k) 0 ++ drop (tbuf_len k) b))
    by (intros Hle; now rewrite overlay_zeros in Hz).
  assert (Hover : (length b < tbuf_len k)%nat ->
                  w_faults w' = BufferOverflow p :: w_faults w).
  { intros Hlt. rewrite Hf.
    destruct (Nat.ltb_spec (length b) (tbuf_len k)); [reflexivity | lia]. }
  destruct (r <=? 0).
  - apply wp_bind, wp_ERR_raise. apply wp_ret. now apply HQ.
  - apply wp_ret. now apply HQ.
Qed.

(** What such an end leaves, in terms of the state the call started
    from: zeros over the modulus size, then what the block had beyond
    it; zeros only where the block had the modulus size. *)
Lemma cleansed_end c w c' w' k p b :
  tbuf c' = Some p ->
  w_bufs w' !! p = Some (replicate (tbuf_len k) 0 ++ drop (tbuf_len k) b) ->
  length b = length (working_block c w k) ->
  tbuf_cleansed c' w' k (length (working_block c w k) - tbuf_len k) /\
  (tbuf_sized c w k -> tbuf_zeroed c' w' k).
Proof.
  intros Hp Hb Hlen.
  assert (Hc : tbuf_cleansed c' w' k (length (working_block c w k) - tbuf_len k)).
  { exists p, (drop (tbuf_len k) b). repeat split; [exact Hp | exact Hb |].
    rewrite length_drop. now rewrite Hlen. }
  split; [exact Hc |].
  intros Hs. apply tbuf_cleansed_all.
  rewrite (working_block_sized c w k Hs), Nat.sub_diag in Hc. exact Hc.
Qed.

(** The PSS restriction check reads the context and may raise. *)
Lemma sign_pss_restrictions_ok_frame c w :
  wp sign_pss_restrictions_ok (fun _ c' w' => c' = c /\ same_but_errs w w') c w.
Proof.
  unfold sign_pss_restrictions_ok, wp. run.
  repeat match goal with
         | |- context [if ?b then _ else _] => destruct b
         end; split; reflexivity.
Qed.

(** What the other end leaves: the fault of the overrun. *)
Lemma overrun_end c w c' w' k p (b : list Z) :
  tbuf c' = Some p ->
  length b = length (working_block c w k) ->
  (length b < tbuf_len k)%nat ->
  (exists rest, w_faults w' = BufferOverflow p :: rest) ->
  (length (working_block c w k) < tbuf_len k)%nat /\ tbuf_overrun c' w'.
Proof.
  intros Hp Hlen Hlt [rest Hf]. split; [now rewrite <- Hlen |]. now exists p, rest.
Qed.

(** C3, as amended, for the sign transform.  The context has a key, and
    its temporary buffer, if one is left from earlier calls, is a live
    block.  When [rsa_sign_directly] returns, the temporary buffer is
    either as the call found it (no path that returns this way has
    written to it), or present and zero over the modulus size, which is
    all of it unless it was allocated for a larger key: this is so on
    every path that has handed the buffer to the private-key operation,
    whether that succeeded or failed.  There are two other exits.  One
    is taken when the PSS encoding step of this very call, on the buffer
    and the entropy it is given, fails: the call then returns 0 at once.
    The other is that of a buffer shorter than the modulus, left from a
    smaller key: the cleansing has then written past its end. *)
Theorem sign_leaves_tbuf_zeroed sig' sigsize tbs c w k :
  key_is c w k -> tbuf_holds c w 0 ->
  wp (rsa_sign_directly sig' sigsize tbs)
     (fun res c' w' =>
        tbuf_untouched c w c' w' \/
        (tbuf_cleansed c' w' k (length (working_block c w k) - tbuf_len k) /\
         (tbuf_sized c w k -> tbuf_zeroed c' w' k)) \/
        (r_code res = 0 /\ pss_encode_failed c w k tbs) \/
        ((length (working_block c w k) < tbuf_len k)%nat /\ tbuf_overrun c' w')) c w.
Proof.
  intros Hk Hlive.
  unfold rsa_sign_directly, sign_end.
  apply wp_bind, (wp_ctx_key _ _ _ k Hk).
  wp_go (tbuf_untouched c w); try (left; split; reflexivity).
  - (* X9.31 *)
    apply (wp_setup_tbuf _ _ _ k Hk Hlive).
    { intros w1 _ Hb1 _ _ _. cbn [Z.eqb].
      apply wp_bind, wp_ERR_raise. apply wp_ret. left. now split. }
    intros p w1 Hb1 Hkeys _ _ _ _. cbn [Z.eqb].
    apply wp_bind, wp_get_ctx.
    change (tbuf (set_tbuf (Some p) c)) with (Some p).
    apply wp_bind, (wp_write_buf _ _ _ _ _ _ _ Hb1). intros w2 Hb2 Hkeys2 _ _.
    apply wp_bind, (wp_write_buf _ _ _ _ _ _ _ Hb2). intros w3 Hb3 Hkeys3 _ _.
    apply wp_bind, (wp_read_buf _ _ _ _ _ Hb3).
    destruct (RSA_private_encrypt _ _ _ _) as [r written].
    eapply (clean_then_end r written p _ _ _ k); try exact Hb3.
    + reflexivity.
    + apply (key_is_keys c w); [exact Hk | reflexivity | congruence].
    + intros res w4 Hz Hf. right.
      match type of Hb3 with _ = Some ?b3 =>
        destruct (le_lt_dec (tbuf_len k) (length b3)) as [Hle | Hlt] end.
      * left. eapply cleansed_end;
          [reflexivity | exact (Hz Hle) | now rewrite !overlay_length].
      * right. right. eapply overrun_end;
          [reflexivity | | exact Hlt | eexists; exact (Hf Hlt)].
        now rewrite !overlay_length.
  - (* PSS *)
    eapply wp_mono; [apply sign_pss_restrictions_ok_frame |].
    intros ok c0 w0 (-> & Hsame). cbn beta.
    assert (Hbufs0 : w_bufs w0 = w_bufs w) by (rewrite <- Hsame; reflexivity).
    assert (Hkeys0 : w_keys w0 = w_keys w) by (rewrite <- Hsame; reflexivity).
    assert (Hent0 : w_entropy w0 = w_entropy w) by (rewrite <- Hsame; reflexivity).
    assert (Hjunk0 : w_junk w0 = w_junk w) by (rewrite <- Hsame; reflexivity).
    assert (Hblock0 : working_block c w0 k = working_block c w k)
      by (now apply working_block_same).
    destruct ok; cbn [negb]; [| apply wp_ret; left; now split].
    assert (Hk0 : key_is c w0 k) by (now apply (key_is_keys c w)).
    assert (Hlive0 : tbuf_holds c w0 0)
      by (intros q Hq; rewrite Hbufs0; now apply Hlive).
    apply wp_bind, (wp_setup_tbuf _ _ _ k Hk0 Hlive0).
    { intros w1 _ Hb1 _ _ _. cbn [Z.eqb]. apply wp_ret. left.
      split; [reflexivity | congruence]. }
    intros p w1 Hb1 Hkeys _ _ Hent _. cbn [Z.eqb].
    rewrite Hblock0 in Hb1.
    apply wp_bind, wp_get_ctx. apply wp_bind, wp_get_world.
    change (tbuf (set_tbuf (Some p) c)) with (Some p).
    apply wp_bind, (wp_read_buf _ _ _ _ _ Hb1).
    destruct (ossl_rsa_padding_add_PKCS1_PSS_mgf1 _ _ _ _ _ _ _)
      as [[r em] sl] eqn:Henc.
    apply wp_bind, wp_modify_world.
    assert (Hb1' : w_bufs (set_w_entropy (w_entropy w1 + 1) w1) !! p
                   = Some (working_block c w k))
      by exact Hb1.
    apply wp_bind, (wp_write_buf _ _ _ _ _ _ _ Hb1'). intros w2 Hb2 Hkeys2 _ _.
    cbn [w_keys set_w_entropy] in Hkeys2.
    destruct (r =? 0) eqn:Hr.
    + apply wp_bind, wp_ERR_raise. apply wp_ret. right. right. left.
      split; [reflexivity |]. split.
      * match goal with
        | H : (pad_mode c =? RSA_PKCS1_PSS_PADDING) = true |- _ =>
            now apply Z.eqb_eq in H
        end.
      * change (md c) with (md (set_tbuf (Some p) c)).
        change (mgf1_md c) with (mgf1_md (set_tbuf (Some p) c)).
        change (saltlen c) with (saltlen (set_tbuf (Some p) c)).
        rewrite <- Hent0, <- Hent, Henc. now apply Z.eqb_eq in Hr.
    + apply wp_bind, (wp_read_buf _ _ _ _ _ Hb2).
      destruct (RSA_private_encrypt _ _ _ _) as [r0 written].
      eapply (clean_then_end r0 written p _ _ _ k); try exact Hb2.
      * reflexivity.
      * apply (key_is_keys c w0); [exact Hk0 | reflexivity | ].
        rewrite Hkeys2. exact Hkeys.
      * intros res w4 Hz Hf. right.
        match type of Hb2 with _ = Some ?b2 =>
          destruct (le_lt_dec (tbuf_len k) (length b2)) as [Hle | Hlt] end.
        -- left. eapply cleansed_end;
             [reflexivity | exact (Hz Hle) | now rewrite overlay_length].
        -- right. right. eapply overrun_end;
             [reflexivity | | exact Hlt | eexists; exact (Hf Hlt)].
           now rewrite overlay_length.
Qed.

End SignBuffer.

(** An X9.31 signature on the 1024-bit toy key by a context that signed
    with the 2048-bit key before: the buffer is the block of 256 bytes
    allocated then; when the call returns its first 128 bytes are zero
    (and so are the others, which the earlier call had cleansed). *)
Lemma sign_leaves_tbuf_zeroed_witness :
  let s := Toy.x931_sign_then 1 5 in
  let out := rsa_sign_directly OUT_CALLER 128 Toy.digest32 s.1 s.2 in
  (key_is s.1 s.2 Toy.key1024 /\ (length <$> tbuf_block s.1 s.2 = Some 256%nat) /\
   tbuf_holds s.1 s.2 0) /\
  (tbuf_untouched s.1 s.2 out.1.2 out.2 \/
   (tbuf_cleansed out.1.2 out.2 Toy.key1024
      (length (working_block s.1 s.2 Toy.key1024) - tbuf_len Toy.key1024) /\
    (tbuf_sized s.1 s.2 Toy.key1024 -> tbuf_zeroed out.1.2 out.2 Toy.key1024)) \/
   (r_code out.1.1 = 0 /\ pss_encode_failed s.1 s.2 Toy.key1024 Toy.digest32) \/
   ((length (working_block s.1 s.2 Toy.key1024) < tbuf_len Toy.key1024)%nat /\
    tbuf_overrun out.1.2 out.2)) /\
  (r_code out.1.1 = 1) /\
  tbuf_block out.1.2 out.2 = Some (replicate 256 0).
Proof.
  intros s out.
  assert (Hk : key_is s.1 s.2 Toy.key1024).
  { exists 5%positive, (mk_RSA_obj Toy.key1024 2). vm_compute. repeat split. }
  assert (Hlen : length <$> tbuf_block s.1 s.2 = Some 256%nat) by (vm_compute; reflexivity).
  assert (Hh : tbuf_holds s.1 s.2 0).
  { intros p Hp. destruct (tbuf_block s.1 s.2) as [b |] eqn:Hb; [| discriminate Hlen].
    exists b. unfold tbuf_block in Hb. rewrite Hp in Hb. split; [exact Hb | lia]. }
  split; [exact (conj Hk (conj Hlen Hh)) |]. split; [| split].
  - exact (sign_leaves_tbuf_zeroed OUT_CALLER 128 Toy.digest32 s.1 s.2 Toy.key1024 Hk Hh).
  - vm_compute. reflexivity.
  - vm_compute. reflexivity.
Defined.

(** The exit of a shorter buffer, reached: a context signs under X9.31
    with the 1024-bit key, which allocates 128 bytes, is initialised
    again for the 2048-bit key, and signs; [clean_tbuf] cleanses 256
    bytes of the 128-byte block. *)
Lemma sign_cleanses_past_stale_tbuf :
  let s := Toy.x931_sign_then 5 1 in
  let out := rsa_sign_directly OUT_CALLER 256 Toy.digest32 s.1 s.2 in
  key_is s.1 s.2 Toy.key2048 /\
  (length <$> tbuf_block s.1 s.2 = Some 128%nat) /\
  (w_faults s.2 = []) /\
  tbuf_overrun out.1.2 out.2.
Proof.
  intros s out. split.
  { exists 1%positive, (mk_RSA_obj Toy.key2048 2). vm_compute. repeat split. }
  split; [vm_compute; reflexivity |]. split; [vm_compute; reflexivity |].
  exists 1%positive, []. split; vm_compute; reflexivity.
Qed.

(** C3 as stated does not hold of the verify transform: after a
    successful X9.31 verification the temporary buffer is not zero, it
    still holds the bytes recovered from the signature, the digest and
    its trailer. *)
Lemma verify_leaves_recovered_bytes_in_tbuf :
  let s := Toy.x931_verify in
  let out := rsa_verify_directly Toy.x931_sig 256 Toy.digest32 s.1 s.2 in
  out.1.1 = 1 /\
  take 33 <$> Toy.working_buffer (out.1.2, out.2) = Some (Toy.digest32 ++ [0x34]) /\
  ~ tbuf_zeroed out.1.2 out.2 Toy.key2048.
Proof.
  intros s out. split; [vm_compute; reflexivity |]. split; [vm_compute; reflexivity |].
  intros (p & Hp & Hz).
  vm_compute in Hp. injection Hp as <-.
  vm_compute in Hz. discriminate Hz.
Qed.

(** ** C2: what a duplicate shares with its original *)

Section Duplicate.

Context `{Ext : Externals}.

(** After the structure copy, [rsa_dupctx] resets and rebuilds six
    pointer fields; [sig] is not among them. *)
Lemma dup_fields_keeps_sig src c w :
  wp (dup_fields src)
     (fun _ c' _ => sig c' = sig c /\ siglen c' = siglen c /\ tbuf c' = None) c w.
Proof.
  unfold dup_fields, RSA_up_ref, EVP_MD_CTX_new, on_mdctx.
  wp_go (fun (_ : PROV_RSA_CTX) (_ : world) => True); repeat split; reflexivity.
Qed.

(** Whatever the context, a duplicate holds the pointer to the staged
    signature that the original holds: the block is shared, not copied. *)
Lemma rsa_dupctx_copies_sig_pointer src w :
  match (rsa_dupctx src w).1 with
  | Some dst => sig dst = sig src /\ siglen dst = siglen src /\ tbuf dst = None
  | None => True
  end.
Proof.
  unfold rsa_dupctx.
  destruct (negb (w_running w)); [exact I |].
  destruct (alloc_succeeds src w) as [[ok c1] w1].
  destruct (negb ok); [exact I |].
  assert (H := dup_fields_keeps_sig src src w1). unfold wp in H.
  destruct (dup_fields src src w1) as [[ok' dst] w2].
  destruct ok'; [exact H |].
  now destruct (rsa_freectx dst w2) as [[? ?] ?].
Qed.

End Duplicate.

(** C2.  A verification with RSA-SHA256 under way on the toy key, its
    signature staged, is duplicated.  The duplicate has a digest context
    of its own and the key has one more reference, but the staged
    signature of the duplicate is the very block of the original.
    Releasing the duplicate and then the original frees that block
    twice; and once the duplicate is released, the final call on the
    original reads released memory and fails, where on the original
    alone it succeeds. *)
Theorem rsa_dupctx_shares_staged_signature :
  let s := Toy.sigalg_verifying in
  let d := rsa_dupctx s.1 s.2 in
  let dst := default zeroed_ctx d.1 in
  let released := (rsa_freectx dst d.2).2 in
  (is_Some d.1 /\ mdctx dst <> mdctx s.1 /\
   obj_references <$> (w_keys s.2 !! 1%positive) = Some 2%nat /\
   obj_references <$> (w_keys d.2 !! 1%positive) = Some 3%nat) /\
  (sig s.1 = Some 1%positive /\ sig dst = Some 1%positive) /\
  w_faults d.2 = [] /\
  w_faults (rsa_freectx s.1 released).2 = [DoubleFree 1%positive] /\
  (rsa_verify_message_final s.1 s.2).1.1 = 1 /\
  (rsa_verify_message_final s.1 released).1.1 = 0 /\
  w_faults (rsa_verify_message_final s.1 released).2 = [UseAfterFree 1%positive].
Proof.
  intros s d dst released.
  split; [split; [| vm_compute; repeat split; discriminate] |
          vm_compute; repeat split].
  assert (H : match d.1 with Some _ => true | None => false end = true)
    by (vm_compute; reflexivity).
  destruct d.1 as [c |]; [now exists c | discriminate H].
Qed.

(** ** The inits: missing key, plain start, release *)

Section Init.

Context `{Ext : Externals}.

Lemma rsa_signverify_init_no_key set_ctx_params params op c w :
  rsa c = None ->
  rsa_signverify_init None set_ctx_params params op c w =
    (0, c, if w_running w then pushed ERR_LIB_PROV PROV_R_NO_KEY_SET w else w).
Proof.
  intros Hno. unfold rsa_signverify_init. do 3 run.
  destruct (w_running w); cbn [negb]; [| reflexivity].
  rewrite Hno. reflexivity.
Qed.

(** An init that is given no key, on a context that holds none, returns
    0 and leaves the context as it was; if the provider is running it
    has raised NO_KEY_SET, and nothing else of the world has changed.
    This holds of every init entry point. *)
Theorem init_without_key i params c w :
  rsa c = None ->
  init i None params c w =
    (0, c, if w_running w then pushed ERR_LIB_PROV PROV_R_NO_KEY_SET w else w).
Proof.
  intros Hno.
  destruct i; cbn [init];
    unfold rsa_sign_init, rsa_verify_init, rsa_verify_recover_init,
           rsa_digest_sign_init, rsa_digest_verify_init, rsa_digest_signverify_init,
           rsa_md_sigalg_init, rsa_sigalg_signverify_init;
    try (now apply rsa_signverify_init_no_key);
    do 3 run;
    destruct (w_running w) eqn:Hrun; cbn [negb]; try reflexivity;
    rewrite (rsa_signverify_init_no_key _ _ _ c w Hno), Hrun;
    reflexivity.
Qed.

(** The state a plain init leaves on a context that held no key. *)
Lemma rsa_signverify_init_plain op p o c w :
  w_running w = true -> rsa c = None ->
  w_keys w !! p = Some o ->
  RSA_type_flags (obj_key o) = RSA_FLAG_TYPE_RSA ->
  ossl_rsa_key_op_get_protect (obj_key o) op <> None ->
  rsa_signverify_init (Some p) rsa_set_ctx_params [] op c w =
    (1,
     set_pad_mode RSA_PKCS1_PADDING
       (set_min_saltlen (-1)
          (set_saltlen RSA_PSS_SALTLEN_AUTO_DIGEST_MAX
             (set_flag_allow_oneshot true
                (set_flag_allow_final true
                   (set_flag_allow_update true
                      (set_operation op (set_rsa (Some p) c))))))),
     set_w_keys (<[p := mk_RSA_obj (obj_key o) (S (obj_references o))]> (w_keys w)) w).
Proof.
  intros Hrun Hno Hp Ht Hprot.
  unfold rsa_signverify_init, RSA_up_ref, RSA_free, ctx_key, the_key,
         rsa_set_ctx_params.
  do 4 run. rewrite Hrun. cbn [negb].
  rewrite (bool_decide_eq_false_2 (Some p = None)) by discriminate.
  cbn. rewrite Hp. cbn. rewrite Hno. cbn. rewrite lookup_insert_eq. cbn.
  destruct (ossl_rsa_key_op_get_protect (obj_key o) op); [| congruence].
  rewrite Ht. reflexivity.
Qed.

(** A plain init (sign, verify or verify-recover, which differ in [op]
    only) with no parameters, on a context that holds no key yet, given
    a live plain RSA key that permits the operation: it returns 1, the
    key has one more reference and is the context's key, the operation
    is recorded, update, final and one-shot are open, the salt-length
    request and floor are at their defaults and the pad mode is PKCS#1
    v1.5; digest fields, staged signature and buffers are as before. *)
Theorem plain_init_on_rsa_key op p o c w :
  w_running w = true -> rsa c = None ->
  w_keys w !! p = Some o ->
  RSA_type_flags (obj_key o) = RSA_FLAG_TYPE_RSA ->
  ossl_rsa_key_op_get_protect (obj_key o) op <> None ->
  let out := rsa_signverify_init (Some p) rsa_set_ctx_params [] op c w in
  let c' := out.1.2 in
  out.1.1 = 1 /\
  (rsa c' = Some p /\ operation c' = op /\ pad_mode c' = RSA_PKCS1_PADDING /\
   flag_allow_update c' = true /\ flag_allow_final c' = true /\
   flag_allow_oneshot c' = true /\
   saltlen c' = RSA_PSS_SALTLEN_AUTO_DIGEST_MAX /\ min_saltlen c' = -1) /\
  (md c' = md c /\ mdname c' = mdname c /\ mgf1_md c' = mgf1_md c /\
   mdctx c' = mdctx c /\ sig c' = sig c /\ tbuf c' = tbuf c /\
   flag_allow_md c' = flag_allow_md c /\ flag_sigalg c' = flag_sigalg c) /\
  w_keys out.2 !! p = Some (mk_RSA_obj (obj_key o) (S (obj_references o))) /\
  same_but_errs w (set_w_keys (w_keys w) out.2) /\ w_errs out.2 = w_errs w.
Proof.
  intros Hrun Hno Hp Ht Hprot out c'. subst c' out.
  rewrite (rsa_signverify_init_plain op p o c w Hrun Hno Hp Ht Hprot).
  cbn. rewrite lookup_insert_eq. repeat split.
Qed.

(** What such an init has taken, [rsa_freectx] gives back: on a context
    that owned nothing before the init, the world after init and
    teardown is the world before the init, the key's reference count
    included. *)
Theorem plain_init_then_freectx op p o c w :
  w_running w = true ->
  rsa c = None -> mdctx c = None -> sig c = None -> tbuf c = None ->
  w_keys w !! p = Some o -> (0 < obj_references o)%nat ->
  RSA_type_flags (obj_key o) = RSA_FLAG_TYPE_RSA ->
  ossl_rsa_key_op_get_protect (obj_key o) op <> None ->
  let out := rsa_signverify_init (Some p) rsa_set_ctx_params [] op c w in
  (rsa_freectx out.1.2 out.2).2 = w.
Proof.
  intros Hrun Hno Hmd Hsig Htb Hp Href Ht Hprot out. subst out.
  rewrite (rsa_signverify_init_plain op p o c w Hrun Hno Hp Ht Hprot).
  unfold rsa_freectx, EVP_MD_CTX_free, OPENSSL_free, free_tbuf, clean_tbuf, RSA_free.
  destruct c; cbn in Hno, Hmd, Hsig, Htb; subst.
  do 4 run. cbn. rewrite lookup_insert_eq. cbn.
  destruct o as [k [| n]]; cbn in *; [lia |].
  rewrite insert_insert_eq, insert_id by exact Hp.
  reflexivity.
Qed.

End Init.

(** A sign init without key on the context [rsa_newctx] returns. *)
Lemma init_without_key_witness :
  rsa Toy.new_ctx = None /\
  init SignInit None [] Toy.new_ctx Toy.world0 =
    (0, Toy.new_ctx, pushed ERR_LIB_PROV PROV_R_NO_KEY_SET Toy.world0).
Proof.
  assert (Hno : rsa Toy.new_ctx = None) by reflexivity.
  split; [exact Hno |].
  exact (init_without_key SignInit [] Toy.new_ctx Toy.world0 Hno).
Defined.

(** A sign init with the 2048-bit toy key on a new context. *)
Lemma plain_init_on_rsa_key_witness :
  let out := rsa_signverify_init (Some 1%positive) rsa_set_ctx_params []
               EVP_PKEY_OP_SIGN Toy.new_ctx Toy.world0 in
  w_keys Toy.world0 !! 1%positive = Some (mk_RSA_obj Toy.key2048 1) /\
  out.1.1 = 1 /\ pad_mode out.1.2 = RSA_PKCS1_PADDING /\
  w_keys out.2 !! 1%positive = Some (mk_RSA_obj Toy.key2048 2).
Proof.
  intros out.
  assert (Hp : w_keys Toy.world0 !! 1%positive = Some (mk_RSA_obj Toy.key2048 1))
    by (vm_compute; reflexivity).
  assert (Hprot : @ossl_rsa_key_op_get_protect Toy.externals Toy.key2048
                    EVP_PKEY_OP_SIGN <> None)
    by (vm_compute; congruence).
  destruct (plain_init_on_rsa_key EVP_PKEY_OP_SIGN 1 (mk_RSA_obj Toy.key2048 1)
              Toy.new_ctx Toy.world0 eq_refl eq_refl Hp eq_refl Hprot)
    as (Hr & (_ & _ & Hpad & _) & _ & Hk & _).
  exact (conj Hp (conj Hr (conj Hpad Hk))).
Defined.

(** Init and teardown on the toy leave the world as it was. *)
Lemma plain_init_then_freectx_witness :
  let out := rsa_signverify_init (Some 1%positive) rsa_set_ctx_params []
               EVP_PKEY_OP_VERIFY Toy.new_ctx Toy.world0 in
  w_keys Toy.world0 !! 1%positive = Some (mk_RSA_obj Toy.key2048 1) /\
  (rsa_freectx out.1.2 out.2).2 = Toy.world0.
Proof.
  intros out.
  assert (Hp : w_keys Toy.world0 !! 1%positive = Some (mk_RSA_obj Toy.key2048 1))
    by (vm_compute; reflexivity).
  assert (Hprot : @ossl_rsa_key_op_get_protect Toy.externals Toy.key2048
                    EVP_PKEY_OP_VERIFY <> None)
    by (vm_compute; congruence).
  split; [exact Hp |].
  apply (plain_init_then_freectx EVP_PKEY_OP_VERIFY 1 (mk_RSA_obj Toy.key2048 1)
           Toy.new_ctx Toy.world0 eq_refl eq_refl eq_refl eq_refl eq_refl Hp);
    [cbn; lia | reflexivity | exact Hprot].
Defined.

(** ** Binding a digest: what a bind writes, and when *)

Section Bind.

Context `{Ext : Externals}.

Lemma substring_all s n : (String.length s <= n)%nat -> String.substring 0 n s = s.
Proof.
  revert n. induction s as [| a s IH]; intros [| n] Hn; cbn in *;
    try reflexivity; try lia.
  f_equal. apply IH. lia.
Qed.

Lemma OPENSSL_strlcpy_fits name size :
  Z.of_nat (String.length name) < size ->
  (OPENSSL_strlcpy name size).1 = name.
Proof. intros Hn. unfold OPENSSL_strlcpy. cbn. apply substring_all. lia. Qed.

Lemma EVP_MD_CTX_free_ctx p c w : (EVP_MD_CTX_free p c w).1.2 = c.
Proof.
  unfold EVP_MD_CTX_free. do 3 run.
  destruct p as [q |]; [| reflexivity]. now destruct (w_mdctxs w !! q).
Qed.

(** [rsa_setup_md] is all or nothing: when it returns 0 it has changed
    no field of the context and nothing of the world but the error
    queue, whatever the reason of the failure. *)
Theorem rsa_setup_md_all_or_nothing name props c w :
  (rsa_setup_md name props c w).1.1 = 0 ->
  (rsa_setup_md name props c w).1.2 = c /\
  same_but_errs w (rsa_setup_md name props c w).2.
Proof.
  unfold rsa_setup_md. do 3 run.
  destruct name as [name |]; [| now split].
  destruct (EVP_MD_fetch _ _) as [md' |]; [| now split].
  destruct (_ =? NID_undef); [now split |].
  destruct (EVP_MD_xof md'); [now split |].
  destruct (rsa_check_padding_frame (Some name) None
              (ossl_digest_rsa_sign_get_md_nid md') c w) as [Hc Hw].
  destruct (rsa_check_padding _ _ _ c w) as [[ok c1] w1]. cbn in Hc, Hw. subst c1.
  destruct (ok =? 0); [now split |].
  destruct (_ <=? _); [now split |].
  destruct (negb (flag_allow_md c)).
  { destruct (_ && _); now split. }
  destruct (negb (mgf1_md_set c)); [destruct (_ =? 0); [now split |] |];
    cbn; destruct (EVP_MD_CTX_free _ _ _) as [[u c2] w2]; cbn; discriminate.
Qed.

(** A bind that passes every check, on a context that allows the digest
    to change: the fetched digest, its NID and its name are recorded and
    the running digest context is released and cleared; the digest is
    mirrored into the three MGF1 fields if, and only if, no MGF1 digest
    has been set explicitly ([mgf1_md_set] is clear).  No other field
    changes. *)
Theorem rsa_setup_md_binds name props c w md' :
  flag_allow_md c = true ->
  EVP_MD_fetch name (or_default props (propq c)) = Some md' ->
  ossl_digest_rsa_sign_get_md_nid md' <> NID_undef ->
  EVP_MD_xof md' = false ->
  (rsa_check_padding (Some name) None (ossl_digest_rsa_sign_get_md_nid md') c w).1.1 <> 0 ->
  Z.of_nat (String.length name) < OSSL_MAX_NAME_SIZE ->
  (mgf1_md_set c = false -> EVP_MD_up_ref md' <> 0) ->
  let nid := ossl_digest_rsa_sign_get_md_nid md' in
  let mirrored :=
    if mgf1_md_set c then c
    else set_mgf1_mdname name (set_mgf1_mdnid nid (set_mgf1_md (Some md') c)) in
  rsa_setup_md (Some name) props c w =
    (1,
     set_mdname name (set_mdnid nid (set_md (Some md') (set_mdctx None mirrored))),
     (EVP_MD_CTX_free (mdctx c) c w).2).
Proof.
  intros Hflag Hfetch Hnid Hxof Hpad Hlen Hup nid mirrored.
  apply rsa_check_padding_pass in Hpad.
  unfold rsa_setup_md. do 3 run. rewrite Hfetch.
  rewrite !(OPENSSL_strlcpy_fits name _ Hlen).
  apply Z.eqb_neq in Hnid. rewrite Hnid, Hxof, Hpad. cbn.
  apply Z.leb_gt in Hlen. rewrite Hlen, Hflag. cbn.
  subst mirrored nid.
  destruct (mgf1_md_set c); cbn.
  - assert (Hc := EVP_MD_CTX_free_ctx (mdctx c) c w).
    destruct (EVP_MD_CTX_free (mdctx c) c w) as [[u c2] w2].
    cbn in *. now subst c2.
  - specialize (Hup eq_refl). apply Z.eqb_neq in Hup. rewrite Hup. cbn.
    unfold EVP_MD_CTX_free. do 3 run.
    destruct (mdctx c) as [q |]; [| reflexivity].
    now destruct (w_mdctxs w !! q).
Qed.

(** What a successful [rsa_setup_mgf1_md] records. *)
Lemma rsa_setup_mgf1_md_sets a pa c w :
  wp (rsa_setup_mgf1_md a pa)
     (fun r c' _ =>
        r <> 0 ->
        mgf1_md_set c' = true /\ mgf1_mdname c' = a /\
        mgf1_md c' = EVP_MD_fetch a (or_default pa (propq c))) c w.
Proof.
  unfold rsa_setup_mgf1_md, rsa_check_padding.
  wp_go (fun (_ : PROV_RSA_CTX) (_ : world) => True);
    intros Hr; try congruence.
  all: cbn; repeat split; try congruence.
  all: match goal with
       | H : OPENSSL_strlcpy ?x _ = (?copied, ?len),
         H' : (_ <=? ?len) = false |- ?copied = ?x =>
           unfold OPENSSL_strlcpy in H; injection H as <- <-;
           apply substring_all; apply Z.leb_gt in H';
           unfold OSSL_MAX_NAME_SIZE in *; lia
       end.
Qed.

(** Once an MGF1 digest has been set explicitly, a bind leaves it alone. *)
Lemma rsa_setup_md_keeps_explicit_mgf1 b pb c w :
  mgf1_md_set c = true ->
  wp (rsa_setup_md b pb)
     (fun _ c' _ =>
        mgf1_md_set c' = true /\ mgf1_mdname c' = mgf1_mdname c /\
        mgf1_md c' = mgf1_md c /\ mgf1_mdnid c' = mgf1_mdnid c) c w.
Proof.
  intros Hset.
  unfold rsa_setup_md, rsa_check_padding, EVP_MD_CTX_free.
  wp_go (fun (_ : PROV_RSA_CTX) (_ : world) => True);
    try (cbn; repeat split; congruence).
  all: rewrite Hset in *; discriminate.
Qed.

(** An MGF1 digest set explicitly survives a later bind of the signing
    digest: after a successful [rsa_setup_mgf1_md] for [a], whatever
    digest [rsa_setup_md] is then asked to bind and whether it succeeds
    or not, the MGF1 digest is still the one fetched for [a], under the
    name [a]. *)
Theorem explicit_mgf1_survives_bind a pa b pb c w :
  let s1 := rsa_setup_mgf1_md a pa c w in
  let s2 := rsa_setup_md b pb s1.1.2 s1.2 in
  s1.1.1 <> 0 ->
  mgf1_md s2.1.2 = EVP_MD_fetch a (or_default pa (propq c)) /\
  mgf1_mdname s2.1.2 = a /\ mgf1_md_set s2.1.2 = true.
Proof.
  intros s1 s2 Hok.
  destruct (rsa_setup_mgf1_md_sets a pa c w Hok) as (Hset & Hname & Hmd).
  destruct (rsa_setup_md_keeps_explicit_mgf1 b pb s1.1.2 s1.2 Hset)
    as (Hset' & Hname' & Hmd' & _).
  subst s2. now rewrite Hset', Hname', Hmd'.
Qed.

End Bind.

(** An unknown digest name on a new context. *)
Lemma rsa_setup_md_all_or_nothing_witness :
  let out := rsa_setup_md (Some "NO-SUCH-DIGEST") None Toy.new_ctx Toy.world0 in
  out.1.1 = 0 /\ out.1.2 = Toy.new_ctx /\ same_but_errs Toy.world0 out.2.
Proof.
  intros out.
  assert (H0 : out.1.1 = 0) by (vm_compute; reflexivity).
  split; [exact H0 |].
  exact (rsa_setup_md_all_or_nothing (Some "NO-SUCH-DIGEST") None
           Toy.new_ctx Toy.world0 H0).
Defined.

(** SHA2-256 bound on a new context: it is mirrored into the MGF1 digest. *)
Lemma rsa_setup_md_binds_witness :
  let out := rsa_setup_md (Some "SHA2-256") None Toy.new_ctx Toy.world0 in
  (flag_allow_md Toy.new_ctx = true /\ mgf1_md_set Toy.new_ctx = false) /\
  out.1.1 = 1 /\ mdname out.1.2 = "SHA2-256" /\ mgf1_mdname out.1.2 = "SHA2-256".
Proof.
  intros out. split; [split; reflexivity |].
  assert (E := rsa_setup_md_binds "SHA2-256" None Toy.new_ctx Toy.world0
                 Toy.SHA256_md).
  cbv zeta in E. subst out. rewrite E;
    [repeat split | vm_compute; first [reflexivity | congruence | discriminate] ..].
Defined.

(** SHA1 set as MGF1 digest, then SHA2-256 bound: MGF1 stays SHA1. *)
Lemma explicit_mgf1_survives_bind_witness :
  let s1 := rsa_setup_mgf1_md "SHA1" None Toy.new_ctx Toy.world0 in
  let s2 := rsa_setup_md (Some "SHA2-256") None s1.1.2 s1.2 in
  s1.1.1 <> 0 /\ s2.1.1 = 1 /\
  mgf1_mdname s2.1.2 = "SHA1" /\ mdname s2.1.2 = "SHA2-256".
Proof.
  intros s1 s2.
  assert (Hok : s1.1.1 <> 0) by (vm_compute; congruence).
  destruct (explicit_mgf1_survives_bind "SHA1" None (Some "SHA2-256") None
              Toy.new_ctx Toy.world0 Hok) as (_ & Hname & _).
  split; [exact Hok |]. split; [vm_compute; reflexivity |].
  split; [exact Hname | vm_compute; reflexivity].
Defined.

(** ** Setting parameters: which pad mode a context can be in *)

Section PadMode.

Context `{Ext : Externals}.

Lemma preserves_or {A} (I1 I2 : PROV_RSA_CTX -> world -> Prop) (m : M A) :
  preserves I1 m -> preserves I2 m -> preserves (fun c w => I1 c w \/ I2 c w) m.
Proof.
  intros H1 H2 c w [H | H].
  - eapply wp_mono; [exact (H1 c w H) | auto].
  - eapply wp_mono; [exact (H2 c w H) | auto].
Qed.

#[local] Hint Resolve preserves_or : calls.

(** The key is looked at for the three pad modes of plain RSA keys only. *)
Lemma pad_mode_allowed_key pm op k k' :
  (pm =? RSA_PKCS1_PADDING) || (pm =? RSA_NO_PADDING) || (pm =? RSA_X931_PADDING) = false ->
  pad_mode_allowed pm op k = pad_mode_allowed pm op k'.
Proof. intros H. unfold pad_mode_allowed. now rewrite H. Qed.

(** The pad mode [rsa_set_ctx_params] leaves is the one it found or one
    that [pad_mode_allowed] accepts for the operation and the key. *)
Lemma rsa_set_ctx_params_pad_mode params c w k :
  key_is c w k ->
  wp (rsa_set_ctx_params params)
     (fun _ c' _ =>
        pad_mode c' = pad_mode c \/
        pad_mode_allowed (pad_mode c') (operation c) k = true) c w.
Proof.
  intros Hk. unfold rsa_set_ctx_params.
  destruct (ossl_param_is_empty params); [apply wp_ret; now left |].
  apply wp_bind, wp_get_ctx.
  destruct (get_name_and_props params _ _) as [[pmdname pmdprops] |];
    [| apply wp_ret; now left].
  apply wp_bind.
  apply (wp_mono _ (fun pad c1 w1 =>
           c1 = c /\
           match pad with
           | Some pm => pm = pad_mode c \/ pad_mode_allowed pm (operation c) k = true
           | None => True
           end)).
  { destruct (OSSL_PARAM_locate_const params OSSL_SIGNATURE_PARAM_PAD_MODE) as [p |];
      [| apply wp_ret; split; [reflexivity | now left]].
    cbv zeta.
    destruct (match p_data p with PARAM_INTEGER _ => _ | _ => _ end) as [pm |];
      [| now apply wp_ret].
    apply wp_bind.
    destruct ((pm =? RSA_PKCS1_PADDING) || (pm =? RSA_NO_PADDING)
              || (pm =? RSA_X931_PADDING)) eqn:Hplain.
    - apply (wp_ctx_key _ _ _ k Hk).
      destruct (pad_mode_allowed pm (operation c) k) eqn:Ha.
      + apply wp_ret. split; [reflexivity | now right].
      + apply wp_bind, wp_ERR_raise_data. now apply wp_ret.
    - apply wp_ret.
      destruct (pad_mode_allowed pm (operation c) null_RSA) eqn:Ha.
      + apply wp_ret. split; [reflexivity | right].
        now rewrite (pad_mode_allowed_key pm _ k null_RSA Hplain).
      + apply wp_bind, wp_ERR_raise_data. now apply wp_ret. }
  intros pad c1 w1 (-> & Hpm).
  destruct pad as [pm |]; [| apply wp_ret; now left].
  assert (Hend : forall c', pad_mode c' = pad_mode c \/ pad_mode c' = pm ->
            pad_mode c' = pad_mode c \/
            pad_mode_allowed (pad_mode c') (operation c) k = true).
  { intros c' [H | H]; rewrite H; [now left | exact Hpm]. }
  wp_go (fun c' w' => pad_is (pad_mode c) c' w' \/ pad_is pm c' w');
    apply Hend; first [assumption | inv_solve].
Qed.

(** On a key typed RSA-PSS the only pad mode accepted is PSS. *)
Lemma pad_mode_allowed_pss_key pm op k :
  RSA_type_flags k = RSA_FLAG_TYPE_RSASSAPSS ->
  pad_mode_allowed pm op k = true -> pm = RSA_PKCS1_PSS_PADDING.
Proof.
  intros Ht. unfold pad_mode_allowed. rewrite Ht.
  change (RSA_FLAG_TYPE_RSASSAPSS =? RSA_FLAG_TYPE_RSA) with false.
  destruct (pm =? RSA_PKCS1_OAEP_PADDING); [discriminate |].
  destruct (pm =? RSA_PKCS1_PSS_PADDING) eqn:Hpss; [intros _; now apply Z.eqb_eq |].
  now destruct (_ || _).
Qed.

(** A context on an RSA-PSS key that is in PSS pad mode stays in PSS pad
    mode under [rsa_set_ctx_params], whatever parameters it is given and
    whether the call succeeds or fails. *)
Theorem rsa_set_ctx_params_pss_key params c w k :
  key_is c w k -> RSA_type_flags k = RSA_FLAG_TYPE_RSASSAPSS ->
  pad_mode c = RSA_PKCS1_PSS_PADDING ->
  pad_mode (rsa_set_ctx_params params c w).1.2 = RSA_PKCS1_PSS_PADDING.
Proof.
  intros Hk Ht Hpad.
  destruct (rsa_set_ctx_params_pad_mode params c w k Hk) as [H | H].
  - now rewrite H.
  - exact (pad_mode_allowed_pss_key _ _ k Ht H).
Qed.

Lemma wp_conj {A} (m : M A) (Q1 Q2 : A -> PROV_RSA_CTX -> world -> Prop) c w :
  wp m Q1 c w -> wp m Q2 c w -> wp m (fun a c' w' => Q1 a c' w' /\ Q2 a c' w') c w.
Proof. unfold wp. auto. Qed.

Lemma preserves_and {A} (I1 I2 : PROV_RSA_CTX -> world -> Prop) (m : M A) :
  preserves I1 m -> preserves I2 m -> preserves (fun c w => I1 c w /\ I2 c w) m.
Proof.
  intros H1 H2 c w [Ha Hb].
  eapply wp_mono; [exact (wp_conj m _ _ c w (H1 c w Ha) (H2 c w Hb)) | auto].
Qed.

(** The calls that bind digests and check the PSS parameters leave the
    key pointer and the key store alone. *)
Lemma rsa_setup_md_keys name props r ks :
  preserves (fun c' w' => rsa c' = r /\ w_keys w' = ks) (rsa_setup_md name props).
Proof.
  intros c w H. unfold rsa_setup_md, rsa_check_padding, EVP_MD_CTX_free.
  wp_go (fun c' w' => rsa c' = r /\ w_keys w' = ks); first [assumption | inv_solve].
Qed.

Lemma rsa_setup_mgf1_md_keys name props r ks :
  preserves (fun c' w' => rsa c' = r /\ w_keys w' = ks) (rsa_setup_mgf1_md name props).
Proof.
  intros c w H. unfold rsa_setup_mgf1_md, rsa_check_padding.
  wp_go (fun c' w' => rsa c' = r /\ w_keys w' = ks); first [assumption | inv_solve].
Qed.

Lemma rsa_check_parameters_keys n r ks :
  preserves (fun c' w' => rsa c' = r /\ w_keys w' = ks) (rsa_check_parameters n).
Proof.
  intros c w H. unfold rsa_check_parameters, ctx_key, the_key.
  wp_go (fun c' w' => rsa c' = r /\ w_keys w' = ks); first [assumption | inv_solve].
Qed.

#[local] Hint Resolve preserves_and rsa_setup_md_keys rsa_setup_mgf1_md_keys
  rsa_check_parameters_keys : calls.

(** The pad mode a plain init leaves, by the type of the key. *)
Lemma plain_init_pad_mode vrsa params op c w k :
  init_key vrsa c w k ->
  wp (rsa_signverify_init vrsa rsa_set_ctx_params params op)
     (fun r c' _ =>
        r <> 0 ->
        operation c' = op /\
        (RSA_type_flags k = RSA_FLAG_TYPE_RSA ->
         pad_mode_allowed (pad_mode c') op k = true) /\
        (RSA_type_flags k = RSA_FLAG_TYPE_RSASSAPSS ->
         pad_mode c' = RSA_PKCS1_PSS_PADDING)) c w.
Proof.
  intros Hk. unfold rsa_signverify_init.
  apply wp_bind, wp_running.
  destruct (w_running w); cbn [negb]; [| now apply wp_ret].
  apply wp_bind, wp_get_ctx.
  destruct (_ && _); [apply wp_bind, wp_ERR_raise; now apply wp_ret |].
  apply wp_bind.
  apply (wp_mono _ (fun ok c' w' => ok = true /\ key_is c' w' k)).
  { destruct vrsa as [p |]; cbn in Hk.
    - destruct Hk as (o & Hp & <- & Href). now apply take_key_live.
    - now apply wp_ret. }
  intros ok c1 w1 [-> Hk1]. cbn [negb].
  apply wp_bind, (wp_ctx_key _ _ _ k Hk1).
  destruct (ossl_rsa_key_op_get_protect k op); [| now apply wp_ret].
  do 6 (apply wp_bind, wp_modify_ctx).
  cbv zeta.
  (* what [rsa_set_ctx_params] does at the end *)
  assert (Hfinish : forall c2 w2 pm,
            key_is c2 w2 k -> operation c2 = op -> pad_mode c2 = pm ->
            (RSA_type_flags k = RSA_FLAG_TYPE_RSA -> pad_mode_allowed pm op k = true) ->
            (RSA_type_flags k = RSA_FLAG_TYPE_RSASSAPSS -> pm = RSA_PKCS1_PSS_PADDING) ->
            wp (rsa_set_ctx_params params)
               (fun r c3 w3 =>
                  wp (if r =? 0 then ret 0 else ret 1)
                     (fun r c' _ =>
                        r <> 0 ->
                        operation c' = op /\
                        (RSA_type_flags k = RSA_FLAG_TYPE_RSA ->
                         pad_mode_allowed (pad_mode c') op k = true) /\
                        (RSA_type_flags k = RSA_FLAG_TYPE_RSASSAPSS ->
                         pad_mode c' = RSA_PKCS1_PSS_PADDING)) c3 w3) c2 w2).
  { intros c2 w2 pm Hk2 Hop Hpm Hrsa Hpss.
    eapply wp_mono;
      [ exact (wp_conj _ _ _ c2 w2
                 (rsa_set_ctx_params_pad_mode params c2 w2 k Hk2)
                 (rsa_set_ctx_params_cycle _ params (ci_cycle (cycle_of c2)) c2 w2 eq_refl))
      | ].
    intros r c' w' [Hpad Hcyc].
    destruct (r =? 0); apply wp_ret; intros Hr; [congruence |].
    unfold cycle_is, cycle_of in Hcyc.
    assert (Hop' : operation c' = operation c2) by congruence.
    rewrite Hop in Hpad. split; [congruence |]. split.
    - intros Ht. destruct Hpad as [H | H]; [rewrite H, Hpm; auto | exact H].
    - intros Ht. destruct Hpad as [H | H]; [rewrite H, Hpm; auto |].
      exact (pad_mode_allowed_pss_key _ _ k Ht H). }
  destruct (RSA_type_flags k =? RSA_FLAG_TYPE_RSA) eqn:Hrsa.
  { apply wp_bind, wp_modify_ctx. apply wp_bind.
    apply (Hfinish _ _ RSA_PKCS1_PADDING); try reflexivity.
    - now apply (key_is_keys c1 w1).
    - intros _. unfold pad_mode_allowed. now rewrite Hrsa.
    - intros Ht. rewrite Ht in Hrsa. discriminate. }
  destruct (RSA_type_flags k =? RSA_FLAG_TYPE_RSASSAPSS) eqn:Hpss;
    [| apply wp_bind, wp_ERR_raise; apply wp_ret; congruence].
  apply wp_bind, wp_modify_ctx.
  match goal with
  | |- wp _ _ ?c7 _ =>
      wp_go (fun c' w' =>
               (pad_is RSA_PKCS1_PSS_PADDING c' w' /\ cycle_is (cycle_of c7) c' w') /\
               (rsa c' = rsa c1 /\ w_keys w' = w_keys w1))
  end.
  all: try (intros Hr; congruence).
  all: apply (Hfinish _ _ RSA_PKCS1_PSS_PADDING);
    [ apply (key_is_keys c1 w1);
        [exact Hk1 | first [reflexivity | tauto] | first [reflexivity | tauto]]
    | first [reflexivity | unfold cycle_is, cycle_of in *; cbn in *; intuition congruence]
    | first [reflexivity | unfold pad_is in *; tauto]
    | intros Ht; rewrite Ht in Hrsa; discriminate
    | reflexivity ].
Qed.

(** A plain init (sign, verify, verify-recover) that succeeds on a key
    typed RSA-PSS leaves the context in PSS pad mode, whatever pad mode
    the parameters ask for. *)
Theorem plain_init_pss_key_pad_mode vrsa params op c w k :
  init_key vrsa c w k -> RSA_type_flags k = RSA_FLAG_TYPE_RSASSAPSS ->
  let out := rsa_signverify_init vrsa rsa_set_ctx_params params op c w in
  out.1.1 <> 0 -> pad_mode out.1.2 = RSA_PKCS1_PSS_PADDING.
Proof.
  intros Hk Ht out Hr.
  destruct (plain_init_pad_mode vrsa params op c w k Hk Hr) as (_ & _ & H).
  exact (H Ht).
Qed.

(** A plain init that succeeds on a plain RSA key leaves one of the
    four signature pad modes (PKCS#1 v1.5, none, X9.31, PSS), never
    OAEP; and PSS only if the operation is one of sign, sign-message,
    verify, verify-message, so never for verify-recover. *)
Theorem plain_init_rsa_key_pad_mode vrsa params op c w k :
  init_key vrsa c w k -> RSA_type_flags k = RSA_FLAG_TYPE_RSA ->
  let out := rsa_signverify_init vrsa rsa_set_ctx_params params op c w in
  out.1.1 <> 0 ->
  In (pad_mode out.1.2)
     [RSA_PKCS1_PADDING; RSA_NO_PADDING; RSA_X931_PADDING; RSA_PKCS1_PSS_PADDING] /\
  (pad_mode out.1.2 = RSA_PKCS1_PSS_PADDING ->
   op_in op (Z.lor (Z.lor EVP_PKEY_OP_SIGN EVP_PKEY_OP_SIGNMSG)
                   (Z.lor EVP_PKEY_OP_VERIFY EVP_PKEY_OP_VERIFYMSG)) = true) /\
  (op = EVP_PKEY_OP_VERIFYRECOVER -> pad_mode out.1.2 <> RSA_PKCS1_PSS_PADDING).
Proof.
  intros Hk Ht out Hr.
  destruct (plain_init_pad_mode vrsa params op c w k Hk Hr) as (_ & H & _).
  specialize (H Ht). fold out in H. revert H.
  generalize (pad_mode out.1.2). intros pm H.
  unfold pad_mode_allowed in H.
  destruct (pm =? RSA_PKCS1_OAEP_PADDING) eqn:Ho; [discriminate |].
  destruct (pm =? RSA_PKCS1_PSS_PADDING) eqn:Hp.
  - apply Z.eqb_eq in Hp. subst pm. split; [cbn; tauto |]. split; [auto |].
    intros ->. revert H. vm_compute. discriminate.
  - apply Z.eqb_neq in Hp.
    destruct (pm =? RSA_PKCS1_PADDING) eqn:H1;
      [apply Z.eqb_eq in H1; subst pm; cbn; tauto |].
    destruct (pm =? RSA_NO_PADDING) eqn:H3;
      [apply Z.eqb_eq in H3; subst pm; cbn; tauto |].
    destruct (pm =? RSA_X931_PADDING) eqn:H5;
      [apply Z.eqb_eq in H5; subst pm; cbn; tauto |].
    discriminate.
Qed.

End PadMode.

(** The toy RSA-PSS key: a sign init asking for PKCS#1 v1.5 fails; one
    without parameters succeeds and leaves PSS, and [rsa_set_ctx_params]
    asking for PKCS#1 v1.5 afterwards fails and leaves PSS. *)
Lemma plain_init_pss_key_pad_mode_witness :
  let out := rsa_signverify_init (Some 3%positive) rsa_set_ctx_params []
               EVP_PKEY_OP_SIGN Toy.new_ctx Toy.world0 in
  init_key (Some 3%positive) Toy.new_ctx Toy.world0 Toy.key_pss /\
  out.1.1 <> 0 /\ pad_mode out.1.2 = RSA_PKCS1_PSS_PADDING.
Proof.
  intros out.
  assert (Hk : init_key (Some 3%positive) Toy.new_ctx Toy.world0 Toy.key_pss).
  { exists (mk_RSA_obj Toy.key_pss 1). vm_compute. repeat split. constructor. }
  assert (Hr : out.1.1 <> 0) by (vm_compute; congruence).
  split; [exact Hk |]. split; [exact Hr |].
  exact (plain_init_pss_key_pad_mode (Some 3%positive) [] EVP_PKEY_OP_SIGN
           Toy.new_ctx Toy.world0 Toy.key_pss Hk eq_refl Hr).
Defined.

Lemma rsa_set_ctx_params_pss_key_witness :
  let s := Toy.after (rsa_signverify_init (Some 3%positive) rsa_set_ctx_params []
                        EVP_PKEY_OP_SIGN) (Toy.new_ctx, Toy.world0) in
  let out := rsa_set_ctx_params
               [mk_param OSSL_SIGNATURE_PARAM_PAD_MODE (PARAM_INTEGER RSA_PKCS1_PADDING)]
               s.1 s.2 in
  (key_is s.1 s.2 Toy.key_pss /\ pad_mode s.1 = RSA_PKCS1_PSS_PADDING) /\
  out.1.1 = 0 /\ pad_mode out.1.2 = RSA_PKCS1_PSS_PADDING.
Proof.
  intros s out.
  assert (Hk : key_is s.1 s.2 Toy.key_pss).
  { exists 3%positive, (mk_RSA_obj Toy.key_pss 2). vm_compute. repeat split. }
  assert (Hp : pad_mode s.1 = RSA_PKCS1_PSS_PADDING) by (vm_compute; reflexivity).
  split; [exact (conj Hk Hp) |]. split; [vm_compute; reflexivity |].
  exact (rsa_set_ctx_params_pss_key _ s.1 s.2 Toy.key_pss Hk eq_refl Hp).
Defined.

(** A verify-recover init with X9.31 padding on the toy RSA key. *)
Lemma plain_init_rsa_key_pad_mode_witness :
  let out := rsa_signverify_init (Some 1%positive) rsa_set_ctx_params Toy.x931_params
               EVP_PKEY_OP_VERIFYRECOVER Toy.new_ctx Toy.world0 in
  init_key (Some 1%positive) Toy.new_ctx Toy.world0 Toy.key2048 /\
  out.1.1 <> 0 /\ pad_mode out.1.2 <> RSA_PKCS1_PSS_PADDING.
Proof.
  intros out.
  assert (Hk : init_key (Some 1%positive) Toy.new_ctx Toy.world0 Toy.key2048).
  { exists (mk_RSA_obj Toy.key2048 1). vm_compute. repeat split. constructor. }
  assert (Hr : out.1.1 <> 0) by (vm_compute; congruence).
  split; [exact Hk |]. split; [exact Hr |].
  destruct (plain_init_rsa_key_pad_mode (Some 1%positive) Toy.x931_params
              EVP_PKEY_OP_VERIFYRECOVER Toy.new_ctx Toy.world0 Toy.key2048
              Hk eq_refl Hr) as (_ & _ & H).
  exact (H eq_refl).
Defined.

(** ** The salt length under the DIGEST policy and as a number *)

Section SaltNumber.

Context `{Ext : Externals}.

Lemma candidate_digest c w :
  saltlen c = RSA_PSS_SALTLEN_DIGEST ->
  pss_saltlen_candidate c w =
    if EVP_MD_get_size (md c) <=? 0
    then (None, c, set_w_errs (err_invalid_digest :: w_errs w) w)
    else (Some (EVP_MD_get_size (md c)), c, w).
Proof.
  intros Hs. unfold pss_saltlen_candidate. do 3 run. rewrite Hs.
  change (RSA_PSS_SALTLEN_DIGEST =? RSA_PSS_SALTLEN_DIGEST) with true. cbn match.
  destruct (Z.leb_spec (EVP_MD_get_size (md c)) 0) as [Hm | Hm]; [reflexivity |].
  unfold RSA_PSS_SALTLEN_MAX, RSA_PSS_SALTLEN_AUTO.
  destruct (Z.eqb_spec (EVP_MD_get_size (md c)) (-3)); [lia |].
  destruct (Z.eqb_spec (EVP_MD_get_size (md c)) (-2)); [lia |].
  reflexivity.
Qed.

(** Under the DIGEST policy the salt length is the digest size, and a
    salt length requested as a number is that number: either is returned
    as soon as it is not below the floor [min_saltlen], without any look
    at the key, so without an upper bound from the modulus.  A digest
    without positive size fails with INVALID_DIGEST; a value below the
    floor fails with PSS_SALTLEN_TOO_SMALL. *)
Theorem resolveSaltLength_digest_or_number c w :
  let s := if saltlen c =? RSA_PSS_SALTLEN_DIGEST
           then EVP_MD_get_size (md c) else saltlen c in
  saltlen c = RSA_PSS_SALTLEN_DIGEST \/ 0 <= saltlen c ->
  resolveSaltLength c w =
    if (saltlen c =? RSA_PSS_SALTLEN_DIGEST) && (s <=? 0) then Failed [err_invalid_digest]
    else if s <? min_saltlen c
    then Failed [mk_err ERR_LIB_PROV PROV_R_PSS_SALTLEN_TOO_SMALL
                        [EInt (min_saltlen c); EInt s]]
    else OK s.
Proof.
  intros s [Hd | Hn]; subst s;
    unfold resolveSaltLength, rsa_pss_compute_saltlen, bind.
  - rewrite (candidate_digest c w Hd), Hd.
    change (RSA_PSS_SALTLEN_DIGEST =? RSA_PSS_SALTLEN_DIGEST) with true.
    cbn [andb].
    destruct (Z.leb_spec (EVP_MD_get_size (md c)) 0) as [Hm | Hm].
    + unfold ret. cbn -[raised]. now rewrite (raised_one _ _ err_invalid_digest).
    + rewrite range_check_run.
      replace (EVP_MD_get_size (md c) <? 0) with false
        by (symmetry; apply Z.ltb_ge; lia).
      destruct (EVP_MD_get_size (md c) <? min_saltlen c) eqn:Hmin.
      * cbn -[raised]. now erewrite raised_one by reflexivity.
      * now rewrite (proj2 (Z.ltb_ge _ 0)) by lia.
  - rewrite (candidate_number c w Hn).
    replace (saltlen c =? RSA_PSS_SALTLEN_DIGEST) with false
      by (symmetry; apply Z.eqb_neq; unfold RSA_PSS_SALTLEN_DIGEST; lia).
    cbn [andb]. rewrite range_check_run.
    replace (saltlen c <? 0) with false by (symmetry; apply Z.ltb_ge; lia).
    destruct (saltlen c <? min_saltlen c) eqn:Hmin.
    + cbn -[raised]. now erewrite raised_one by reflexivity.
    + now rewrite (proj2 (Z.ltb_ge _ 0)) by lia.
Qed.

End SaltNumber.

(** SHA2-256 under the DIGEST policy on the toy key: 32 bytes; and a
    salt of 300 bytes, more than the 256-byte modulus, is returned as
    requested. *)
Lemma resolveSaltLength_digest_or_number_witness :
  resolveSaltLength (Toy.pss_ctx 1 RSA_PSS_SALTLEN_DIGEST (-1)) Toy.world0 = OK 32 /\
  resolveSaltLength (Toy.pss_ctx 1 300 (-1)) Toy.world0 = OK 300.
Proof.
  split.
  - etransitivity;
      [ apply (resolveSaltLength_digest_or_number
                 (Toy.pss_ctx 1 RSA_PSS_SALTLEN_DIGEST (-1)) Toy.world0); now left
      | reflexivity ].
  - etransitivity;
      [ apply (resolveSaltLength_digest_or_number (Toy.pss_ctx 1 300 (-1)) Toy.world0);
        right; cbn; lia
      | reflexivity ].
Defined.

(** ** Sign, then verify *)

Section RoundTrip.

Context `{Ext : Externals}.

(** What [rsa_sign_directly] does under PKCS#1 v1.5 padding with a
    digest bound that is not MDC2. *)
Lemma rsa_sign_directly_pkcs1 sigsize tbs c w k m :
  w_running w = true -> key_is c w k ->
  md c = Some m -> pad_mode c = RSA_PKCS1_PADDING ->
  EVP_MD_is_a (md c) OSSL_DIGEST_NAME_MDC2 = false ->
  0 < EVP_MD_get_size (md c) < 2 ^ 31 ->
  forall res c' w',
    rsa_sign_directly OUT_CALLER sigsize tbs c w = (res, c', w') ->
    r_code res <> 0 ->
    c' = c /\ w' = w /\
    exists r l,
      RSA_sign (mdnid c) tbs (uint_of (Z.of_nat (length tbs))) k = (r, r_bytes res, l) /\
      0 < r /\ r_len res = Some (size_t_of (int_of l)).
Proof.
  intros Hrun Hk Hmd Hpad Hmdc2 Hsize res c' w'.
  assert (Hnz : negb (size_t_of (rsa_get_md_size c) =? 0) = true).
  { unfold rsa_get_md_size. rewrite Hmd, <- Hmd.
    rewrite (proj2 (Z.leb_gt _ _)) by lia.
    rewrite size_t_of_small by lia.
    apply negb_true_iff, Z.eqb_neq. lia. }
  unfold rsa_sign_directly, sign_end. do 3 run.
  rewrite (ctx_key_live _ _ _ Hk), Hrun. cbn [negb out_is_null].
  rewrite Hmdc2, Hpad.
  change (RSA_PKCS1_PADDING =? RSA_X931_PADDING) with false.
  change (RSA_PKCS1_PADDING =? RSA_PKCS1_PADDING) with true. cbn match.
  destruct (sigsize <? _); [intros [= <- <- <-]; cbn; congruence |].
  rewrite Hnz. cbn match.
  destruct (negb (Z.of_nat (length tbs) =? size_t_of (rsa_get_md_size c)));
    cbn beta; [intros [= <- <- <-]; cbn; congruence |].
  destruct (RSA_sign _ _ _ _) as [[r written] l] eqn:Hsign.
  destruct (Z.leb_spec r 0); cbn beta; [intros [= <- <- <-]; cbn; congruence |].
  destruct (int_of l <=? 0); cbn beta; intros [= <- <- <-]; cbn; [congruence |].
  intros _. repeat split. now exists r, l.
Qed.

(** Sign, then verify, under PKCS#1 v1.5 padding with a digest bound:
    when [rsa_sign_directly] succeeds it has changed nothing, and
    [rsa_verify_directly], given the signature and the length it
    reported and the same input, returns 1 and changes nothing,
    provided [RSA_verify] accepts what [RSA_sign] produces for this
    digest, input and key.  Both transforms hand the primitives the
    same digest NID, input and key. *)
Theorem pkcs1_sign_then_verify sigsize tbs c w k m :
  w_running w = true -> key_is c w k ->
  md c = Some m -> pad_mode c = RSA_PKCS1_PADDING ->
  EVP_MD_is_a (md c) OSSL_DIGEST_NAME_MDC2 = false ->
  0 < EVP_MD_get_size (md c) < 2 ^ 31 ->
  (forall r s l,
     RSA_sign (mdnid c) tbs (uint_of (Z.of_nat (length tbs))) k = (r, s, l) -> 0 < r ->
     RSA_verify (mdnid c) tbs (uint_of (Z.of_nat (length tbs))) s
                (uint_of (size_t_of (int_of l))) k <> 0) ->
  let signed := rsa_sign_directly OUT_CALLER sigsize tbs c w in
  r_code signed.1.1 <> 0 ->
  signed.1.2 = c /\ signed.2 = w /\
  rsa_verify_directly (r_bytes signed.1.1) (default 0 (r_len signed.1.1)) tbs c w
    = (1, c, w).
Proof.
  intros Hrun Hk Hmd Hpad Hmdc2 Hsize Hlaw signed Hok.
  destruct (rsa_sign_directly_pkcs1 sigsize tbs c w k m Hrun Hk Hmd Hpad Hmdc2 Hsize
              signed.1.1 signed.1.2 signed.2)
    as (Hc & Hw & r & l & Hsign & Hr & Hlen);
    [unfold signed; now destruct (rsa_sign_directly _ _ _ _ _) as [[? ?] ?]
    | exact Hok |].
  split; [exact Hc |]. split; [exact Hw |].
  rewrite Hlen. cbn [default].
  specialize (Hlaw r _ l Hsign Hr). apply Z.eqb_neq in Hlaw.
  unfold rsa_verify_directly. do 3 run.
  rewrite Hrun. cbn [negb]. rewrite Hmd, Hpad.
  change (RSA_PKCS1_PADDING =? RSA_PKCS1_PADDING) with true. cbn beta iota zeta.
  run. rewrite (ctx_key_live _ _ _ Hk). unfold id. now rewrite Hlaw.
Qed.

End RoundTrip.


(** A 32-byte digest signed and verified with the toy primitives. *)
Lemma pkcs1_sign_then_verify_witness :
  let s := Toy.pkcs1_sign in
  let signed := rsa_sign_directly OUT_CALLER 256 Toy.digest32 s.1 s.2 in
  (w_running s.2 = true /\ key_is s.1 s.2 Toy.key2048 /\
   pad_mode s.1 = RSA_PKCS1_PADDING /\ r_code signed.1.1 <> 0) /\
  rsa_verify_directly (r_bytes signed.1.1) (default 0 (r_len signed.1.1))
    Toy.digest32 s.1 s.2 = (1, s.1, s.2).
Proof.
  intros s signed.
  assert (Hrun : w_running s.2 = true) by (vm_compute; reflexivity).
  assert (Hk : key_is s.1 s.2 Toy.key2048).
  { exists 1%positive, (mk_RSA_obj Toy.key2048 2). vm_compute. repeat split. }
  assert (Hpad : pad_mode s.1 = RSA_PKCS1_PADDING) by (vm_compute; reflexivity).
  assert (Hok : r_code signed.1.1 <> 0) by (vm_compute; congruence).
  split; [exact (conj Hrun (conj Hk (conj Hpad Hok))) |].
  refine (proj2 (proj2 (pkcs1_sign_then_verify 256 Toy.digest32 s.1 s.2 Toy.key2048
                          Toy.SHA256_md Hrun Hk _ Hpad _ _ _ Hok))).
  - vm_compute; reflexivity.
  - vm_compute; reflexivity.
  - vm_compute; split; reflexivity.
  - intros r sg l E Hr. vm_compute in E. injection E as <- <- <-.
    vm_compute. congruence.
Defined.

(** ** Staging the signature of a verify-message operation *)

Ltac stage_step := run; cbn -[resize overlay fresh Z.max Z.to_nat Nat.ltb lookup insert delete].

Section Stage.

Context `{Ext : Externals}.

(** What staging does to the context and to the world. *)
Lemma rsa_verify_set_sig_run bytes n c w used b :
  operation c = EVP_PKEY_OP_VERIFYMSG ->
  (forall q, sig c = Some q -> w_bufs w !! q <> None) ->
  hd true (w_alloc w) = true ->
  OSSL_PARAM_get_octet_string
    (mk_param OSSL_SIGNATURE_PARAM_SIGNATURE (PARAM_OCTET_STRING (Some bytes) n))
    = (Some used, Some b) ->
  let out := rsa_verify_set_sig (Some bytes) n c w in
  (out.1.1 = 1 /\
   siglen out.1.2 = used /\
   take (length b) <$> (sig out.1.2 ≫= (w_bufs out.2 !!.)) = Some b /\
   set_siglen (siglen c) (set_sig (sig c) out.1.2) = c /\
   (forall q, sig c = Some q -> sig out.1.2 <> Some q -> w_bufs out.2 !! q = None) /\
   w_errs out.2 = w_errs w /\ w_faults out.2 = w_faults w) /\
  w_running out.2 = w_running w /\ w_keys out.2 = w_keys w /\
  w_mdctxs out.2 = w_mdctxs w.
Proof.
  intros Hop Hlive Halloc Hget out. subst out.
  unfold rsa_verify_set_sig, rsa_sigalg_set_ctx_params.
  cbn [ossl_param_is_empty OSSL_PARAM_locate_const p_key].
  change (String.eqb OSSL_SIGNATURE_PARAM_SIGNATURE OSSL_SIGNATURE_PARAM_SIGNATURE)
    with true. cbn match.
  unfold OPENSSL_free, OPENSSL_malloc, alloc_succeeds, write_buf.
  do 4 run. rewrite Hop, Z.eqb_refl, Hget. cbn match.
  assert (Hsz : (Z.max 1 (Z.of_nat (length b)) <=? 0) = false) by (apply Z.leb_gt; lia).
  assert (Hlen : forall junk : list Z,
            (length (resize (Z.to_nat (Z.max 1 (Z.of_nat (length b)))) 0%Z junk)
               <? length b)%nat = false).
  { intros junk. apply Nat.ltb_ge. rewrite length_resize. lia. }
  assert (Htake : forall junk,
            take (length b)
              (overlay 0 b (resize (Z.to_nat (Z.max 1 (Z.of_nat (length b)))) 0 junk)) = b).
  { intros junk. rewrite overlay_prefix by (rewrite length_resize; lia).
    now rewrite take_app_length. }
  destruct w as [run0 keys0 bufs0 mds0 alloc0 junk0 ent0 errs0 faults0];
    cbn in Hlive, Halloc.
  destruct (sig c) as [q|] eqn:Hsig.
  - destruct (bufs0 !! q) as [old|] eqn:Hq; [|now destruct (Hlive q eq_refl)].
    rewrite Hsz.
    destruct alloc0 as [|ok rest]; cbn in Halloc; subst; stage_step;
      rewrite Hq; do 4 stage_step.
    all: rewrite lookup_insert_eq; stage_step; rewrite Hlen; stage_step.
    all: rewrite lookup_insert_eq; cbn; rewrite Htake.
    all: repeat split; try (destruct c; cbn in *; now subst).
    all: intros q' [= <-] Hne; rewrite lookup_insert_ne by congruence;
         rewrite lookup_insert_ne by congruence; apply lookup_delete_eq.
  - rewrite Hsz.
    destruct alloc0 as [|ok rest]; cbn in Halloc; subst; do 4 stage_step.
    all: rewrite lookup_insert_eq; stage_step; rewrite Hlen; stage_step.
    all: rewrite lookup_insert_eq; cbn; rewrite Htake.
    all: repeat split; try (destruct c; cbn in *; now subst); discriminate.
Qed.

(** On a verify-message context, [rsa_verify_set_sig] with a signature
    the parameter getter hands back as [b], when the allocation
    succeeds: it returns 1; the context's [sig] points to a block whose
    first [length b] bytes are [b] and [siglen] is the length the getter
    reported; the block that was staged before is released; no error and
    no fault is recorded, and all other fields are unchanged.  A second
    signature therefore replaces the first without leaking it. *)
Theorem rsa_verify_set_sig_stages bytes n c w used b :
  operation c = EVP_PKEY_OP_VERIFYMSG ->
  (forall q, sig c = Some q -> w_bufs w !! q <> None) ->
  hd true (w_alloc w) = true ->
  OSSL_PARAM_get_octet_string
    (mk_param OSSL_SIGNATURE_PARAM_SIGNATURE (PARAM_OCTET_STRING (Some bytes) n))
    = (Some used, Some b) ->
  let out := rsa_verify_set_sig (Some bytes) n c w in
  out.1.1 = 1 /\
  siglen out.1.2 = used /\
  take (length b) <$> (sig out.1.2 ≫= (w_bufs out.2 !!.)) = Some b /\
  set_siglen (siglen c) (set_sig (sig c) out.1.2) = c /\
  (forall q, sig c = Some q -> sig out.1.2 <> Some q -> w_bufs out.2 !! q = None) /\
  w_errs out.2 = w_errs w /\ w_faults out.2 = w_faults w.
Proof.
  intros Hop Hlive Halloc Hget.
  exact (proj1 (rsa_verify_set_sig_run bytes n c w used b Hop Hlive Halloc Hget)).
Qed.

End Stage.

(** A second signature staged on a verify-message context that already
    holds one: the three new bytes are what the context now points to. *)
Lemma rsa_verify_set_sig_stages_witness :
  let s := Toy.sigalg_verifying in
  let out := rsa_verify_set_sig (Some [9; 8; 7]) 3 s.1 s.2 in
  (operation s.1 = EVP_PKEY_OP_VERIFYMSG /\ siglen s.1 = 256 /\
   hd true (w_alloc s.2) = true) /\
  out.1.1 = 1 /\ siglen out.1.2 = 3 /\
  take 3 <$> (sig out.1.2 ≫= (w_bufs out.2 !!.)) = Some [9; 8; 7].
Proof.
  intros s out.
  assert (Hop : operation s.1 = EVP_PKEY_OP_VERIFYMSG) by (vm_compute; reflexivity).
  assert (Hlen : siglen s.1 = 256) by (vm_compute; reflexivity).
  assert (Halloc : hd true (w_alloc s.2) = true) by (vm_compute; reflexivity).
  split; [exact (conj Hop (conj Hlen Halloc)) |].
  assert (H := rsa_verify_set_sig_stages [9; 8; 7] 3 s.1 s.2 3 [9; 8; 7] Hop).
  cbv zeta in H. destruct H as (H1 & H2 & H3 & _).
  - intros q Hq. vm_compute in Hq. injection Hq as <-. vm_compute. discriminate.
  - exact Halloc.
  - vm_compute; reflexivity.
  - exact (conj H1 (conj H2 H3)).
Defined.

(** ** What the calls between two inits leave alone *)

(** The primitives and the checks write no field of the context: they
    keep whatever holds of the context alone. *)
Section CtxOnly.

Context `{Ext : Externals}.

Variable P : PROV_RSA_CTX -> Prop.

Lemma OPENSSL_malloc_ctx_only n : preserves (fun c _ => P c) (OPENSSL_malloc n).
Proof. preserves_by_unfolding OPENSSL_malloc. Qed.

#[local] Hint Resolve OPENSSL_malloc_ctx_only : calls.

Lemma OPENSSL_free_ctx_only p : preserves (fun c _ => P c) (OPENSSL_free p).
Proof. preserves_by_unfolding OPENSSL_free. Qed.

#[local] Hint Resolve OPENSSL_free_ctx_only : calls.

Lemma read_buf_ctx_only p : preserves (fun c _ => P c) (read_buf p).
Proof. preserves_by_unfolding read_buf. Qed.

#[local] Hint Resolve read_buf_ctx_only : calls.

Lemma write_buf_ctx_only p off bytes : preserves (fun c _ => P c) (write_buf p off bytes).
Proof. preserves_by_unfolding write_buf. Qed.

#[local] Hint Resolve write_buf_ctx_only : calls.

Lemma read_byte_ctx_only p i : preserves (fun c _ => P c) (read_byte p i).
Proof. preserves_by_unfolding read_byte. Qed.

#[local] Hint Resolve read_byte_ctx_only : calls.

Lemma OPENSSL_cleanse_ctx_only p n : preserves (fun c _ => P c) (OPENSSL_cleanse p n).
Proof. preserves_by_unfolding OPENSSL_cleanse. Qed.

#[local] Hint Resolve OPENSSL_cleanse_ctx_only : calls.

Lemma EVP_MD_CTX_new_ctx_only : preserves (fun c _ => P c) EVP_MD_CTX_new.
Proof. preserves_by_unfolding EVP_MD_CTX_new. Qed.

#[local] Hint Resolve EVP_MD_CTX_new_ctx_only : calls.

Lemma EVP_MD_CTX_free_ctx_only p : preserves (fun c _ => P c) (EVP_MD_CTX_free p).
Proof. preserves_by_unfolding EVP_MD_CTX_free. Qed.

#[local] Hint Resolve EVP_MD_CTX_free_ctx_only : calls.

Lemma on_mdctx_ctx_only {A} p (d : A) f : preserves (fun c _ => P c) (on_mdctx p d f).
Proof. preserves_by_unfolding on_mdctx. Qed.

#[local] Hint Resolve on_mdctx_ctx_only : calls.

Lemma RSA_up_ref_ctx_only p : preserves (fun c _ => P c) (RSA_up_ref p).
Proof. preserves_by_unfolding RSA_up_ref. Qed.

#[local] Hint Resolve RSA_up_ref_ctx_only : calls.

Lemma RSA_free_ctx_only p : preserves (fun c _ => P c) (RSA_free p).
Proof. preserves_by_unfolding RSA_free. Qed.

#[local] Hint Resolve RSA_free_ctx_only : calls.

Lemma the_key_ctx_only p : preserves (fun c _ => P c) (the_key p).
Proof. preserves_by_unfolding the_key. Qed.

#[local] Hint Resolve the_key_ctx_only : calls.

Lemma ctx_key_ctx_only : preserves (fun c _ => P c) ctx_key.
Proof. preserves_by_unfolding ctx_key. Qed.

#[local] Hint Resolve ctx_key_ctx_only : calls.

Lemma rsa_check_padding_ctx_only a b n : preserves (fun c _ => P c) (rsa_check_padding a b n).
Proof. preserves_by_unfolding rsa_check_padding. Qed.

#[local] Hint Resolve rsa_check_padding_ctx_only : calls.

Lemma clean_tbuf_ctx_only : preserves (fun c _ => P c) clean_tbuf.
Proof. preserves_by_unfolding clean_tbuf. Qed.

#[local] Hint Resolve clean_tbuf_ctx_only : calls.

Lemma sign_end_ctx_only r b : preserves (fun c _ => P c) (sign_end r b).
Proof. preserves_by_unfolding sign_end. Qed.

#[local] Hint Resolve sign_end_ctx_only : calls.

Lemma sign_pss_restrictions_ok_ctx_only : preserves (fun c _ => P c) sign_pss_restrictions_ok.
Proof. preserves_by_unfolding sign_pss_restrictions_ok. Qed.

#[local] Hint Resolve sign_pss_restrictions_ok_ctx_only : calls.

Lemma deliver_ctx_only o b : preserves (fun c _ => P c) (deliver o b).
Proof. preserves_by_unfolding deliver. Qed.

#[local] Hint Resolve deliver_ctx_only : calls.

Lemma verify_compare_ctx_only n tbs : preserves (fun c _ => P c) (verify_compare n tbs).
Proof. preserves_by_unfolding verify_compare. Qed.

#[local] Hint Resolve verify_compare_ctx_only : calls.

Lemma set_saltlen_restrictions_ok_ctx_only n : preserves (fun c _ => P c) (set_saltlen_restrictions_ok n).
Proof. preserves_by_unfolding set_saltlen_restrictions_ok. Qed.

#[local] Hint Resolve set_saltlen_restrictions_ok_ctx_only : calls.

End CtxOnly.

#[export] Hint Resolve
  OPENSSL_malloc_ctx_only OPENSSL_free_ctx_only read_buf_ctx_only write_buf_ctx_only
  read_byte_ctx_only OPENSSL_cleanse_ctx_only EVP_MD_CTX_new_ctx_only EVP_MD_CTX_free_ctx_only
  on_mdctx_ctx_only RSA_up_ref_ctx_only RSA_free_ctx_only the_key_ctx_only
  ctx_key_ctx_only rsa_check_padding_ctx_only clean_tbuf_ctx_only sign_end_ctx_only
  sign_pss_restrictions_ok_ctx_only deliver_ctx_only verify_compare_ctx_only set_saltlen_restrictions_ok_ctx_only : calls.

(** The calls that do write the context, an init apart, keep the session
    and start no digest. *)
Section Session.

Context `{Ext : Externals}.

Variable x : option positive * Z * bool * option string * Z.

(** With [nomd] set, also: a context without a digest context stays so. *)
Variable nomd : bool.

#[local] Abbreviation kept :=
  (fun (c : PROV_RSA_CTX) (_ : world) =>
     session_of c = x /\ (nomd = true -> mdctx c = None)).

Lemma rsa_setup_md_session a b : preserves kept (rsa_setup_md a b).
Proof. preserves_by_unfolding rsa_setup_md. Qed.

#[local] Hint Resolve rsa_setup_md_session : calls.

Lemma rsa_setup_mgf1_md_session a b : preserves kept (rsa_setup_mgf1_md a b).
Proof. preserves_by_unfolding rsa_setup_mgf1_md. Qed.

#[local] Hint Resolve rsa_setup_mgf1_md_session : calls.

Lemma setup_tbuf_session : preserves kept setup_tbuf.
Proof. preserves_by_unfolding setup_tbuf. Qed.

#[local] Hint Resolve setup_tbuf_session : calls.

Lemma rsa_sigalg_set_ctx_params_session params : preserves kept (rsa_sigalg_set_ctx_params params).
Proof. preserves_by_unfolding rsa_sigalg_set_ctx_params. Qed.

#[local] Hint Resolve rsa_sigalg_set_ctx_params_session : calls.

Lemma rsa_verify_set_sig_session s n : preserves kept (rsa_verify_set_sig s n).
Proof. unfold rsa_verify_set_sig. auto with calls. Qed.

#[local] Hint Resolve rsa_verify_set_sig_session : calls.

Lemma rsa_sign_directly_session s n tbs : preserves kept (rsa_sign_directly s n tbs).
Proof. preserves_by_unfolding rsa_sign_directly. Qed.

#[local] Hint Resolve rsa_sign_directly_session : calls.

Lemma rsa_verify_recover_session o n s l : preserves kept (rsa_verify_recover o n s l).
Proof. preserves_by_unfolding rsa_verify_recover. Qed.

#[local] Hint Resolve rsa_verify_recover_session : calls.

Lemma rsa_verify_directly_session s l tbs : preserves kept (rsa_verify_directly s l tbs).
Proof. preserves_by_unfolding rsa_verify_directly. Qed.

#[local] Hint Resolve rsa_verify_directly_session : calls.

Lemma rsa_set_ctx_params_session params : preserves kept (rsa_set_ctx_params params).
Proof. preserves_by_unfolding rsa_set_ctx_params. Qed.

#[local] Hint Resolve rsa_set_ctx_params_session : calls.

Lemma rsa_signverify_message_update_session data : preserves kept (rsa_signverify_message_update data).
Proof. preserves_by_unfolding rsa_signverify_message_update. Qed.

#[local] Hint Resolve rsa_signverify_message_update_session : calls.

Lemma rsa_sign_message_final_session s n : preserves kept (rsa_sign_message_final s n).
Proof. preserves_by_unfolding rsa_sign_message_final. Qed.

#[local] Hint Resolve rsa_sign_message_final_session : calls.

Lemma rsa_verify_message_final_session : preserves kept rsa_verify_message_final.
Proof. preserves_by_unfolding rsa_verify_message_final. Qed.

#[local] Hint Resolve rsa_verify_message_final_session : calls.

Lemma and_then_session (a b : M Z) :
  preserves kept a -> preserves kept b -> preserves kept (and_then a b).
Proof.
  intros Ha Hb c w Hc. unfold and_then.
  apply wp_bind. eapply wp_preserves; [exact Ha | exact Hc |]. intros y c1 w1 H1.
  destruct (y =? 0); [now apply wp_ret |].
  apply wp_bind. eapply wp_preserves; [exact Hb | exact H1 |]. intros z c2 w2 H2.
  now destruct (z =? 0); apply wp_ret.
Qed.

Lemma forget_session {A} (m : M A) : preserves kept m -> preserves kept (forget m).
Proof.
  intros Hm c w Hc. unfold forget.
  apply wp_bind. eapply wp_preserves; [exact Hm | exact Hc |]. intros y c1 w1 H1.
  now apply wp_ret.
Qed.

#[local] Hint Resolve and_then_session forget_session : calls.

Lemma rsa_sign_session s n tbs : preserves kept (rsa_sign s n tbs).
Proof. preserves_by_unfolding rsa_sign. Qed.

#[local] Hint Resolve rsa_sign_session : calls.

Lemma rsa_verify_session s n tbs : preserves kept (rsa_verify s n tbs).
Proof. preserves_by_unfolding rsa_verify. Qed.

#[local] Hint Resolve rsa_verify_session : calls.

Lemma rsa_digest_sign_update_session data : preserves kept (rsa_digest_sign_update data).
Proof. preserves_by_unfolding rsa_digest_sign_update. Qed.

#[local] Hint Resolve rsa_digest_sign_update_session : calls.

Lemma rsa_digest_sign_final_session s n : preserves kept (rsa_digest_sign_final s n).
Proof. preserves_by_unfolding rsa_digest_sign_final. Qed.

#[local] Hint Resolve rsa_digest_sign_final_session : calls.

Lemma rsa_digest_verify_update_session data : preserves kept (rsa_digest_verify_update data).
Proof. preserves_by_unfolding rsa_digest_verify_update. Qed.

#[local] Hint Resolve rsa_digest_verify_update_session : calls.

Lemma rsa_digest_verify_final_session s n : preserves kept (rsa_digest_verify_final s n).
Proof. preserves_by_unfolding rsa_digest_verify_final. Qed.

#[local] Hint Resolve rsa_digest_verify_final_session : calls.

Lemma exec_session k : preserves kept (exec k).
Proof. destruct k; cbn [exec]; auto 12 with calls. Qed.

Lemma exec_all_session ks : preserves kept (exec_all ks).
Proof.
  induction ks as [| k rest IH]; intros c w Hc; cbn [exec_all].
  - now apply wp_ret.
  - apply wp_bind.
    eapply (wp_preserves _ kept); [exact (exec_session k) | exact Hc |].
    intros u c' w' Hc'. now apply IH.
Qed.

End Session.

Section SessionKept.

Context `{Ext : Externals}.

(** Between two inits nothing changes the key the context holds, the
    operation, the mark of a fixed signature algorithm, the property
    query or the salt length floor: whatever parameters are set and
    whatever is signed or verified, and whether the calls succeed or
    fail. *)
Theorem calls_keep_session ks c w :
  let c' := (exec_all ks c w).1.2 in
  rsa c' = rsa c /\ operation c' = operation c /\ flag_sigalg c' = flag_sigalg c /\
  propq c' = propq c /\ min_saltlen c' = min_saltlen c.
Proof.
  intros c'. subst c'.
  assert (H : session_of c = session_of c /\ (false = true -> mdctx c = None))
    by (split; [reflexivity | discriminate]).
  apply (exec_all_session (session_of c) false ks c w) in H.
  unfold wp in H. destruct (exec_all ks c w) as [[u c'] w'].
  destruct H as [H _]. unfold session_of in H. cbn.
  injection H as H1 H2 H3 H4 H5. auto.
Qed.

(** A context of a fixed signature algorithm refuses the four calls of
    DigestSign and DigestVerify that follow an init, at any later point
    of its use: each returns 0, writes nothing and raises no error. *)
Theorem sigalg_context_refuses_digest_calls ks c w data s n sg l :
  flag_sigalg c = true ->
  let c' := (exec_all ks c w).1.2 in
  let w' := (exec_all ks c w).2 in
  rsa_digest_sign_update data c' w' = (0, c', w') /\
  rsa_digest_sign_final s n c' w' = (failed, c', w') /\
  rsa_digest_verify_update data c' w' = (0, c', w') /\
  rsa_digest_verify_final sg l c' w' = (0, c', w').
Proof.
  intros Hs c' w'.
  assert (H : session_of c = session_of c /\ (false = true -> mdctx c = None))
    by (split; [reflexivity | discriminate]).
  apply (exec_all_session (session_of c) false ks c w) in H.
  unfold wp in H. subst c' w'. destruct (exec_all ks c w) as [[u c'] w'].
  destruct H as [H _]. unfold session_of in H. cbn.
  injection H as _ _ H3 _ _. rewrite Hs in H3.
  unfold rsa_digest_sign_update, rsa_digest_sign_final, rsa_digest_verify_update,
    rsa_digest_verify_final.
  do 3 run. rewrite H3. auto.
Qed.

End SessionKept.

(** A verify-message context of the SHA2-256 algorithm, after one more
    update: the update of DigestVerify is refused, the message update of
    the algorithm itself is accepted. *)
Lemma sigalg_context_refuses_digest_calls_witness :
  let s := Toy.sigalg_verifying in
  let ks := [MessageUpdate [4]] in
  let c' := (exec_all ks s.1 s.2).1.2 in
  let w' := (exec_all ks s.1 s.2).2 in
  flag_sigalg s.1 = true /\
  (rsa_digest_verify_update [5] c' w').1.1 = 0 /\
  (rsa_signverify_message_update [5] c' w').1.1 = 1.
Proof.
  intros s ks c' w'.
  assert (Hs : flag_sigalg s.1 = true) by (vm_compute; reflexivity).
  split; [exact Hs |]. split; [| vm_compute; reflexivity].
  destruct (sigalg_context_refuses_digest_calls ks s.1 s.2 [5] OUT_NULL 0 None 0 Hs)
    as (_ & _ & E & _).
  cbv zeta in E. subst c' w'. now rewrite E.
Defined.

(** ** The transforms write the working buffer and nothing else *)

Section Frame.

Context `{Ext : Externals}.

Variable c0 : PROV_RSA_CTX.

#[local] Abbreviation but_tbuf :=
  (fun (c : PROV_RSA_CTX) (_ : world) => set_tbuf None c = set_tbuf None c0).

Lemma setup_tbuf_but_tbuf : preserves but_tbuf setup_tbuf.
Proof. preserves_by_unfolding setup_tbuf. Qed.

#[local] Hint Resolve setup_tbuf_but_tbuf : calls.

Lemma rsa_sign_directly_but_tbuf s n tbs : preserves but_tbuf (rsa_sign_directly s n tbs).
Proof. preserves_by_unfolding rsa_sign_directly. Qed.

Lemma rsa_verify_recover_but_tbuf o n s l : preserves but_tbuf (rsa_verify_recover o n s l).
Proof. preserves_by_unfolding rsa_verify_recover. Qed.

#[local] Hint Resolve rsa_verify_recover_but_tbuf : calls.

Lemma rsa_verify_directly_but_tbuf s l tbs : preserves but_tbuf (rsa_verify_directly s l tbs).
Proof. preserves_by_unfolding rsa_verify_directly. Qed.

End Frame.

Section FrameKept.

Context `{Ext : Externals}.

Lemma but_tbuf_eq (c c' : PROV_RSA_CTX) :
  set_tbuf None c' = set_tbuf None c -> set_tbuf (tbuf c) c' = c.
Proof. destruct c, c'. cbn. intros H. injection H. intros. now subst. Qed.

(** Signing, verifying and recovering change no field of the context
    but the pointer to the working buffer: not the key, the digests, the
    pad mode, the salt lengths or the life cycle, whatever the input and
    whether the call succeeds or fails. *)
Theorem transforms_write_only_tbuf c w :
  (forall s n tbs, set_tbuf (tbuf c) (rsa_sign_directly s n tbs c w).1.2 = c) /\
  (forall s l tbs, set_tbuf (tbuf c) (rsa_verify_directly s l tbs c w).1.2 = c) /\
  (forall o n s l, set_tbuf (tbuf c) (rsa_verify_recover o n s l c w).1.2 = c).
Proof.
  repeat split; intros; apply but_tbuf_eq.
  - assert (H := rsa_sign_directly_but_tbuf c s n tbs c w eq_refl).
    unfold wp in H. now destruct (rsa_sign_directly s n tbs c w) as [[? ?] ?].
  - assert (H := rsa_verify_directly_but_tbuf c s l tbs c w eq_refl).
    unfold wp in H. now destruct (rsa_verify_directly s l tbs c w) as [[? ?] ?].
  - assert (H := rsa_verify_recover_but_tbuf c o n s l c w eq_refl).
    unfold wp in H. now destruct (rsa_verify_recover o n s l c w) as [[? ?] ?].
Qed.

End FrameKept.

(** ** What the init of a fixed signature algorithm settles *)

Section SigalgBinds.

Context `{Ext : Externals}.

(** The property query is written at creation only. *)
Section Propq.

Variable pq : option string.

#[local] Abbreviation propq_is :=
  (fun (c : PROV_RSA_CTX) (_ : world) => propq c = pq).

Lemma rsa_setup_md_propq a b : preserves propq_is (rsa_setup_md a b).
Proof. preserves_by_unfolding rsa_setup_md. Qed.

Lemma rsa_setup_mgf1_md_propq a b : preserves propq_is (rsa_setup_mgf1_md a b).
Proof. preserves_by_unfolding rsa_setup_mgf1_md. Qed.

Lemma rsa_check_parameters_propq n : preserves propq_is (rsa_check_parameters n).
Proof. preserves_by_unfolding rsa_check_parameters. Qed.

Lemma rsa_sigalg_set_ctx_params_propq params :
  preserves propq_is (rsa_sigalg_set_ctx_params params).
Proof. preserves_by_unfolding rsa_sigalg_set_ctx_params. Qed.

#[local] Hint Resolve rsa_setup_md_propq rsa_setup_mgf1_md_propq
  rsa_check_parameters_propq rsa_sigalg_set_ctx_params_propq : calls.

Lemma rsa_signverify_init_propq vrsa params op :
  preserves propq_is (rsa_signverify_init vrsa rsa_sigalg_set_ctx_params params op).
Proof. preserves_by_unfolding rsa_signverify_init. Qed.

End Propq.

#[local] Hint Constructors cycle_inv utility_inv : calls.
#[local] Hint Resolve RSA_up_ref_utility RSA_free_utility ctx_key_utility
  rsa_setup_md_utility rsa_setup_mgf1_md_utility rsa_check_parameters_utility
  rsa_sigalg_set_ctx_params_utility : calls.

(** The generic init, when it succeeds, has set the operation and the
    three life-cycle flags, and has left the two marks of the fixed
    signature algorithms as they were. *)
Lemma rsa_signverify_init_cycle vrsa params op c w :
  wp (rsa_signverify_init vrsa rsa_sigalg_set_ctx_params params op)
     (fun r c' _ =>
        r <> 0 ->
        flag_allow_update c' = true /\ flag_allow_final c' = true /\
        flag_allow_oneshot c' = true /\ operation c' = op /\
        flag_allow_md c' = flag_allow_md c) c w.
Proof.
  unfold rsa_signverify_init.
  apply wp_bind, wp_running.
  destruct (w_running w); cbn [negb]; [| apply wp_ret; congruence].
  apply wp_bind, wp_get_ctx.
  destruct (_ && _); [apply wp_bind, wp_ERR_raise; apply wp_ret; congruence |].
  apply wp_bind.
  apply (wp_mono _ (fun _ c' _ => flag_allow_md c' = flag_allow_md c)).
  { destruct vrsa as [p |]; [| now apply wp_ret].
    wp_go (fun (c' : PROV_RSA_CTX) (_ : world) => flag_allow_md c' = flag_allow_md c);
      inv_solve. }
  intros ok c1 w1 Hmd. destruct ok; cbn [negb]; [| apply wp_ret; congruence].
  apply wp_bind.
  eapply (wp_preserves _ (fun (c' : PROV_RSA_CTX) (_ : world) =>
                            flag_allow_md c' = flag_allow_md c));
    [auto with calls | exact Hmd |].
  intros k c2 w2 Hmd2.
  destruct (ossl_rsa_key_op_get_protect k op); [| apply wp_ret; congruence].
  do 6 (apply wp_bind, wp_modify_ctx).
  wp_go (cycle_is (true, true, true, op, rsa c2, flag_sigalg c2, flag_allow_md c2));
    intros Hr; try congruence.
  all: match goal with
       | H : cycle_is _ ?c' _ |- context [flag_allow_update ?c'] =>
           unfold cycle_is, cycle_of in H; injection H as ? ? ? ? ? ? ?
       end; repeat split; congruence.
Qed.

(** A bind that succeeds on a context that allows the digest to change
    has recorded the digest fetched for the name, under that name. *)
Lemma rsa_setup_md_success name props c w :
  flag_allow_md c = true ->
  (rsa_setup_md (Some name) props c w).1.1 <> 0 ->
  let c' := (rsa_setup_md (Some name) props c w).1.2 in
  md c' = EVP_MD_fetch name (or_default props (propq c)) /\ md c' <> None /\
  mdname c' = name /\ mdctx c' = None /\
  cycle_of c' = cycle_of c /\ pad_mode c' = pad_mode c.
Proof.
  intros Hflag. unfold rsa_setup_md. do 3 run.
  destruct (EVP_MD_fetch _ _) as [md' |]; [| now cbn].
  destruct (_ =? NID_undef); [now cbn |].
  destruct (EVP_MD_xof md'); [now cbn |].
  destruct (rsa_check_padding_frame (Some name) None
              (ossl_digest_rsa_sign_get_md_nid md') c w) as [Hc Hw].
  destruct (rsa_check_padding _ _ _ c w) as [[ok c1] w1]. cbn in Hc, Hw. subst c1.
  destruct (ok =? 0); [now cbn |].
  destruct (OSSL_MAX_NAME_SIZE <=? _) eqn:Hlen; [now cbn |].
  apply Z.leb_gt in Hlen. rewrite (OPENSSL_strlcpy_fits name _ Hlen).
  rewrite Hflag. cbn [negb].
  assert (Hfree : forall c2 w2, (EVP_MD_CTX_free (mdctx c) c2 w2).1.2 = c2)
    by (intros; apply EVP_MD_CTX_free_ctx).
  destruct (negb (mgf1_md_set c)); [destruct (_ =? 0); [now cbn |] |]; cbn.
  all: match goal with
       | |- context [EVP_MD_CTX_free ?p ?c2 ?w2] =>
           generalize (Hfree c2 w2);
           destruct (EVP_MD_CTX_free p c2 w2) as [[u c3] w3]
       end.
  all: cbn; intros -> _; repeat split; discriminate.
Qed.

(** Starting the digest writes the digest context pointer only, and
    leaves one in place when it succeeds. *)
Lemma start_digest_success params c w :
  let out := start_digest params c w in
  set_mdctx None out.1.2 = set_mdctx None c /\ (out.1.1 <> 0 -> mdctx out.1.2 <> None).
Proof.
  unfold start_digest, EVP_MD_CTX_new, on_mdctx, EVP_MD_CTX_free, alloc_succeeds.
  do 4 run. destruct c; cbn.
  repeat match goal with
         | |- context [match ?x with _ => _ end] =>
             lazymatch x with
             | context [match _ with _ => _ end] => fail
             | _ => destruct x eqn:?; cbn
             end
         end.
  all: split; [reflexivity | congruence].
Qed.

Lemma sigalg_MD_fits h : Z.of_nat (String.length (sigalg_MD h)) < OSSL_MAX_NAME_SIZE.
Proof. destruct h; vm_compute; reflexivity. Qed.

(** The init of a fixed signature algorithm, on a context that allows
    its digest to change (as every new context does): when it returns 1
    the context is marked as one of a fixed algorithm, bound to the
    digest fetched for the algorithm's own name under the context's
    property query, in PKCS#1 v1.5 pad mode, with a digest context in
    place, the digest no longer changeable and all three life-cycle
    permissions given; the parameters of the call have no say in any of
    these. *)
Theorem sigalg_init_fixes_digest_and_padding h op vrsa params c w :
  flag_allow_md c = true ->
  let out := rsa_md_sigalg_init h op vrsa params c w in
  out.1.1 <> 0 ->
  operation out.1.2 = op /\
  flag_sigalg out.1.2 = true /\ flag_allow_md out.1.2 = false /\
  pad_mode out.1.2 = RSA_PKCS1_PADDING /\
  md out.1.2 = EVP_MD_fetch (sigalg_MD h) (propq c) /\ md out.1.2 <> None /\
  mdname out.1.2 = sigalg_MD h /\ mdctx out.1.2 <> None /\
  flag_allow_update out.1.2 = true /\ flag_allow_final out.1.2 = true /\
  flag_allow_oneshot out.1.2 = true.
Proof.
  intros Hmd out. subst out.
  unfold rsa_md_sigalg_init, rsa_sigalg_signverify_init. do 3 run.
  destruct (w_running w); cbn [negb]; [| cbn; congruence].
  assert (H1 := rsa_signverify_init_cycle vrsa params op c w).
  assert (H2 := rsa_signverify_init_propq (propq c) vrsa params op c w eq_refl).
  unfold wp in H1, H2.
  destruct (rsa_signverify_init vrsa rsa_sigalg_set_ctx_params params op c w)
    as [[r c1] w1].
  cbn in H1, H2.
  destruct (r =? 0) eqn:Hr; [cbn; congruence |].
  apply Z.eqb_neq in Hr. destruct (H1 Hr) as (Hu & Hf & Ho & Hop & Hmd1).
  rewrite Hmd in Hmd1.
  destruct (pad_mode c1 =? RSA_PKCS1_PSS_PADDING); [cbn; congruence |].
  assert (H3 := rsa_setup_md_success (sigalg_MD h) None c1 w1 Hmd1).
  destruct (rsa_setup_md (Some (sigalg_MD h)) None c1 w1) as [[r2 c2] w2].
  cbn in H3.
  destruct (r2 =? 0) eqn:Hr2; [cbn; congruence |].
  apply Z.eqb_neq in Hr2. destruct (H3 Hr2) as (Hfetch & Hsome & Hname & _ & Hcyc & _).
  unfold cycle_of in Hcyc. injection Hcyc as Hu2 Hf2 Ho2 Hop2 _ _ _.
  match goal with
  | |- context [start_digest params ?cx ?wx] =>
      destruct (start_digest_success params cx wx) as [Heq Hctx];
      destruct (start_digest params cx wx) as [[r3 c3] w3]
  end.
  cbn in Heq, Hctx |- *. intros Hr3.
  assert (Hfield : forall {T} (f : PROV_RSA_CTX -> T),
            f (set_mdctx None c3) = f (set_mdctx None
               (set_flag_allow_md false (set_flag_sigalg true
                  (set_pad_mode RSA_PKCS1_PADDING c2)))))
    by (intros; now rewrite Heq).
  repeat split.
  - etransitivity; [exact (Hfield _ operation) | cbn; congruence].
  - exact (Hfield _ flag_sigalg).
  - exact (Hfield _ flag_allow_md).
  - exact (Hfield _ pad_mode).
  - etransitivity; [exact (Hfield _ md) | cbn; congruence].
  - intros E. apply Hsome. rewrite <- E. symmetry. exact (Hfield _ md).
  - etransitivity; [exact (Hfield _ mdname) | cbn; congruence].
  - now apply Hctx.
  - etransitivity; [exact (Hfield _ flag_allow_update) | cbn; congruence].
  - etransitivity; [exact (Hfield _ flag_allow_final) | cbn; congruence].
  - etransitivity; [exact (Hfield _ flag_allow_oneshot) | cbn; congruence].
Qed.

End SigalgBinds.

(** The SHA2-256 sign init on a new context and the toy RSA key, with
    a parameter list that asks for nothing. *)
Lemma sigalg_init_fixes_digest_and_padding_witness :
  let c := Toy.new_ctx in
  let out := rsa_md_sigalg_init sha256 EVP_PKEY_OP_SIGN (Some 1%positive) [] c Toy.world0 in
  (flag_allow_md c = true /\ out.1.1 <> 0) /\
  operation out.1.2 = EVP_PKEY_OP_SIGN /\ flag_sigalg out.1.2 = true /\
  flag_allow_md out.1.2 = false /\ pad_mode out.1.2 = RSA_PKCS1_PADDING /\
  mdname out.1.2 = "SHA2-256"%string.
Proof.
  intros c out.
  assert (Hmd : flag_allow_md c = true) by (vm_compute; reflexivity).
  assert (Hok : out.1.1 <> 0) by (vm_compute; congruence).
  split; [exact (conj Hmd Hok) |].
  destruct (sigalg_init_fixes_digest_and_padding sha256 EVP_PKEY_OP_SIGN
              (Some 1%positive) [] c Toy.world0 Hmd Hok)
    as (H1 & H2 & H3 & H4 & _ & _ & H7 & _).
  exact (conj H1 (conj H2 (conj H3 (conj H4 H7)))).
Defined.

(** ** From creation on *)

Section Life.

Context `{Ext : Externals}.

#[local] Hint Constructors cycle_inv utility_inv flags_inv : calls.
#[local] Hint Resolve rsa_set_ctx_params_cycle rsa_signverify_init_flags_ok
  rsa_digest_signverify_init_flags_ok rsa_sigalg_signverify_init_flags_ok
  forget_preserves exec_flags : calls.

Lemma init_flags_ok i vrsa params : preserves flags_ok (init i vrsa params).
Proof.
  destruct i; cbn [init];
    unfold rsa_sign_init, rsa_verify_init, rsa_verify_recover_init,
      rsa_digest_sign_init, rsa_digest_verify_init, rsa_md_sigalg_init;
    intros c w Hc; wp_go flags_ok; inv_solve.
Qed.

Lemma run_steps_flags_ok ss : preserves flags_ok (run_steps ss).
Proof.
  induction ss as [| s rest IH]; intros c w Hc; cbn [run_steps].
  - now apply wp_ret.
  - apply wp_bind. eapply (wp_preserves _ flags_ok); [| exact Hc |].
    + destruct s; cbn [run_step]; auto 6 using init_flags_ok with calls.
    + intros u c' w' Hc'. now apply IH.
Qed.

Lemma rsa_newctx_fields propq' w c w0 :
  rsa_newctx propq' w = (Some c, w0) ->
  c = mk_ctx propq' None 0 false true false false false false None None 0 ""
             0 None 0 "" RSA_PSS_SALTLEN_AUTO_DIGEST_MAX (-1) None 0 None.
Proof.
  unfold rsa_newctx.
  destruct (negb (w_running w)); [discriminate |].
  destruct (alloc_succeeds zeroed_ctx w) as [[ok1 c1] w1].
  destruct (negb ok1); [discriminate |].
  destruct propq' as [q |].
  - destruct (alloc_succeeds zeroed_ctx w1) as [[ok2 c2] w2].
    destruct (negb ok2); [discriminate |]. now intros [= <- <-].
  - cbn. now intros [= <- <-].
Qed.

(** Whatever is done with a context after its creation (inits of any
    kind, with any key and parameters, and calls in any order, failed or
    not), update and final are allowed together or not at all, and a
    one-shot call is allowed only while both are. *)
Theorem flags_keep_shape ss propq' w c w0 :
  rsa_newctx propq' w = (Some c, w0) ->
  let c' := (run_steps ss c w0).1.2 in
  flag_allow_update c' = flag_allow_final c' /\
  (flag_allow_oneshot c' = true -> flag_allow_update c' = true).
Proof.
  intros Hnew c'. subst c'.
  apply rsa_newctx_fields in Hnew.
  assert (H0 : flags_ok c w0) by (subst c; split; [reflexivity | discriminate]).
  apply (run_steps_flags_ok ss) in H0. unfold wp in H0.
  now destruct (run_steps ss c w0) as [[u c'] w'].
Qed.

(** Before its first init a context signs and verifies nothing,
    whatever parameters have been set on it and whatever has been tried:
    the message update and the two finals return 0 and do nothing, and
    the one-shot sign and verify return 0 and (the provider running)
    raise ONESHOT_CALL_OUT_OF_ORDER; none of them changes a field of the
    context. *)
Theorem new_context_refuses_use ks propq' w c w0 :
  rsa_newctx propq' w = (Some c, w0) ->
  let c' := (exec_all ks c w0).1.2 in
  let w' := (exec_all ks c w0).2 in
  let refused :=
    if w_running w' then pushed ERR_LIB_PROV PROV_R_ONESHOT_CALL_OUT_OF_ORDER w'
    else w' in
  (forall data, rsa_signverify_message_update data c' w' = (0, c', w')) /\
  (forall s n, rsa_sign_message_final s n c' w' = (failed, c', w')) /\
  rsa_verify_message_final c' w' = (0, c', w') /\
  (forall s n tbs, rsa_sign s n tbs c' w' = (failed, c', refused)) /\
  (forall s n tbs, rsa_verify s n tbs c' w' = (0, c', refused)).
Proof.
  intros Hnew c' w' refused. subst c' w' refused.
  apply rsa_newctx_fields in Hnew.
  assert (H1 : no_oneshot c w0) by (subst c; reflexivity).
  assert (H2 : session_of c = session_of c /\ (true = true -> mdctx c = None))
    by (subst c; split; reflexivity).
  apply (exec_all_flags _ ks fi_no_oneshot) in H1.
  apply (exec_all_session (session_of c) true ks c w0) in H2.
  unfold wp in H1, H2. destruct (exec_all ks c w0) as [[u c'] w'].
  destruct H2 as [_ H2]. specialize (H2 eq_refl). unfold no_oneshot in H1.
  clear Hnew. destruct c'; cbn in H1, H2 |- *; subst.
  unfold rsa_signverify_message_update, rsa_sign_message_final,
    rsa_verify_message_final, rsa_sign, rsa_verify, pushed.
  do 4 run. cbn.
  repeat split; intros; now destruct (w_running w').
Qed.

End Life.

(** A new context on which parameters are set and a sign init, an
    update and a final are made: the flags have their shape; and the same
    context before any init refuses a one-shot sign. *)
Lemma flags_keep_shape_witness :
  let created := rsa_newctx None Toy.world0 in
  let c := Toy.new_ctx in
  let ss := [ Call (SetCtxParams Toy.sha256_param);
              Init (DigestSignInit (Some "SHA2-256"%string)) (Some 1%positive) [];
              Call (DigestSignUpdate Toy.message);
              Call (DigestSignFinal OUT_CALLER 256) ] in
  let c' := (run_steps ss c created.2).1.2 in
  created.1 = Some c /\
  flag_allow_update c' = false /\ flag_allow_final c' = false /\
  flag_allow_oneshot c' = false /\
  flag_allow_update c' = flag_allow_final c'.
Proof.
  intros created c ss c'.
  assert (Hnew : rsa_newctx None Toy.world0 = (Some c, created.2))
    by reflexivity.
  split; [reflexivity |].
  do 3 (split; [vm_compute; reflexivity |]).
  exact (proj1 (flags_keep_shape ss None Toy.world0 c created.2 Hnew)).
Defined.

Lemma new_context_refuses_use_witness :
  let created := rsa_newctx None Toy.world0 in
  let c := Toy.new_ctx in
  let ks := [SetCtxParams Toy.sha256_param] in
  let c' := (exec_all ks c created.2).1.2 in
  let w' := (exec_all ks c created.2).2 in
  created.1 = Some c /\
  (rsa_sign OUT_CALLER 256 Toy.digest32 c' w').1.1 = failed /\
  (rsa_verify (Some Toy.digest32) 32 Toy.digest32 c' w').1.1 = 0.
Proof.
  intros created c ks c' w'.
  assert (Hnew : rsa_newctx None Toy.world0 = (Some c, created.2))
    by reflexivity.
  split; [reflexivity |].
  destruct (new_context_refuses_use ks None Toy.world0 c created.2 Hnew)
    as (_ & _ & _ & Hs & Hv).
  subst c' w'. now rewrite Hs, Hv.
Defined.

(** ** What a duplicate is made of *)

Section DupCopies.

Context `{Ext : Externals}.

(** The body of the duplication, when it does not jump to [err]. *)
Lemma dup_fields_done src w dst w' :
  dup_fields src src w = (true, dst, w') ->
  set_tbuf None (set_mdctx None dst) = set_tbuf None (set_mdctx None src) /\
  tbuf dst = None /\
  (mdctx dst = None <-> mdctx src = None) /\
  (forall p, mdctx dst = Some p ->
     w_mdctxs w !! p = None /\ w_mdctxs w' !! p <> None) /\
  w_keys w' =
    match rsa src with
    | Some p =>
        match w_keys w !! p with
        | Some o => <[p := mk_RSA_obj (obj_key o) (S (obj_references o))]> (w_keys w)
        | None => w_keys w
        end
    | None => w_keys w
    end /\
  w_bufs w' = w_bufs w /\ w_faults w' = w_faults w.
Proof.
  unfold dup_fields, RSA_up_ref, EVP_MD_CTX_new, on_mdctx, alloc_succeeds.
  do 4 run. destruct src, w; cbn.
  repeat match goal with
         | |- context [match ?x with _ => _ end] =>
             lazymatch x with
             | context [match _ with _ => _ end] => fail
             | _ => destruct x eqn:?; cbn
             end
         end.
  all: try (intros; discriminate).
  all: intros [= <- <-]; cbn; repeat split; try discriminate; try congruence.
  all: match goal with H : Some (fresh _) = Some _ |- _ => injection H as <- end.
  all: first [apply not_elem_of_dom, is_fresh | rewrite lookup_insert_eq; discriminate].
Qed.

(** A duplicate, when one is returned, has every field of the original
    but two: it has no working buffer, and where the original has a
    digest context it has one of its own, an object that did not exist
    before.  The key is the same object with one more reference; no
    buffer is allocated or copied, and no fault is recorded. *)
Theorem rsa_dupctx_copies src w dst w' :
  rsa_dupctx src w = (Some dst, w') ->
  set_tbuf None (set_mdctx None dst) = set_tbuf None (set_mdctx None src) /\
  tbuf dst = None /\
  (mdctx dst = None <-> mdctx src = None) /\
  (forall p, mdctx dst = Some p ->
     w_mdctxs w !! p = None /\ w_mdctxs w' !! p <> None) /\
  w_keys w' =
    match rsa src with
    | Some p =>
        match w_keys w !! p with
        | Some o => <[p := mk_RSA_obj (obj_key o) (S (obj_references o))]> (w_keys w)
        | None => w_keys w
        end
    | None => w_keys w
    end /\
  w_bufs w' = w_bufs w /\ w_faults w' = w_faults w.
Proof.
  unfold rsa_dupctx.
  destruct (negb (w_running w)); [discriminate |].
  assert (Ha : let w1 := (alloc_succeeds src w).2 in
               w_keys w1 = w_keys w /\ w_bufs w1 = w_bufs w /\
               w_mdctxs w1 = w_mdctxs w /\ w_faults w1 = w_faults w)
    by (unfold alloc_succeeds; now destruct (w_alloc w)).
  destruct (alloc_succeeds src w) as [[ok c1] w1]. cbn in Ha.
  destruct Ha as (Hk & Hb & Hm & Hf).
  destruct (negb ok); [discriminate |].
  destruct (dup_fields src src w1) as [[ok' d] w2] eqn:Hd.
  destruct ok'; [| destruct (rsa_freectx d w2) as [[? ?] ?]; discriminate].
  intros [= <- <-].
  apply dup_fields_done in Hd. rewrite Hk, Hb, Hm, Hf in Hd. exact Hd.
Qed.

End DupCopies.

(** The verify-message context that is under way on the toy key, its
    signature staged, duplicated. *)
Lemma rsa_dupctx_copies_witness :
  let s := Toy.sigalg_verifying in
  let d := rsa_dupctx s.1 s.2 in
  let dst := default zeroed_ctx d.1 in
  d.1 = Some dst /\
  tbuf dst = None /\ mdctx dst <> None /\ w_bufs d.2 = w_bufs s.2.
Proof.
  intros s d dst.
  assert (Hd : rsa_dupctx s.1 s.2 = (Some dst, d.2)).
  { subst dst d. rewrite (surjective_pairing (rsa_dupctx s.1 s.2)) at 1.
    now f_equal. }
  split; [reflexivity |].
  destruct (rsa_dupctx_copies s.1 s.2 dst d.2 Hd) as (_ & Ht & Hm & _ & _ & Hb & _).
  split; [exact Ht |]. split; [| exact Hb].
  intros E. apply Hm in E. vm_compute in E. discriminate.
Defined.

(** ** Setting and reading parameters *)

Section Commit.

Context `{Ext : Externals}.

Section Committed.

Variables pm sl : Z.

#[local] Abbreviation committed :=
  (fun (c : PROV_RSA_CTX) (_ : world) => pad_mode c = pm /\ saltlen c = sl).

Lemma rsa_setup_md_committed a b : preserves committed (rsa_setup_md a b).
Proof. preserves_by_unfolding rsa_setup_md. Qed.

Lemma rsa_setup_mgf1_md_committed a b : preserves committed (rsa_setup_mgf1_md a b).
Proof. preserves_by_unfolding rsa_setup_mgf1_md. Qed.

End Committed.

#[local] Hint Resolve rsa_setup_md_committed rsa_setup_mgf1_md_committed : calls.

(** A successful [rsa_set_ctx_params] has committed the pad mode and the
    salt length it was asked for. *)
Lemma rsa_set_ctx_params_commits params c w :
  params <> [] ->
  wp (rsa_set_ctx_params params)
     (fun r c' _ =>
        r <> 0 ->
        Some (pad_mode c') = requested_pad_mode params c /\
        Some (saltlen c') = requested_saltlen params c) c w.
Proof.
  intros Hne. unfold rsa_set_ctx_params, requested_pad_mode, requested_saltlen.
  destruct params as [| p0 rest]; [congruence |]. cbn [ossl_param_is_empty].
  wp_go (fun (c' : PROV_RSA_CTX) (_ : world) => c' = c); try (intros; congruence).
  all: try match goal with
       | |- wp _ _ (set_pad_mode ?z (set_saltlen ?s _)) _ =>
           wp_go (fun (c' : PROV_RSA_CTX) (_ : world) => pad_mode c' = z /\ saltlen c' = s)
       end.
  all: try (intros; congruence).
  all: intros _; cbn in *; intuition congruence.
Qed.

Lemma padding_by_name_unknown items name d :
  (forall id' word, In (id', word) items -> name <> word) ->
  padding_by_name items name d = d.
Proof.
  induction items as [| [i word] rest IH]; intros Hno; cbn; [reflexivity |].
  destruct (String.eqb name word) eqn:E.
  - apply String.eqb_eq in E. destruct (Hno i word); [now left | exact E].
  - apply IH. intros i' w' Hin. apply (Hno i'). now right.
Qed.

Lemma padding_by_name_known id' word d :
  In (id', word) padding_item -> padding_by_name padding_item word d = id'.
Proof.
  intros [H | [H | [H | [H | []]]]]; injection H as <- <-; reflexivity.
Qed.

(** A pad mode name that the table does not have is not refused as
    such: the request is taken as one for the pad mode the context
    already has, and from there on the call does what it does for the
    name of that pad mode. *)
Theorem unknown_pad_mode_name_is_current name word rest c w :
  (forall id' word', In (id', word') padding_item -> name <> word') ->
  In (pad_mode c, word) padding_item ->
  rsa_set_ctx_params
    (mk_param OSSL_SIGNATURE_PARAM_PAD_MODE (PARAM_UTF8_STRING (Some name)) :: rest) c w =
  rsa_set_ctx_params
    (mk_param OSSL_SIGNATURE_PARAM_PAD_MODE (PARAM_UTF8_STRING (Some word)) :: rest) c w.
Proof.
  intros Hno Hin.
  unfold rsa_set_ctx_params, get_name_and_props.
  cbn [ossl_param_is_empty OSSL_PARAM_locate_const p_key p_data].
  change (String.eqb OSSL_SIGNATURE_PARAM_PAD_MODE OSSL_SIGNATURE_PARAM_DIGEST) with false.
  change (String.eqb OSSL_SIGNATURE_PARAM_PAD_MODE OSSL_SIGNATURE_PARAM_PROPERTIES)
    with false.
  change (String.eqb OSSL_SIGNATURE_PARAM_PAD_MODE OSSL_SIGNATURE_PARAM_PAD_MODE)
    with true.
  change (String.eqb OSSL_SIGNATURE_PARAM_PAD_MODE OSSL_SIGNATURE_PARAM_PSS_SALTLEN)
    with false.
  change (String.eqb OSSL_SIGNATURE_PARAM_PAD_MODE OSSL_SIGNATURE_PARAM_MGF1_DIGEST)
    with false.
  change (String.eqb OSSL_SIGNATURE_PARAM_PAD_MODE OSSL_SIGNATURE_PARAM_MGF1_PROPERTIES)
    with false.
  cbn match. do 3 run. cbn [p_data]. cbn match.
  rewrite (padding_by_name_unknown _ name _ Hno).
  now rewrite (padding_by_name_known _ word _ Hin).
Qed.

End Commit.

(** The misspelt name "pksc1" on a context in PKCS#1 v1.5 pad mode: the
    call succeeds and the pad mode stays. *)
Lemma unknown_pad_mode_name_is_current_witness :
  let s := Toy.pkcs1_sign in
  let typo := rsa_set_ctx_params
                [mk_param OSSL_SIGNATURE_PARAM_PAD_MODE
                   (PARAM_UTF8_STRING (Some "pksc1"%string))] s.1 s.2 in
  In (pad_mode s.1, "pkcs1"%string) padding_item /\
  typo.1.1 = 1 /\ pad_mode typo.1.2 = RSA_PKCS1_PADDING.
Proof.
  intros s typo.
  assert (Hin : In (pad_mode s.1, "pkcs1"%string) padding_item) by (left; reflexivity).
  split; [exact Hin |].
  subst typo.
  rewrite (unknown_pad_mode_name_is_current "pksc1" "pkcs1" [] s.1 s.2);
    [split; vm_compute; reflexivity | | exact Hin].
  intros i word [H | [H | [H | [H | []]]]]; injection H as _ <-; discriminate.
Defined.

Section ReadBack.

Context `{Ext : Externals} `{Wr : ParamWriters}.

Lemma padding_by_id_known id' word :
  In (id', word) padding_item -> padding_by_id padding_item id' = Some word.
Proof.
  intros [H | [H | [H | [H | []]]]]; injection H as <- <-; reflexivity.
Qed.

(** A query for the pad mode alone, as a string. *)
Lemma rsa_get_ctx_params_pad_mode_string aid req c w :
  o_key req = OSSL_SIGNATURE_PARAM_PAD_MODE ->
  o_data_type req = OSSL_PARAM_UTF8_STRING ->
  rsa_get_ctx_params aid [req] c w =
    match padding_by_id padding_item (pad_mode c) with
    | Some word =>
        (match OSSL_PARAM_set_utf8_string req word with
         | Some r => (1, [written req r])
         | None => (0, [req])
         end, c, w)
    | None => ((1, [req]), c, pushed ERR_LIB_PROV ERR_R_INTERNAL_ERROR w)
    end.
Proof.
  destruct req as [k t sz d rs]. cbn [o_key o_data_type]. intros -> ->.
  unfold rsa_get_ctx_params, at_param, pushed.
  cbn -[padding_by_id padding_item]. do 4 run.
  destruct (padding_by_id padding_item (pad_mode c)) as [word |];
    cbn -[padding_by_id padding_item]; [| reflexivity].
  now destruct (OSSL_PARAM_set_utf8_string _ word) as [r |].
Qed.

(** A query for the salt length alone, as a string, on a context whose
    salt length is one of the four symbolic ones. *)
Lemma rsa_get_ctx_params_saltlen_word aid req c w word :
  o_key req = OSSL_SIGNATURE_PARAM_PSS_SALTLEN ->
  o_data_type req = OSSL_PARAM_UTF8_STRING ->
  saltlen_word (saltlen c) = Some word ->
  rsa_get_ctx_params aid [req] c w =
    (match OSSL_PARAM_set_utf8_string req word with
     | Some r => (1, [written req r])
     | None => (0, [req])
     end, c, w).
Proof.
  destruct req as [k t sz d rs]. cbn [o_key o_data_type]. intros -> -> Hw.
  unfold rsa_get_ctx_params, at_param.
  cbn -[saltlen_word]. do 4 run. rewrite Hw. cbn -[saltlen_word].
  now destruct (OSSL_PARAM_set_utf8_string _ word) as [r |].
Qed.

(** A pad mode set by its name is the pad mode read back: after a
    successful [rsa_set_ctx_params] whose pad mode parameter is a word
    of the table, the context has the pad mode of that word, and a query
    for the pad mode as a string hands the same word to the writer,
    returns what the writer allows and raises nothing. *)
Theorem pad_mode_set_then_get id' word rest aid req c w :
  In (id', word) padding_item ->
  o_key req = OSSL_SIGNATURE_PARAM_PAD_MODE ->
  o_data_type req = OSSL_PARAM_UTF8_STRING ->
  let s := rsa_set_ctx_params
             (mk_param OSSL_SIGNATURE_PARAM_PAD_MODE (PARAM_UTF8_STRING (Some word))
                :: rest) c w in
  s.1.1 <> 0 ->
  pad_mode s.1.2 = id' /\
  rsa_get_ctx_params aid [req] s.1.2 s.2 =
    (match OSSL_PARAM_set_utf8_string req word with
     | Some r => (1, [written req r])
     | None => (0, [req])
     end, s.1.2, s.2).
Proof.
  intros Hin Hk Ht s Hok.
  assert (H := rsa_set_ctx_params_commits
                 (mk_param OSSL_SIGNATURE_PARAM_PAD_MODE (PARAM_UTF8_STRING (Some word))
                    :: rest) c w ltac:(discriminate)).
  unfold wp in H. fold s in H. destruct s as [[r c'] w']. cbn [fst snd] in Hok, H |- *.
  destruct (H Hok) as [Hpad _]. unfold requested_pad_mode in Hpad.
  cbn [OSSL_PARAM_locate_const p_key p_data] in Hpad.
  change (String.eqb OSSL_SIGNATURE_PARAM_PAD_MODE OSSL_SIGNATURE_PARAM_PAD_MODE)
    with true in Hpad.
  cbn match in Hpad. cbn [p_data fst snd] in Hpad. cbn match in Hpad.
  rewrite (padding_by_name_known _ _ _ Hin) in Hpad.
  injection Hpad as Hpad. split; [exact Hpad |].
  rewrite (rsa_get_ctx_params_pad_mode_string aid req c' w' Hk Ht), Hpad.
  now rewrite (padding_by_id_known _ _ Hin).
Qed.

(** The same for a salt length set by one of its four symbolic names. *)
Theorem saltlen_set_then_get word rest aid req c w :
  In word [ OSSL_PKEY_RSA_PSS_SALT_LEN_DIGEST; OSSL_PKEY_RSA_PSS_SALT_LEN_MAX;
            OSSL_PKEY_RSA_PSS_SALT_LEN_AUTO;
            OSSL_PKEY_RSA_PSS_SALT_LEN_AUTO_DIGEST_MAX ] ->
  OSSL_PARAM_locate_const rest OSSL_SIGNATURE_PARAM_PSS_SALTLEN = None ->
  o_key req = OSSL_SIGNATURE_PARAM_PSS_SALTLEN ->
  o_data_type req = OSSL_PARAM_UTF8_STRING ->
  let s := rsa_set_ctx_params
             (rest ++ [mk_param OSSL_SIGNATURE_PARAM_PSS_SALTLEN
                         (PARAM_UTF8_STRING (Some word))]) c w in
  s.1.1 <> 0 ->
  saltlen s.1.2 = saltlen_by_name word /\
  rsa_get_ctx_params aid [req] s.1.2 s.2 =
    (match OSSL_PARAM_set_utf8_string req word with
     | Some r => (1, [written req r])
     | None => (0, [req])
     end, s.1.2, s.2).
Proof.
  intros Hin Hrest Hk Ht s Hok.
  assert (Hne : rest ++ [mk_param OSSL_SIGNATURE_PARAM_PSS_SALTLEN
                           (PARAM_UTF8_STRING (Some word))] <> [])
    by (now destruct rest).
  assert (H := rsa_set_ctx_params_commits _ c w Hne).
  unfold wp in H. fold s in H. destruct s as [[r c'] w']. cbn [fst snd] in Hok, H |- *.
  destruct (H Hok) as [_ Hsl]. unfold requested_saltlen in Hsl.
  assert (Hloc : OSSL_PARAM_locate_const
                   (rest ++ [mk_param OSSL_SIGNATURE_PARAM_PSS_SALTLEN
                               (PARAM_UTF8_STRING (Some word))])
                   OSSL_SIGNATURE_PARAM_PSS_SALTLEN
                 = Some (mk_param OSSL_SIGNATURE_PARAM_PSS_SALTLEN
                           (PARAM_UTF8_STRING (Some word)))).
  { clear -Hrest. induction rest as [| p rest IH]; [reflexivity |].
    cbn in Hrest |- *. destruct (String.eqb (p_key p) _); [discriminate |]. auto. }
  rewrite Hloc in Hsl. cbn [p_data] in Hsl. injection Hsl as Hsl.
  split; [exact Hsl |].
  apply (rsa_get_ctx_params_saltlen_word aid req c' w' word Hk Ht).
  rewrite Hsl.
  destruct Hin as [<- | [<- | [<- | [<- | []]]]]; reflexivity.
Qed.

(** A context that has not been initialised has no pad mode the table
    knows: a query for it as a string returns 1 although it writes
    nothing to the entry, and raises INTERNAL_ERROR. *)
Theorem new_context_pad_mode_query propq' w0 c w aid req :
  rsa_newctx propq' w0 = (Some c, w) ->
  o_key req = OSSL_SIGNATURE_PARAM_PAD_MODE ->
  o_data_type req = OSSL_PARAM_UTF8_STRING ->
  rsa_get_ctx_params aid [req] c w =
    ((1, [req]), c, pushed ERR_LIB_PROV ERR_R_INTERNAL_ERROR w).
Proof.
  intros Hnew Hk Ht. apply rsa_newctx_fields in Hnew.
  rewrite (rsa_get_ctx_params_pad_mode_string aid req c w Hk Ht).
  now subst c.
Qed.

End ReadBack.

(** On the toy key: PSS set by name on a sign context and read back; the
    salt length set to "max" in the same call and read back. *)
Lemma pad_mode_set_then_get_witness :
  let s0 := Toy.pkcs1_sign in
  let req := Toy.ask OSSL_SIGNATURE_PARAM_PAD_MODE in
  let s := rsa_set_ctx_params
             [mk_param OSSL_SIGNATURE_PARAM_PAD_MODE
                (PARAM_UTF8_STRING (Some "pss"%string))] s0.1 s0.2 in
  s.1.1 <> 0 /\
  (rsa_get_ctx_params (Wr := Toy.writers) (ret None) [req] s.1.2 s.2).1.1 =
    (1, [mk_out OSSL_SIGNATURE_PARAM_PAD_MODE OSSL_PARAM_UTF8_STRING 32
           (Some (CONTENT_TEXT "pss")) 3]).
Proof.
  intros s0 req s.
  assert (Hok : s.1.1 <> 0) by (vm_compute; congruence).
  split; [exact Hok |].
  destruct (pad_mode_set_then_get (Wr := Toy.writers) RSA_PKCS1_PSS_PADDING "pss" [] (ret None) req
              s0.1 s0.2) as [_ E];
    [do 3 right; left; reflexivity | reflexivity | reflexivity | exact Hok |].
  cbv zeta in E. fold s in E. now rewrite E.
Defined.

Lemma saltlen_set_then_get_witness :
  let s0 := Toy.pkcs1_sign in
  let req := Toy.ask OSSL_SIGNATURE_PARAM_PSS_SALTLEN in
  let s := rsa_set_ctx_params
             ([mk_param OSSL_SIGNATURE_PARAM_PAD_MODE
                 (PARAM_UTF8_STRING (Some "pss"%string))] ++
              [mk_param OSSL_SIGNATURE_PARAM_PSS_SALTLEN
                 (PARAM_UTF8_STRING (Some "max"%string))]) s0.1 s0.2 in
  s.1.1 <> 0 /\
  saltlen s.1.2 = RSA_PSS_SALTLEN_MAX /\
  (rsa_get_ctx_params (Wr := Toy.writers) (ret None) [req] s.1.2 s.2).1.1 =
    (1, [mk_out OSSL_SIGNATURE_PARAM_PSS_SALTLEN OSSL_PARAM_UTF8_STRING 32
           (Some (CONTENT_TEXT "max")) 3]).
Proof.
  intros s0 req s.
  assert (Hok : s.1.1 <> 0) by (vm_compute; congruence).
  split; [exact Hok |].
  destruct (saltlen_set_then_get (Wr := Toy.writers) "max"
              [mk_param OSSL_SIGNATURE_PARAM_PAD_MODE
                 (PARAM_UTF8_STRING (Some "pss"%string))]
              (ret None) req s0.1 s0.2) as [E1 E2];
    [right; left; reflexivity | reflexivity | reflexivity | reflexivity | exact Hok |].
  cbv zeta in E1, E2. fold s in E1, E2. split; [exact E1 | now rewrite E2].
Defined.

Lemma new_context_pad_mode_query_witness :
  let created := rsa_newctx None Toy.world0 in
  let c := Toy.new_ctx in
  let req := Toy.ask OSSL_SIGNATURE_PARAM_PAD_MODE in
  let out := rsa_get_ctx_params (Wr := Toy.writers) (ret None) [req] c created.2 in
  created.1 = Some c /\
  out.1.1 = (1, [req]) /\
  w_errs out.2 = [mk_err ERR_LIB_PROV ERR_R_INTERNAL_ERROR []].
Proof.
  intros created c req out.
  assert (Hnew : rsa_newctx None Toy.world0 = (Some c, created.2)) by reflexivity.
  split; [reflexivity |].
  subst out.
  rewrite (new_context_pad_mode_query (Wr := Toy.writers) None Toy.world0 c created.2 (ret None) req Hnew);
    [| reflexivity | reflexivity].
  split; reflexivity.
Defined.

(** ** The buffers across an init *)

Section InitBuffers.

Context `{Ext : Externals}.

Section Kept.

Variable t s : option positive.
Variable blocks : gmap positive (list Z).

#[local] Abbreviation buffers_kept :=
  (fun (c : PROV_RSA_CTX) (w : world) => tbuf c = t /\ sig c = s /\ w_bufs w = blocks).

Lemma RSA_up_ref_buffers p : preserves buffers_kept (RSA_up_ref p).
Proof. preserves_by_unfolding RSA_up_ref. Qed.

#[local] Hint Resolve RSA_up_ref_buffers : calls.

Lemma RSA_free_buffers p : preserves buffers_kept (RSA_free p).
Proof. preserves_by_unfolding RSA_free. Qed.

#[local] Hint Resolve RSA_free_buffers : calls.

Lemma the_key_buffers p : preserves buffers_kept (the_key p).
Proof. preserves_by_unfolding the_key. Qed.

#[local] Hint Resolve the_key_buffers : calls.

Lemma ctx_key_buffers : preserves buffers_kept ctx_key.
Proof. preserves_by_unfolding ctx_key. Qed.

#[local] Hint Resolve ctx_key_buffers : calls.

Lemma EVP_MD_CTX_new_buffers : preserves buffers_kept EVP_MD_CTX_new.
Proof. preserves_by_unfolding EVP_MD_CTX_new. Qed.

#[local] Hint Resolve EVP_MD_CTX_new_buffers : calls.

Lemma EVP_MD_CTX_free_buffers p : preserves buffers_kept (EVP_MD_CTX_free p).
Proof. preserves_by_unfolding EVP_MD_CTX_free. Qed.

#[local] Hint Resolve EVP_MD_CTX_free_buffers : calls.

Lemma on_mdctx_buffers {A} p (d : A) f : preserves buffers_kept (on_mdctx p d f).
Proof. preserves_by_unfolding on_mdctx. Qed.

#[local] Hint Resolve on_mdctx_buffers : calls.

Lemma rsa_check_padding_buffers a b n : preserves buffers_kept (rsa_check_padding a b n).
Proof. preserves_by_unfolding rsa_check_padding. Qed.

#[local] Hint Resolve rsa_check_padding_buffers : calls.

Lemma set_saltlen_restrictions_ok_buffers n : preserves buffers_kept (set_saltlen_restrictions_ok n).
Proof. preserves_by_unfolding set_saltlen_restrictions_ok. Qed.

#[local] Hint Resolve set_saltlen_restrictions_ok_buffers : calls.

Lemma rsa_setup_md_buffers a b : preserves buffers_kept (rsa_setup_md a b).
Proof. preserves_by_unfolding rsa_setup_md. Qed.

#[local] Hint Resolve rsa_setup_md_buffers : calls.

Lemma rsa_setup_mgf1_md_buffers a b : preserves buffers_kept (rsa_setup_mgf1_md a b).
Proof. preserves_by_unfolding rsa_setup_mgf1_md. Qed.

#[local] Hint Resolve rsa_setup_mgf1_md_buffers : calls.

Lemma rsa_check_parameters_buffers n : preserves buffers_kept (rsa_check_parameters n).
Proof. preserves_by_unfolding rsa_check_parameters. Qed.

#[local] Hint Resolve rsa_check_parameters_buffers : calls.

Lemma rsa_set_ctx_params_buffers params : preserves buffers_kept (rsa_set_ctx_params params).
Proof. preserves_by_unfolding rsa_set_ctx_params. Qed.

#[local] Hint Resolve rsa_set_ctx_params_buffers : calls.

Lemma start_digest_buffers params : preserves buffers_kept (start_digest params).
Proof. preserves_by_unfolding start_digest. Qed.

#[local] Hint Resolve start_digest_buffers : calls.

Lemma rsa_signverify_init_buffers vrsa params op :
  preserves buffers_kept (rsa_signverify_init vrsa rsa_set_ctx_params params op).
Proof. preserves_by_unfolding rsa_signverify_init. Qed.

#[local] Hint Resolve rsa_signverify_init_buffers : calls.

Lemma rsa_digest_signverify_init_buffers mdname' vrsa params op :
  preserves buffers_kept (rsa_digest_signverify_init mdname' vrsa params op).
Proof. preserves_by_unfolding rsa_digest_signverify_init. Qed.

End Kept.

Section TbufKept.

Variable t : option positive.

#[local] Abbreviation tbuf_kept := (fun (c : PROV_RSA_CTX) (_ : world) => tbuf c = t).

Lemma rsa_setup_md_tbuf a b : preserves tbuf_kept (rsa_setup_md a b).
Proof. preserves_by_unfolding rsa_setup_md. Qed.

Lemma rsa_setup_mgf1_md_tbuf a b : preserves tbuf_kept (rsa_setup_mgf1_md a b).
Proof. preserves_by_unfolding rsa_setup_mgf1_md. Qed.

Lemma rsa_check_parameters_tbuf n : preserves tbuf_kept (rsa_check_parameters n).
Proof. preserves_by_unfolding rsa_check_parameters. Qed.

Lemma rsa_sigalg_set_ctx_params_tbuf params :
  preserves tbuf_kept (rsa_sigalg_set_ctx_params params).
Proof. preserves_by_unfolding rsa_sigalg_set_ctx_params. Qed.

Lemma start_digest_tbuf params : preserves tbuf_kept (start_digest params).
Proof. preserves_by_unfolding start_digest. Qed.

#[local] Hint Resolve rsa_setup_md_tbuf rsa_setup_mgf1_md_tbuf rsa_check_parameters_tbuf
  rsa_sigalg_set_ctx_params_tbuf start_digest_tbuf : calls.

Lemma rsa_sigalg_signverify_init_tbuf vrsa params mdname' op pm :
  preserves tbuf_kept
    (rsa_sigalg_signverify_init vrsa rsa_sigalg_set_ctx_params params mdname' op pm).
Proof.
  intros c w Hc. unfold rsa_sigalg_signverify_init, rsa_signverify_init.
  wp_go (fun (c' : PROV_RSA_CTX) (_ : world) => tbuf c' = t); inv_solve.
Qed.

End TbufKept.

(** No init releases or replaces the working buffer: the context points
    to the buffer it pointed to before, whatever key the init installs
    and whether it succeeds or fails.  The inits other than those of a
    fixed signature algorithm allocate and release no buffer at all, and
    leave the staged signature in place too. *)
Theorem init_keeps_buffers i vrsa params c w :
  let out := init i vrsa params c w in
  tbuf out.1.2 = tbuf c /\
  ((forall h op, i <> SigalgInit h op) ->
   sig out.1.2 = sig c /\ w_bufs out.2 = w_bufs w).
Proof.
  intros out. subst out.
  assert (Hplain : forall op,
            let out := rsa_signverify_init vrsa rsa_set_ctx_params params op c w in
            tbuf out.1.2 = tbuf c /\ sig out.1.2 = sig c /\ w_bufs out.2 = w_bufs w).
  { intros op.
    assert (H := rsa_signverify_init_buffers (tbuf c) (sig c) (w_bufs w) vrsa params op
                   c w (conj eq_refl (conj eq_refl eq_refl))).
    unfold wp in H. now destruct (rsa_signverify_init _ _ _ _ c w) as [[? ?] ?]. }
  assert (Hdigest : forall n op,
            w_running w = true ->
            let out := rsa_digest_signverify_init n vrsa params op c w in
            tbuf out.1.2 = tbuf c /\ sig out.1.2 = sig c /\ w_bufs out.2 = w_bufs w).
  { intros n op _.
    assert (H := rsa_digest_signverify_init_buffers (tbuf c) (sig c) (w_bufs w) n vrsa
                   params op c w (conj eq_refl (conj eq_refl eq_refl))).
    unfold wp in H. now destruct (rsa_digest_signverify_init _ _ _ _ c w) as [[? ?] ?]. }
  destruct i; cbn [init];
    unfold rsa_sign_init, rsa_verify_init, rsa_verify_recover_init,
      rsa_digest_sign_init, rsa_digest_verify_init.
  1-3: destruct (Hplain EVP_PKEY_OP_SIGN) as (? & ? & ?);
       destruct (Hplain EVP_PKEY_OP_VERIFY) as (? & ? & ?);
       destruct (Hplain EVP_PKEY_OP_VERIFYRECOVER) as (? & ? & ?); now auto.
  1-2: do 3 run; destruct (w_running w) eqn:Hr; cbn [negb]; [| now auto];
       destruct (Hdigest mdname' EVP_PKEY_OP_SIGNMSG eq_refl) as (? & ? & ?);
       destruct (Hdigest mdname' EVP_PKEY_OP_VERIFYMSG eq_refl) as (? & ? & ?); now auto.
  split; [| intros Hno; now destruct (Hno h operation')].
  assert (H := rsa_sigalg_signverify_init_tbuf (tbuf c) vrsa params (sigalg_MD h)
                 operation' RSA_PKCS1_PADDING c w eq_refl).
  unfold wp, rsa_md_sigalg_init in *.
  now destruct (rsa_sigalg_signverify_init _ _ _ _ _ _ c w) as [[? ?] ?].
Qed.

End InitBuffers.

(** A verification on the 34-byte toy key allocates the working buffer;
    a verify init with the 256-byte RSA-PSS key follows: the context
    holds the new key and the 34-byte buffer of the old one. *)
Lemma init_keeps_buffers_witness :
  let s0 := Toy.after (rsa_verify_init (Some 4%positive) Toy.sha256_param)
              (Toy.new_ctx, Toy.world0) in
  let s1 := Toy.after (rsa_verify_directly [] 0 Toy.digest32) s0 in
  let s2 := Toy.after (init VerifyInit (Some 3%positive) []) s1 in
  length <$> Toy.working_buffer s1 = Some 34%nat /\
  tbuf s2.1 = tbuf s1.1 /\
  length <$> Toy.working_buffer s2 = Some 34%nat /\
  RSA_size (ctx_key s2.1 s2.2).1.1 = 256.
Proof.
  intros s0 s1 s2.
  split; [vm_compute; reflexivity |].
  split; [exact (proj1 (init_keeps_buffers VerifyInit (Some 3%positive) [] s1.1 s1.2)) |].
  split; vm_compute; reflexivity.
Defined.

(** ** A message signed, then verified *)

Section Message.

Context `{Ext : Externals}.

Lemma key_is_same c w c' w' k :
  key_is c w k -> rsa c' = rsa c -> w_keys w' = w_keys w -> key_is c' w' k.
Proof. intros (p & o & Hp & Ho & Hk) Hr Hw. exists p, o. now rewrite Hr, Hw. Qed.

(** What [rsa_verify_directly] does under PKCS#1 v1.5 padding with a
    digest bound. *)
Lemma rsa_verify_directly_pkcs1 sg l tbs c w k m :
  w_running w = true -> key_is c w k ->
  md c = Some m -> pad_mode c = RSA_PKCS1_PADDING ->
  rsa_verify_directly sg l tbs c w =
    if RSA_verify (mdnid c) tbs (uint_of (Z.of_nat (length tbs))) sg (uint_of l) k =? 0
    then (0, c, pushed ERR_LIB_PROV ERR_R_RSA_LIB w) else (1, c, w).
Proof.
  intros Hrun Hk Hmd Hpad.
  unfold rsa_verify_directly, pushed. do 3 run.
  rewrite Hrun. cbn [negb]. rewrite Hmd, Hpad.
  change (RSA_PKCS1_PADDING =? RSA_PKCS1_PADDING) with true. cbn beta iota zeta.
  run. rewrite (ctx_key_live _ _ _ Hk).
  now destruct (RSA_verify _ _ _ _ _ _ =? 0).
Qed.

(** The one-shot sign of a message, when it succeeds: the digest the
    engine computed for the message is what was signed. *)
Lemma message_sign_run sigsize msg c w k m p o :
  w_running w = true -> key_is c w k ->
  operation c = EVP_PKEY_OP_SIGNMSG ->
  md c = Some m -> pad_mode c = RSA_PKCS1_PADDING ->
  EVP_MD_is_a (md c) OSSL_DIGEST_NAME_MDC2 = false ->
  0 < EVP_MD_get_size (md c) < 2 ^ 31 ->
  mdctx c = Some p -> w_mdctxs w !! p = Some o ->
  forall res c' w',
    rsa_sign OUT_CALLER sigsize msg c w = (res, c', w') ->
    r_code res <> 0 ->
    exists ru o1 rf digest o2 r l,
      EVP_DigestUpdate o msg = (ru, o1) /\ ru <> 0 /\
      EVP_DigestFinal_ex o1 = ((rf, digest), o2) /\ rf <> 0 /\
      RSA_sign (mdnid c) digest (uint_of (Z.of_nat (length digest))) k
        = (r, r_bytes res, l) /\
      0 < r /\ r_len res = Some (size_t_of (int_of l)).
Proof.
  intros Hrun Hk Hop Hmd Hpad Hmdc2 Hsize Hp Ho res c' w'.
  unfold rsa_sign. do 3 run. rewrite Hrun. cbn [negb].
  destruct (flag_allow_oneshot c) eqn:H1; cbn [negb];
    [| intros [= <- <- <-]; cbn; congruence].
  rewrite Hop, Z.eqb_refl. cbn [out_is_null].
  unfold rsa_signverify_message_update at 1. do 3 run.
  rewrite Hp. rewrite (bool_decide_eq_false_2 (Some p = None)) by discriminate.
  destruct (flag_allow_update c) eqn:H2; cbn [negb];
    [| intros [= <- <- <-]; cbn; congruence].
  unfold on_mdctx at 1. do 3 run. cbn. rewrite Ho.
  destruct (EVP_DigestUpdate o msg) as [ru o1] eqn:Hu. do 3 run. cbn.
  destruct (ru =? 0) eqn:Hru; [intros [= <- <- <-]; cbn; congruence |].
  unfold rsa_sign_message_final. do 3 run.
  change (w_running (set_w_mdctxs (<[p:=o1]> (w_mdctxs w)) w)) with (w_running w).
  rewrite Hrun. cbn [negb].
  change (mdctx (set_flag_allow_oneshot false c)) with (mdctx c).
  rewrite Hp, (bool_decide_eq_false_2 (Some p = None)) by discriminate.
  change (flag_allow_final (set_flag_allow_oneshot false c)) with (flag_allow_final c).
  destruct (flag_allow_final c) eqn:H3; cbn [negb];
    [| intros [= <- <- <-]; cbn; congruence].
  cbn [out_is_null negb]. unfold on_mdctx. do 3 run.
  change (w_mdctxs (set_w_mdctxs (<[p:=o1]> (w_mdctxs w)) w))
    with (<[p:=o1]> (w_mdctxs w)).
  rewrite lookup_insert_eq.
  destruct (EVP_DigestFinal_ex o1) as [[rf digest] o2] eqn:Hf. do 3 run.
  destruct (rf =? 0) eqn:Hrf; [intros [= <- <- <-]; cbn; congruence |].
  match goal with
  | |- context [rsa_sign_directly OUT_CALLER sigsize digest ?cx ?wx] =>
      assert (Hd := rsa_sign_directly_pkcs1 sigsize digest cx wx k m Hrun
                      (key_is_same c w cx wx k Hk eq_refl eq_refl)
                      Hmd Hpad Hmdc2 Hsize);
      destruct (rsa_sign_directly OUT_CALLER sigsize digest cx wx) as [[a cd] wd]
  end.
  intros [= <- <- <-]. cbn [r_code r_len r_bytes]. intros Hok.
  destruct (Hd a cd wd eq_refl) as (_ & _ & r & l & Hsign & Hr & Hlen);
    [destruct (r_code a =? 0) eqn:E; [congruence | now apply Z.eqb_neq] |].
  exists ru, o1, rf, digest, o2, r, l.
  apply Z.eqb_neq in Hru, Hrf. repeat split; assumption.
Qed.

(** A message signed in one shot verifies in one shot: a sign-message
    context and a verify-message context, each in the state its init
    leaves (same key, same digest, PKCS#1 v1.5 padding, digest contexts
    in the same state), possibly in different worlds.  When [rsa_sign]
    succeeds on the message, [rsa_verify] of that message with the
    signature and the length it reported returns 1, provided the
    signature can be staged (the allocation succeeds and the parameter
    getter hands back what it is given) and, for the digest of this
    message, [RSA_verify] accepts what [RSA_sign] produces and reports
    as its length.  Both sides digest the message with the same engine
    calls, so they sign and verify the same digest. *)
Theorem message_sign_then_verify sigsize msg cs ws cv wv k m nid o :
  message_ready EVP_PKEY_OP_SIGNMSG cs ws k m nid o ->
  message_ready EVP_PKEY_OP_VERIFYMSG cv wv k m nid o ->
  EVP_MD_is_a (Some m) OSSL_DIGEST_NAME_MDC2 = false ->
  0 < EVP_MD_get_size (Some m) < 2 ^ 31 ->
  (forall q, sig cv = Some q -> w_bufs wv !! q <> None) ->
  hd true (w_alloc wv) = true ->
  (forall s n,
     OSSL_PARAM_get_octet_string
       (mk_param OSSL_SIGNATURE_PARAM_SIGNATURE (PARAM_OCTET_STRING (Some s) n))
       = (Some n, Some (take (Z.to_nat n) s))) ->
  (forall ru o1 rf digest o2 r s l,
     EVP_DigestUpdate o msg = (ru, o1) ->
     EVP_DigestFinal_ex o1 = ((rf, digest), o2) ->
     RSA_sign nid digest (uint_of (Z.of_nat (length digest))) k = (r, s, l) -> 0 < r ->
     Z.of_nat (length s) = size_t_of (int_of l) /\
     RSA_verify nid digest (uint_of (Z.of_nat (length digest))) s
                (uint_of (size_t_of (int_of l))) k <> 0) ->
  let signed := rsa_sign OUT_CALLER sigsize msg cs ws in
  r_code signed.1.1 <> 0 ->
  (rsa_verify (Some (r_bytes signed.1.1)) (default 0 (r_len signed.1.1)) msg cv wv).1.1
    = 1.
Proof.
  intros (Hrs & Hks & Hops & Hmds & Hnids & Hpads & _ & _ & _ & ps & Hps & Hos)
         (Hrv & Hkv & Hopv & Hmdv & Hnidv & Hpadv & H1 & H2 & H3 & pv & Hpv & Hov)
         Hmdc2 Hsize Hlive Halloc Hget Hlaw signed Hok.
  rewrite <- Hmds in Hmdc2, Hsize.
  destruct (message_sign_run sigsize msg cs ws k m ps o Hrs Hks Hops Hmds Hpads
              Hmdc2 Hsize Hps Hos signed.1.1 signed.1.2 signed.2)
    as (ru & o1 & rf & digest & o2 & r & l & Hu & Hru & Hf & Hrf & Hsign & Hr & Hlen);
    [unfold signed; now destruct (rsa_sign _ _ _ _ _) as [[? ?] ?] | exact Hok |].
  rewrite Hnids in Hsign. destruct (Hlaw _ _ _ _ _ _ _ _ Hu Hf Hsign Hr) as [Hl Hver].
  rewrite Hlen. cbn [default].
  set (s := r_bytes signed.1.1) in *. set (n := size_t_of (int_of l)) in *.
  assert (Hb : take (Z.to_nat n) s = s) by (apply take_ge; lia).
  assert (Hn : Z.to_nat n = length s) by lia.
  clearbody s n. clear signed Hok Hlen Hl Hsign Hlaw.
  destruct cv; cbn in Hopv, Hmdv, Hnidv, Hpadv, H1, H2, H3, Hpv, Hlive; subst.
  match type of Hkv with key_is ?c _ _ => set (cv := c) in * end.
  destruct (rsa_verify_set_sig_run s n cv wv n s eq_refl Hlive Halloc)
    as ((Hst1 & Hst2 & Hst3 & Hst4 & _) & Hst5 & Hst6 & Hst7);
    [now rewrite Hget, Hb |].
  unfold rsa_verify. do 3 run. rewrite Hrv. cbn [negb]. cbn match.
  change (flag_allow_oneshot cv) with true. change (operation cv) with EVP_PKEY_OP_VERIFYMSG.
  cbn [negb]. rewrite Z.eqb_refl. unfold id, and_then. do 3 run.
  destruct (rsa_verify_set_sig (Some s) n cv wv) as [[x c1] w1].
  cbn [fst snd] in Hst1, Hst2, Hst3, Hst4, Hst5, Hst6, Hst7. subst x cv.
  destruct c1 as [? ? ? ? ? ? ? ? ? ? ? ? ? ? ? ? ? ? ? staged ? ?],
    w1 as [? ? blocks ? ? ? ? ? ?].
  cbn in Hst2, Hst3, Hst4, Hst5, Hst6, Hst7.
  injection Hst4 as -> -> -> -> -> -> -> -> -> -> -> -> -> -> -> -> -> -> -> ->.
  subst. cbn -[rsa_verify_message_final].
  unfold rsa_signverify_message_update, on_mdctx. do 3 run.
  cbn -[rsa_verify_message_final].
  rewrite Hov, Hu. apply Z.eqb_neq in Hru, Hrf.
  cbn -[rsa_verify_message_final]. rewrite Hru.
  unfold rsa_verify_message_final, on_mdctx, read_buf. do 3 run.
  cbn -[rsa_verify_directly]. rewrite Hrv. cbn -[rsa_verify_directly].
  rewrite lookup_insert_eq, Hf.
  cbn -[rsa_verify_directly]. rewrite Hrf.
  destruct staged as [q |]; [| discriminate Hst3]. cbn in Hst3.
  destruct (blocks !! q) as [blk |] eqn:Hq; [| discriminate Hst3].
  cbn in Hst3. injection Hst3 as Hst3.
  cbn -[rsa_verify_directly]. rewrite Hq. cbn -[rsa_verify_directly].
  rewrite Hn, Hst3.
  match goal with
  | |- context [rsa_verify_directly s n digest ?cx ?wx] =>
      rewrite (rsa_verify_directly_pkcs1 s n digest cx wx k m eq_refl
                 (key_is_same _ _ cx wx k Hkv eq_refl eq_refl) eq_refl eq_refl)
  end.
  cbn [mdnid set_flag_allow_oneshot set_flag_allow_final set_flag_allow_update].
  apply Z.eqb_neq in Hver. now rewrite Hver.
Qed.

End Message.

(** The message [1; 2; 3], signed after DigestSignInit and verified
    after DigestVerifyInit, with SHA2-256 on the 2048-bit toy key and
    the toy primitives. *)
Lemma message_sign_then_verify_witness :
  let cs := Toy.signmsg.1 in
  let ws := Toy.signmsg.2 in
  let signed := rsa_sign OUT_CALLER 256 Toy.message cs ws in
  r_code signed.1.1 <> 0 /\
  (rsa_verify (Some (r_bytes signed.1.1)) (default 0 (r_len signed.1.1)) Toy.message
     Toy.verifymsg.1 Toy.verifymsg.2).1.1 = 1.
Proof.
  intros cs ws signed.
  assert (Hok : r_code signed.1.1 <> 0) by (vm_compute; congruence).
  split; [exact Hok |].
  assert (Hready : forall op (s : @PROV_RSA_CTX Toy.externals * @world Toy.externals),
            w_running s.2 = true -> rsa s.1 = Some 1%positive ->
            w_keys s.2 !! 1%positive = Some (mk_RSA_obj Toy.key2048 2) ->
            operation s.1 = op -> md s.1 = Some Toy.SHA256_md -> mdnid s.1 = 672 ->
            pad_mode s.1 = RSA_PKCS1_PADDING ->
            flag_allow_oneshot s.1 = true -> flag_allow_update s.1 = true ->
            flag_allow_final s.1 = true ->
            mdctx s.1 = Some 1%positive ->
            w_mdctxs s.2 !! 1%positive = Some (Some Toy.SHA256_md, []) ->
            message_ready op s.1 s.2 Toy.key2048 Toy.SHA256_md 672
              (Some Toy.SHA256_md, [])).
  { intros op s ? ? ? ? ? ? ? ? ? ? ? ?. repeat split; try assumption.
    - now exists 1%positive, (mk_RSA_obj Toy.key2048 2).
    - now exists 1%positive. }
  apply (message_sign_then_verify 256 Toy.message cs ws Toy.verifymsg.1 Toy.verifymsg.2
           Toy.key2048 Toy.SHA256_md 672 (Some Toy.SHA256_md, [])).
  - apply (Hready EVP_PKEY_OP_SIGNMSG Toy.signmsg); vm_compute; reflexivity.
  - apply (Hready EVP_PKEY_OP_VERIFYMSG Toy.verifymsg); vm_compute; reflexivity.
  - vm_compute; reflexivity.
  - vm_compute; split; reflexivity.
  - intros q Hq. vm_compute in Hq. discriminate.
  - vm_compute; reflexivity.
  - intros s n. reflexivity.
  - intros ru o1 rf digest o2 r s l Eu Ef Es Hr.
    vm_compute in Eu. injection Eu as <- <-.
    vm_compute in Ef. injection Ef as <- <- <-.
    vm_compute in Es. injection Es as <- <- <-.
    split; vm_compute; congruence.
  - exact Hok.
Defined.

